(** * The exact (s,S) cost evaluator and search of [pyinv/ss.py]

    A shallow embedding of [s_s_cost_discrete] and [s_s_discrete_exact]
    (Zheng and Federgruen, 1991).  Python raises exceptions, so every
    operation returns in an error monad; NumPy arrays are lists updated by
    index; the dictionary handed to the newsvendor routines is a [gmap].

    Numbers.  A Python or NumPy float is idealised as an exact rational
    ([Qc]) extended by the IEEE special values: no rounding, no overflow and
    no signed zero.  The special values are kept because the code can
    produce them: a NumPy division by zero yields [inf] or [nan] where a
    division of Python floats raises [ZeroDivisionError]. *)

From Stdlib Require Import QArith Qcanon String.
From stdpp Require Import base option list gmap numbers sorting.

Local Open Scope Z_scope.

(** ** Floats *)

Inductive fl : Type :=
  | Fin (q : Qc)
  | Inf (neg : bool)
  | NaN.

Definition Qc_ltb (a b : Qc) : bool := bool_decide (a < b)%Qc.
Definition Qc_leb (a b : Qc) : bool := bool_decide (a ≤ b)%Qc.
Definition Qc_eqb (a b : Qc) : bool := bool_decide (a = b).

Definition fl_add (x y : fl) : fl :=
  match x, y with
  | NaN, _ | _, NaN => NaN
  | Fin a, Fin b => Fin (a + b)%Qc
  | Inf s, Fin _ | Fin _, Inf s => Inf s
  | Inf s, Inf t => if Bool.eqb s t then Inf s else NaN
  end.

Definition fl_mul (x y : fl) : fl :=
  match x, y with
  | NaN, _ | _, NaN => NaN
  | Fin a, Fin b => Fin (a * b)%Qc
  | Inf s, Fin a | Fin a, Inf s =>
      if Qc_eqb a 0 then NaN else Inf (xorb s (Qc_ltb a 0))
  | Inf s, Inf t => Inf (xorb s t)
  end.

(** NumPy's true division: a zero divisor gives [inf] or [nan] (and a
    warning), never an exception. *)
Definition np_div (x y : fl) : fl :=
  match x, y with
  | NaN, _ | _, NaN => NaN
  | Fin a, Fin b =>
      if Qc_eqb b 0 then (if Qc_eqb a 0 then NaN else Inf (Qc_ltb a 0))
      else Fin (a / b)%Qc
  | Fin _, Inf _ => Fin 0
  | Inf s, Fin b => Inf (xorb s (Qc_ltb b 0))
  | Inf _, Inf _ => NaN
  end.

(** [x <= y] and [x < y] on floats; any comparison with [nan] is false. *)
Definition fl_leb (x y : fl) : bool :=
  match x, y with
  | NaN, _ | _, NaN => false
  | Fin a, Fin b => Qc_leb a b
  | Inf s, Inf t => orb s (negb t)
  | Inf s, Fin _ => s
  | Fin _, Inf t => negb t
  end.

Definition fl_ltb (x y : fl) : bool :=
  match x, y with
  | NaN, _ | _, NaN => false
  | Fin a, Fin b => Qc_ltb a b
  | Inf s, Inf t => andb s (negb t)
  | Inf s, Fin _ => s
  | Fin _, Inf t => negb t
  end.

Definition is_finite (x : fl) : bool :=
  match x with Fin _ => true | _ => false end.

(** [np.sum] of a Python list of floats; the sum of the empty list is 0. *)
Definition np_sum (xs : list fl) : fl := foldl fl_add (Fin 0) xs.

(** ** Exceptions and results *)

Inductive exn : Type :=
  | AssertionError (msg : string)
  | TypeError
  | IndexError
  | ValueError
  | ZeroDivisionError
  | OtherError (name : string).

(** The outcome of a call that ends: a value or a raised exception. *)
Inductive res (A : Type) : Type :=
  | Ok (a : A)
  | Raise (e : exn).
Arguments Ok {A} a.
Arguments Raise {A} e.

#[global] Instance res_ret : MRet res := λ A a, Ok a.
#[global] Instance res_bind : MBind res := λ A B f r,
  match r with
  | Ok a => f a
  | Raise e => Raise e
  end.
#[global] Instance res_fmap : FMap res := λ A B f r,
  match r with
  | Ok a => Ok (f a)
  | Raise e => Raise e
  end.

(** The outcome of a run with [while] loops, which the model unrolls a
    bounded number of times: the run is done (it returned or raised), or the
    bound was reached with the loop still running. *)
Inductive run (A : Type) : Type :=
  | Done (r : res A)
  | OutOfFuel.
Arguments Done {A} r.
Arguments OutOfFuel {A}.

#[global] Instance run_ret : MRet run := λ A a, Done (Ok a).
#[global] Instance run_bind : MBind run := λ A B f r,
  match r with
  | Done (Ok a) => f a
  | Done (Raise e) => Done (Raise e)
  | OutOfFuel => OutOfFuel
  end.

Definition returns {A} (r : res A) : Prop := ∃ a, r = Ok a.
Definition raises {A} (r : res A) : Prop := ∃ e, r = Raise e.

#[global] Instance fl_eq_dec : EqDecision fl.
Proof. solve_decision. Defined.
#[global] Instance exn_eq_dec : EqDecision exn.
Proof. solve_decision. Defined.
#[global] Instance res_eq_dec {A} `{EqDecision A} : EqDecision (res A).
Proof. solve_decision. Defined.
#[global] Instance run_eq_dec {A} `{EqDecision A} : EqDecision (run A).
Proof. solve_decision. Defined.

(** A run that is still in its loops whatever the bound. *)
Definition runs_forever {A} (r : nat → run A) : Prop := ∀ fuel, r fuel = OutOfFuel.

(** [assert cond, msg] *)
Definition py_assert (cond : bool) (msg : string) : res unit :=
  if cond then Ok tt else Raise (AssertionError msg).

(** Monadic map and left fold, for list comprehensions and [for] loops. *)
Fixpoint res_mapM {A B} (f : A → res B) (xs : list A) : res (list B) :=
  match xs with
  | [] => Ok []
  | x :: xs' => y ← f x; ys ← res_mapM f xs'; Ok (y :: ys)
  end.

Fixpoint res_foldM {A B} (f : B → A → res B) (acc : B) (xs : list A) : res B :=
  match xs with
  | [] => Ok acc
  | x :: xs' => acc' ← f acc x; res_foldM f acc' xs'
  end.

(** ** Arguments and arrays *)

(** What a caller can put in the [demand_hi] position: [None], an integer,
    or (as [s_s_discrete_exact] does once) a dictionary. *)
Inductive pyarg : Type :=
  | PyNone
  | PyInt (z : Z)
  | PyDict (d : gmap Z Qc).

(** The [pmf] variable of [s_s_cost_discrete]: a NumPy array (from
    [poisson.pmf]), the caller's Python list, or [None]. *)
Inductive pmf_val : Type :=
  | PmfArray (a : list Qc)
  | PmfList (l : list Qc)
  | PmfNone.

(** [pmf[i]] for an index [i >= 0]. *)
Definition pmf_get (pmf : pmf_val) (i : nat) : res Qc :=
  match pmf with
  | PmfArray a | PmfList a =>
      match a !! i with Some x => Ok x | None => Raise IndexError end
  | PmfNone => Raise TypeError
  end.

(** [np.zeros(n)]: negative dimensions are not allowed. *)
Definition np_zeros (n : Z) : res (list fl) :=
  if bool_decide (n < 0) then Raise ValueError
  else Ok (replicate (Z.to_nat n) (Fin 0)).

(** [a[i]] and [a[i] = v] on a NumPy array, for an index [i >= 0]. *)
Definition arr_get (a : list fl) (i : nat) : res fl :=
  match a !! i with Some x => Ok x | None => Raise IndexError end.

Definition arr_set (a : list fl) (i : nat) (v : fl) : res (list fl) :=
  if bool_decide (i < length a)%nat then Ok (<[i:=v]> a) else Raise IndexError.

(** [range(lo, hi)] as natural numbers (both ends non-negative here). *)
Definition py_range (lo : nat) (hi : Z) : list nat :=
  seq lo (Z.to_nat hi - lo).

(** [{n: demand_pmf[n] for n in range(k)}] *)
Definition pmf_dict (demand_pmf : option (list Qc)) (k : Z) : res (gmap Z Qc) :=
  res_foldM (λ d n,
      match demand_pmf with
      | None => Raise TypeError
      | Some l =>
          match l !! n with
          | Some x => Ok (<[Z.of_nat n := x]> d)
          | None => Raise IndexError
          end
      end) ∅ (py_range 0 k).

(** ** Parameter checks (the [assert] block shared by both functions) *)

Definition check_costs (holding_cost stockout_cost fixed_cost : Qc) : res unit :=
  _ ← py_assert (Qc_ltb 0 holding_cost) "holding_cost must be positive.";
  _ ← py_assert (Qc_ltb 0 stockout_cost) "stockout_cost must be positive.";
  py_assert (Qc_ltb 0 fixed_cost) "fixed_cost must be positive.".

Definition check_demand_mean (demand_mean : option Qc) : res unit :=
  py_assert (match demand_mean with None => true | Some mu => Qc_leb 0 mu end)
    "demand_mean must be non-negative (or None)".

(** [demand_hi is None or (demand_hi >= 0 and is_integer(demand_hi))]:
    comparing a dictionary with [0] raises [TypeError]. *)
Definition check_demand_hi (demand_hi : pyarg) : res unit :=
  match demand_hi with
  | PyNone => Ok tt
  | PyInt z =>
      py_assert (bool_decide (0 ≤ z)) "demand_hi must be a non-negative integer (or None)"
  | PyDict _ => Raise TypeError
  end.

(** [demand_pmf is None or (is_list(demand_pmf) and
    len(demand_pmf) == demand_hi+1)]: [demand_hi+1] raises [TypeError]
    unless [demand_hi] is a number. *)
Definition check_demand_pmf (demand_hi : pyarg) (demand_pmf : option (list Qc))
    : res unit :=
  match demand_pmf with
  | None => Ok tt
  | Some l =>
      match demand_hi with
      | PyInt z =>
          py_assert (bool_decide (Z.of_nat (length l) = z + 1))
            "demand_pmf must be a list of length demand_hi+1 (or None)"
      | _ => Raise TypeError
      end
  end.

Definition check_demand (demand_mean : option Qc) (demand_hi : pyarg)
    (demand_pmf : option (list Qc)) : res unit :=
  _ ← check_demand_mean demand_mean;
  _ ← check_demand_hi demand_hi;
  check_demand_pmf demand_hi demand_pmf.

(** ** The renewal arrays (lines 116-128) *)

(** [1.0 / (1 - pmf[0])]: a NumPy scalar divides the NumPy way, an entry of
    a Python list is a Python float and a zero divisor raises. *)
Definition recip_one_minus (pmf : pmf_val) (p0 : Qc) : res fl :=
  match pmf with
  | PmfArray _ => Ok (np_div (Fin 1) (Fin (1 - p0)))
  | _ =>
      if Qc_eqb (1 - p0) 0 then Raise ZeroDivisionError
      else Ok (Fin (1 / (1 - p0)))
  end.

(** [[pmf[l] * m[j-l] for l in range(1, j+1)]] *)
Definition m_terms (pmf : pmf_val) (m : list fl) (j : nat) : res (list fl) :=
  res_mapM (λ l,
      pl ← pmf_get pmf l;
      mjl ← arr_get m (j - l);
      Ok (fl_mul (Fin pl) mjl)) (seq 1 j).

(** [m[j] = m[0] * np.sum([...])] *)
Definition m_step (pmf : pmf_val) (m : list fl) (j : nat) : res (list fl) :=
  m0 ← arr_get m 0;
  terms ← m_terms pmf m j;
  arr_set m j (fl_mul m0 (np_sum terms)).

Definition calc_m (K : Z) (pmf : pmf_val) : res (list fl) :=
  m ← np_zeros K;
  p0 ← pmf_get pmf 0;
  v ← recip_one_minus pmf p0;
  m ← arr_set m 0 v;
  res_foldM (m_step pmf) m (py_range 1 K).

Definition calc_M (K : Z) (m : list fl) : res (list fl) :=
  M ← np_zeros (K + 1);
  M ← arr_set M 0 (Fin 0);
  res_foldM (λ M j,
      a ← arr_get M (j - 1);
      b ← arr_get m (j - 1);
      arr_set M j (fl_add a b)) M (py_range 1 (K + 1)).

(** ** The two functions, over their collaborators *)

Section SS.

(** [scipy.stats.poisson.pmf(k, mu)] for [mu >= 0], and the newsvendor
    routines of [pyinv.newsvendor]: black boxes that return or raise. *)
Variable poisson_pmf : Qc → nat → Qc.
Variable newsvendor_poisson : Qc → Qc → option Qc → res (Z * fl).
Variable newsvendor_poisson_cost : Z → Qc → Qc → option Qc → res fl.
Variable newsvendor_discrete :
  Qc → Qc → option (gmap Z Qc) → option Z → res (Z * fl).

(** [poisson.pmf(range(K), demand_mean)]; a mean of [None] is rejected by
    scipy's argument check with a [TypeError]. *)
Definition poisson_pmf_range (K : Z) (demand_mean : option Qc) : res pmf_val :=
  match demand_mean with
  | None => Raise TypeError
  | Some mu => Ok (PmfArray (poisson_pmf mu <$> py_range 0 K))
  end.

(** [range(demand_hi)] needs an integer. *)
Definition truncated_pmf_dict (demand_hi : pyarg) (demand_pmf : option (list Qc))
    (extra : Z) : res (gmap Z Qc) :=
  match demand_hi with
  | PyInt k => pmf_dict demand_pmf (k + extra)
  | _ => Raise TypeError
  end.

(** The newsvendor cost called inside the cost loop (lines 133-144). *)
Definition loop_cost (y : Z) (holding_cost stockout_cost : Qc)
    (use_poisson : bool) (demand_mean : option Qc) (demand_hi : pyarg)
    (demand_pmf : option (list Qc)) : res fl :=
  if use_poisson then
    newsvendor_poisson_cost y holding_cost stockout_cost demand_mean
  else
    d ← truncated_pmf_dict demand_hi demand_pmf 0;
    snd <$> newsvendor_discrete holding_cost stockout_cost (Some d) (Some y).

Definition s_s_cost_discrete (reorder_point order_up_to_level : Z)
    (holding_cost stockout_cost fixed_cost : Qc) (use_poisson : bool)
    (demand_mean : option Qc) (demand_hi : pyarg)
    (demand_pmf : option (list Qc)) : res fl :=
  _ ← check_costs holding_cost stockout_cost fixed_cost;
  _ ← check_demand demand_mean demand_hi demand_pmf;
  let K := order_up_to_level - reorder_point in
  pmf ← (if use_poisson then poisson_pmf_range K demand_mean
         else Ok (match demand_pmf with Some l => PmfList l | None => PmfNone end));
  m ← calc_m K pmf;
  M ← calc_M K m;
  cost ← res_foldM (λ cost d,
      md ← arr_get m d;
      g ← loop_cost (order_up_to_level - Z.of_nat d) holding_cost stockout_cost
            use_poisson demand_mean demand_hi demand_pmf;
      Ok (fl_add cost (fl_mul md g))) (Fin fixed_cost) (py_range 0 K);
  MK ← arr_get M (Z.to_nat K);
  Ok (np_div cost MK).

(** *** The search (lines 210-318) *)

Section Search.

Variables (holding_cost stockout_cost fixed_cost : Qc) (use_poisson : bool)
  (demand_mean : option Qc) (demand_hi : pyarg) (demand_pmf : option (list Qc)).
Variable demand_pmf_dict : option (gmap Z Qc).

(** The newsvendor cost as the search calls it. *)
Definition search_cost (y : Z) : res fl :=
  if use_poisson then
    newsvendor_poisson_cost y holding_cost stockout_cost demand_mean
  else
    snd <$> newsvendor_discrete holding_cost stockout_cost demand_pmf_dict (Some y).

Definition policy_cost (s S : Z) : res fl :=
  s_s_cost_discrete s S holding_cost stockout_cost fixed_cost use_poisson
    demand_mean demand_hi demand_pmf.

(** [while not done: s -= 1; ...] (lines 235-248) *)
Fixpoint find_s0 (fuel : nat) (S0 s : Z) : run Z :=
  match fuel with
  | O => OutOfFuel
  | S fuel' =>
      let s := s - 1 in
      gs ← Done (search_cost s);
      c ← Done (policy_cost s S0);
      if fl_leb c gs then Done (Ok s) else find_s0 fuel' S0 s
  end.

(** [while s_s_cost_discrete(s, S_hat, ...) <= gs: s += 1; ...]
    (lines 286-296) *)
Fixpoint raise_s (fuel : nat) (S_hat s : Z) (gs : fl) : run Z :=
  match fuel with
  | O => OutOfFuel
  | S fuel' =>
      c ← Done (policy_cost s S_hat);
      if fl_leb c gs then
        let s := s + 1 in
        gs ← Done (search_cost (s + 1));
        raise_s fuel' S_hat s gs
      else Done (Ok s)
  end.

(** The variables live across the [while gS <= g_hat] loop. *)
Record search_state : Type := SearchState {
  st_s : Z;
  st_s_hat : Z;
  st_S_hat : Z;
  st_g_hat : fl;
  st_S : Z;
  st_gS : fl
}.

(** The body of the improvement test (lines 272-302). *)
Definition improve (inner : nat) (st : search_state) : run search_state :=
  c ← Done (policy_cost (st_s_hat st) (st_S st));
  if fl_ltb c (st_g_hat st) then
    let S_hat := st_S st in
    gs ← Done (search_cost (st_s st + 1));
    s ← raise_s inner S_hat (st_s st) gs;
    g_hat ← Done (policy_cost s S_hat);
    Done (Ok (SearchState s s S_hat g_hat (st_S st) (st_gS st)))
  else Done (Ok st).

(** [while gS <= g_hat: ...] (lines 270-312) *)
Fixpoint expand_S (inner fuel : nat) (st : search_state) : run (Z * Z * fl) :=
  match fuel with
  | O => OutOfFuel
  | S fuel' =>
      if fl_leb (st_gS st) (st_g_hat st) then
        st ← improve inner st;
        let S := st_S st + 1 in
        gS ← Done (search_cost S);
        expand_S inner fuel'
          (SearchState (st_s st) (st_s_hat st) (st_S_hat st) (st_g_hat st) S gS)
      else Done (Ok (st_s_hat st, st_S_hat st, st_g_hat st))
  end.

End Search.

Definition s_s_discrete_exact (fuel : nat)
    (holding_cost stockout_cost fixed_cost : Qc) (use_poisson : bool)
    (demand_mean : option Qc) (demand_hi : pyarg)
    (demand_pmf : option (list Qc)) : run (Z * Z * fl) :=
  _ ← Done (check_costs holding_cost stockout_cost fixed_cost);
  _ ← Done (check_demand demand_mean demand_hi demand_pmf);
  init ← Done (if use_poisson then
            r ← newsvendor_poisson holding_cost stockout_cost demand_mean;
            Ok (None, r.1)
          else
            d ← truncated_pmf_dict demand_hi demand_pmf 1;
            r ← newsvendor_discrete holding_cost stockout_cost (Some d) None;
            Ok (Some d, r.1));
  let demand_pmf_dict : option (gmap Z Qc) := init.1 in
  let y_star : Z := init.2 in
  let S0 := y_star in
  s0 ← find_s0 holding_cost stockout_cost fixed_cost use_poisson demand_mean
         demand_hi demand_pmf demand_pmf_dict fuel S0 y_star;
  let S_hat := S0 in
  let s_hat := s0 in
  g_hat ← Done (s_s_cost_discrete s_hat S_hat holding_cost stockout_cost
            fixed_cost use_poisson demand_mean
            (match demand_pmf_dict with Some d => PyDict d | None => PyNone end)
            None);
  let S := S_hat + 1 in
  gS ← Done (search_cost holding_cost stockout_cost use_poisson demand_mean
         demand_pmf_dict S);
  expand_S holding_cost stockout_cost fixed_cost use_poisson demand_mean
    demand_hi demand_pmf demand_pmf_dict fuel fuel
    (SearchState s0 s_hat S_hat g_hat S gS).

End SS.

(** ** Specification vocabulary *)

(** [a[i]] where the index is known to be in range. *)
Definition fl_at (a : list fl) (i : nat) : fl := default NaN (a !! i).
Definition Qc_at (a : list Qc) (i : nat) : Qc := default 0%Qc (a !! i).

(** The rational a finite float stands for. *)
Definition fl_val (x : fl) : Qc := match x with Fin q => q | _ => 0%Qc end.

(** The exact sum of a list of rationals. *)
Definition Qc_sum (xs : list Qc) : Qc := foldr Qcplus 0%Qc xs.

(** [m[0] * Σ_{l=1..j} pmf[l] * m[j-l]], in the arithmetic of the code. *)
Definition m_entry (p : nat → Qc) (m : list fl) (j : nat) : fl :=
  fl_mul (fl_at m 0) (np_sum ((λ l, fl_mul (Fin (p l)) (fl_at m (j - l))) <$> seq 1 j)).

(** [m] is the renewal density over the horizon [K] with first entry [v]. *)
Definition is_renewal_density (p : nat → Qc) (v : fl) (K : nat) (m : list fl) : Prop :=
  length m = K ∧ m !! 0%nat = Some v ∧
  ∀ j, (1 ≤ j < K)%nat → m !! j = Some (m_entry p m j).

(** [M] is the renewal function of [m]: [M[0] = 0], [M[j] = M[j-1] + m[j-1]]. *)
Definition is_renewal_function (K : nat) (m M : list fl) : Prop :=
  length M = S K ∧ M !! 0%nat = Some (Fin 0) ∧
  ∀ j, (1 ≤ j ≤ K)%nat → M !! j = Some (fl_add (fl_at M (j - 1)) (fl_at m (j - 1))).

(** The demand model as the specification words it (section 4.1): the
    probability masses of the demands [0 .. K-1]; the explicit variant
    returns the first [K] supplied entries and has no answer when [K]
    exceeds their number. *)
Definition spec_demand_pmf (poisson_pmf : Qc → nat → Qc) (use_poisson : bool)
    (demand_mean : option Qc) (demand_pmf : option (list Qc)) (K : nat)
    : option pmf_val :=
  if use_poisson then
    mu ← demand_mean; Some (PmfArray (poisson_pmf mu <$> seq 0 K))
  else
    l ← demand_pmf;
    if bool_decide (K ≤ length l)%nat then Some (PmfList (take K l)) else None.

(** The cost formula as the specification words it (section 4.3, steps 3
    and 4): [(fixed_cost + Σ_{d=0}^{K-1} m[d] · g(S − d)) / M[K]], where
    [g d] stands for the single-period cost at [S − d]. *)
Definition spec_policy_cost (fixed_cost : Qc) (K : nat) (m M : list fl)
    (g : nat → fl) : fl :=
  np_div
    (fl_add (Fin fixed_cost) (np_sum ((λ d, fl_mul (fl_at m d) (g d)) <$> seq 0 K)))
    (fl_at M K).

(** The entries of a pmf, whichever its kind ([None] has none). *)
Definition pmf_values (pmf : pmf_val) : list Qc :=
  match pmf with
  | PmfArray a | PmfList a => a
  | PmfNone => []
  end.

(** ** The discrete loss functions of [pyinv/loss_functions.py]

    The arguments and the values of a distribution object are taken to be
    finite numbers, so the values are plain rationals; a distribution
    object whose [cdf] or [mean()] returns [nan] (scipy's answer for
    invalid parameters) is outside this model. *)

(** A frozen scipy distribution, as far as the code uses it: [cdf] and
    [mean()]. *)
Record rv_discrete : Type := RvDiscrete { rv_cdf : Z → Qc; rv_mean : Qc }.

(** A true division of Python floats. *)
Definition py_divide (a b : Qc) : res Qc :=
  if Qc_eqb b 0 then Raise ZeroDivisionError else Ok (a / b)%Qc.

(** [pmf[y]] on a dictionary. *)
Definition dict_get (pmf : gmap Z Qc) (y : Z) : res Qc :=
  match pmf !! y with Some v => Ok v | None => Raise (OtherError "KeyError") end.

(** [x_values = list(pmf.keys()); x_values.sort()] *)
Definition sorted_keys (pmf : gmap Z Qc) : list Z :=
  merge_sort Z.le (map_to_list pmf).*1.

Definition discrete_loss (x : Z) (distrib : option rv_discrete)
    (pmf : option (gmap Z Qc)) : res (Qc * Qc) :=
  _ ← py_assert (match distrib, pmf with None, None => false | _, _ => true end)
        "must provide distrib or pmf";
  match distrib with
  | Some d =>
      let n_bar := Qc_sum (rv_cdf d <$> (Z.of_nat <$> seq 0 (Z.to_nat x))) in
      let n := (n_bar - Qc_of_Z x + rv_mean d)%Qc in
      Ok (n, n_bar)
  | None =>
      match pmf with
      | None => Raise TypeError
      | Some pmf =>
          let x_values := sorted_keys pmf in
          n ← res_mapM (λ y, v ← dict_get pmf y; Ok (Qc_of_Z (y - x) * v)%Qc)
                (filter (λ y, x ≤ y) x_values);
          n_bar ← res_mapM (λ y, v ← dict_get pmf y; Ok (Qc_of_Z (x - y) * v)%Qc)
                    (filter (λ y, y ≤ x) x_values);
          Ok (Qc_sum n, Qc_sum n_bar)
      end
  end.

Section Loss.

(** [scipy.stats.poisson.cdf(x, mean)], [poisson.pmf(x, mean)] and the
    frozen [nbinom(r, p)]. *)
Variable poisson_cdf : Z → Qc → Qc.
Variable poisson_mass : Z → Qc → Qc.
Variable nbinom : Qc → Qc → rv_discrete.

Definition poisson_loss (x : Z) (mean : Qc) : Qc * Qc :=
  let n := (- (Qc_of_Z x - mean) * (1 - poisson_cdf x mean)
            + mean * poisson_mass x mean)%Qc in
  let n_bar := ((Qc_of_Z x - mean) * poisson_cdf x mean
                + mean * poisson_mass x mean)%Qc in
  (n, n_bar).

Definition negative_binomial_loss (x : Z) (mean sd : Qc) : res (Qc * Qc) :=
  r ← py_divide (1 * (mean * mean)) (sd * sd - mean);
  q ← py_divide (sd * sd - mean) (sd * sd);
  let p := (1 - q)%Qc in
  beta ← py_divide p (1 - p);
  discrete_loss x (Some (nbinom r p)) None.

End Loss.

(** Sums over a dictionary, in the order of its sorted keys. *)
Definition dict_at (pmf : gmap Z Qc) (y : Z) : Qc := default 0%Qc (pmf !! y).
Definition dict_mass (pmf : gmap Z Qc) : Qc :=
  Qc_sum (dict_at pmf <$> sorted_keys pmf).
Definition dict_mean (pmf : gmap Z Qc) : Qc :=
  Qc_sum ((λ y, Qc_of_Z y * dict_at pmf y)%Qc <$> sorted_keys pmf).

(** The distribution function of a pmf dictionary: the mass at keys up to
    [y]. *)
Definition dict_cdf (pmf : gmap Z Qc) (y : Z) : Qc :=
  Qc_sum (dict_at pmf <$> filter (λ k, k ≤ y) (sorted_keys pmf)).

(** ** Concrete demand models, for evaluation *)

Definition Qc_frac (n : Z) (d : positive) : Qc := Q2Qc (n # d).

(** Demand 0, 1 or 2 with probabilities 1/4, 1/2, 1/4; also used as a
    rational-valued stand-in for [poisson.pmf]. *)
Definition tri_pmf : list Qc := [Qc_frac 1 4; Qc_frac 1 2; Qc_frac 1 4].
Definition tri_mass (mu : Qc) (k : nat) : Qc := Qc_at tri_pmf k.

(** The newsvendor cost [h E(y - D)^+ + p E(D - y)^+] of a finite pmf. *)
Definition overage_underage (h p : Qc) (y k : Z) : Qc :=
  (h * Qc_of_Z (Z.max (y - k) 0) + p * Qc_of_Z (Z.max (k - y) 0))%Qc.

Definition tri_cost (h p : Qc) (y : Z) : Qc :=
  Qc_sum ((λ k, Qc_at tri_pmf k * overage_underage h p y (Z.of_nat k))%Qc <$> seq 0 3).

(** The least minimiser of [cost] among the candidates [ys] (0 if none). *)
Definition argmin_cost (cost : Z → Qc) (ys : list Z) : Z :=
  match ys with
  | [] => 0
  | y :: ys' => foldl (λ best z, if Qc_ltb (cost z) (cost best) then z else best) y ys'
  end.

Definition tri_newsvendor_poisson_cost (y : Z) (h p : Qc) (mean : option Qc)
    : res fl := Ok (Fin (tri_cost h p y)).

Definition tri_newsvendor_poisson (h p : Qc) (mean : option Qc) : res (Z * fl) :=
  let y := argmin_cost (tri_cost h p) [0; 1; 2] in Ok (y, Fin (tri_cost h p y)).

Definition dict_cost (h p : Qc) (d : gmap Z Qc) (y : Z) : Qc :=
  map_fold (λ k pr acc, pr * overage_underage h p y k + acc)%Qc 0%Qc d.

Definition dict_newsvendor_discrete (h p : Qc) (d : option (gmap Z Qc))
    (y : option Z) : res (Z * fl) :=
  match d with
  | None => Raise TypeError
  | Some d =>
      let y' := default (argmin_cost (dict_cost h p d) (map_to_list d).*1) y in
      Ok (y', Fin (dict_cost h p d y'))
  end.

(** A single-period cost that is not quasi-convex: 0 everywhere but at
    [y = 1], with the minimiser [y* = 0]. *)
Definition bumpy_cost (y : Z) : Qc := if bool_decide (y = 1) then 1%Qc else 0%Qc.

Definition bumpy_newsvendor_poisson_cost (y : Z) (h p : Qc) (mean : option Qc)
    : res fl := Ok (Fin (bumpy_cost y)).

Definition bumpy_newsvendor_poisson (h p : Qc) (mean : option Qc) : res (Z * fl) :=
  Ok (0, Fin (bumpy_cost 0)).

(** The same demand as a pmf dictionary, and as a distribution object. *)
Definition tri_dict : gmap Z Qc :=
  list_to_map [(0, Qc_frac 1 4); (1, Qc_frac 1 2); (2, Qc_frac 1 4)].
Definition tri_distrib : rv_discrete :=
  RvDiscrete (dict_cdf tri_dict) (dict_mean tri_dict).

(** Demand that is always 0: the Poisson pmf of mean 0 (exactly
    [1, 0, 0, ...]) and its newsvendor cost [h y^+ + p y^-], least at 0. *)
Definition zero_mass (mu : Qc) (k : nat) : Qc :=
  match k with O => 1%Qc | _ => 0%Qc end.

Definition zero_newsvendor_poisson_cost (y : Z) (h p : Qc) (mean : option Qc)
    : res fl := Ok (Fin (overage_underage h p y 0)).

Definition zero_newsvendor_poisson (h p : Qc) (mean : option Qc) : res (Z * fl) :=
  Ok (0, Fin (overage_underage h p 0 0)).

(** * Properties *)

(** ** The error monad *)

Lemma bind_Ok {A B} (r : res A) (k : A → res B) (a : A) :
  r = Ok a → (r ≫= k) = k a.
Proof. by intros ->. Qed.

Lemma bind_Raise {A B} (r : res A) (k : A → res B) (e : exn) :
  r = Raise e → (r ≫= k) = Raise e.
Proof. by intros ->. Qed.

Lemma bind_Ok_inv {A B} (r : res A) (k : A → res B) (b : B) :
  (r ≫= k) = Ok b → ∃ a, r = Ok a ∧ k a = Ok b.
Proof. destruct r as [a|]; [by exists a | done]. Qed.

Lemma fmap_Ok_inv {A B} (f : A → B) (r : res A) (b : B) :
  f <$> r = Ok b → ∃ a, r = Ok a ∧ b = f a.
Proof. destruct r as [a|]; [|done]. intros [= <-]. by exists a. Qed.

Lemma py_assert_true msg : py_assert true msg = Ok tt.
Proof. done. Qed.

(** A [for] loop over [range(lo, lo+n)] that keeps an invariant returns,
    and the invariant holds of what it returns. *)
Lemma res_foldM_seq_inv {B} (I : nat → B → Prop) (f : B → nat → res B) :
  ∀ (n lo : nat) (acc : B),
    I lo acc →
    (∀ i b, (lo ≤ i < lo + n)%nat → I i b → ∃ b', f b i = Ok b' ∧ I (S i) b') →
    ∃ b', res_foldM f acc (seq lo n) = Ok b' ∧ I (lo + n)%nat b'.
Proof.
  induction n as [|n IH]; intros lo acc Hacc Hstep; simpl.
  - exists acc. by rewrite Nat.add_0_r.
  - destruct (Hstep lo acc) as (b' & Hf & Hb'); [lia | done |].
    rewrite (bind_Ok _ _ _ Hf).
    destruct (IH (S lo) b') as (b'' & Hfold & Hb''); [done | |].
    + intros i b Hi. apply Hstep. lia.
    + exists b''. split; [done|]. by replace (lo + S n)%nat with (S lo + n)%nat by lia.
Qed.

Lemma res_mapM_Ok {A B} (f : A → res B) (g : A → B) (xs : list A) :
  (∀ x, x ∈ xs → f x = Ok (g x)) → res_mapM f xs = Ok (g <$> xs).
Proof.
  induction xs as [|x xs IH]; intros H; simpl; [done|].
  rewrite (H x) by left. simpl.
  rewrite IH; [done|]. intros y Hy. apply H. by right.
Qed.

(** ** Float arithmetic *)

Lemma Qc_eqb_eq a b : Qc_eqb a b = true ↔ a = b.
Proof. unfold Qc_eqb. apply bool_decide_eq_true. Qed.

Lemma Qc_eqb_neq a b : Qc_eqb a b = false ↔ a ≠ b.
Proof. unfold Qc_eqb. apply bool_decide_eq_false. Qed.

Lemma Qc_ltb_lt a b : Qc_ltb a b = true ↔ (a < b)%Qc.
Proof. unfold Qc_ltb. apply bool_decide_eq_true. Qed.

Lemma Qc_ltb_nlt a b : Qc_ltb a b = false ↔ (b ≤ a)%Qc.
Proof.
  unfold Qc_ltb. rewrite bool_decide_eq_false. symmetry. apply Qcle_ngt.
Qed.


Lemma fl_add_0_l x : fl_add (Fin 0) x = x.
Proof. destruct x; simpl; [|done|done]. by rewrite Qcplus_0_l. Qed.

Lemma fl_add_comm x y : fl_add x y = fl_add y x.
Proof.
  destruct x as [a|s|], y as [b|t|]; simpl; try done.
  - by rewrite Qcplus_comm.
  - by destruct s, t.
Qed.

Lemma fl_add_assoc x y z : fl_add x (fl_add y z) = fl_add (fl_add x y) z.
Proof.
  destruct x as [a|s|], y as [b|t|], z as [c|u|]; simpl; try done;
    try (by rewrite Qcplus_assoc);
    repeat match goal with b : bool |- _ => destruct b end; done.
Qed.

Lemma foldl_fl_add x xs : foldl fl_add x xs = fl_add x (np_sum xs).
Proof.
  unfold np_sum. revert x. induction xs as [|y ys IH] using rev_ind; intros x; simpl.
  - by rewrite fl_add_comm, fl_add_0_l.
  - by rewrite !foldl_snoc, IH, fl_add_assoc.
Qed.

Lemma np_sum_Fin (xs : list Qc) : np_sum (Fin <$> xs) = Fin (Qc_sum xs).
Proof.
  induction xs as [|x xs IH]; [done|].
  unfold np_sum in *. rewrite fmap_cons. simpl foldl.
  rewrite foldl_fl_add. unfold np_sum. rewrite IH. simpl.
  by rewrite Qcplus_0_l.
Qed.

(** ** The renewal arrays *)

Lemma arr_get_at (a : list fl) (i : nat) :
  (i < length a)%nat → arr_get a i = Ok (fl_at a i).
Proof.
  intros Hi. unfold arr_get, fl_at.
  destruct (lookup_lt_is_Some_2 a i Hi) as [x ->]. done.
Qed.

Lemma arr_set_lt (a : list fl) (i : nat) (v : fl) :
  (i < length a)%nat → arr_set a i v = Ok (<[i:=v]> a).
Proof. intros Hi. unfold arr_set. by rewrite bool_decide_eq_true_2. Qed.

Lemma lookup_fl_at (a : list fl) (i : nat) :
  (i < length a)%nat → a !! i = Some (fl_at a i).
Proof.
  intros Hi. unfold fl_at. by destruct (lookup_lt_is_Some_2 a i Hi) as [x ->].
Qed.

Lemma py_range_seq (lo : nat) (hi : Z) :
  py_range lo hi = seq lo (Z.to_nat hi - lo).
Proof. done. Qed.

(** Entry [j] of the density only reads the entries below [j]. *)
Lemma m_entry_ext (p : nat → Qc) (m m' : list fl) (j : nat) :
  (1 ≤ j)%nat → (∀ i, (i < j)%nat → m !! i = m' !! i) → m_entry p m j = m_entry p m' j.
Proof.
  intros Hj H. unfold m_entry, fl_at. rewrite (H 0%nat) by lia. do 2 f_equal.
  apply list_fmap_ext. intros i l Hl.
  apply lookup_seq in Hl as [-> Hi]. rewrite H by lia. done.
Qed.

Lemma m_terms_Ok (pmf : pmf_val) (p : nat → Qc) (m : list fl) (j : nat) :
  (j < length m)%nat →
  (∀ i, (i ≤ j)%nat → pmf_get pmf i = Ok (p i)) →
  m_terms pmf m j = Ok ((λ l, fl_mul (Fin (p l)) (fl_at m (j - l))) <$> seq 1 j).
Proof.
  intros Hj Hp. unfold m_terms. apply res_mapM_Ok.
  intros l Hl. apply elem_of_seq in Hl.
  rewrite Hp by lia. simpl. rewrite arr_get_at by lia. done.
Qed.

Lemma calc_m_Ok (K : nat) (pmf : pmf_val) (p : nat → Qc) (v : fl) :
  (1 ≤ K)%nat →
  (∀ i, (i < K)%nat → pmf_get pmf i = Ok (p i)) →
  recip_one_minus pmf (p 0%nat) = Ok v →
  ∃ m, calc_m (Z.of_nat K) pmf = Ok m ∧ is_renewal_density p v K m.
Proof.
  intros HK Hp Hv. unfold calc_m, np_zeros.
  rewrite bool_decide_eq_false_2 by lia. simpl.
  rewrite Hp by lia. simpl. rewrite Hv. simpl.
  rewrite Nat2Z.id, arr_set_lt by (rewrite length_replicate; lia). simpl.
  rewrite py_range_seq, Nat2Z.id.
  set (m1 := <[0%nat:=v]> (replicate K (Fin 0))).
  destruct (res_foldM_seq_inv
    (λ n m, length m = K ∧ m !! 0%nat = Some v ∧
            ∀ j, (1 ≤ j < n)%nat → m !! j = Some (m_entry p m j))
    (m_step pmf) (K - 1) 1%nat m1) as (m & Hm & Hlen & H0 & Hrec).
  - subst m1. rewrite length_insert, length_replicate. split; [done|].
    split; [|intros; lia].
    apply list_lookup_insert_eq. rewrite length_replicate. lia.
  - intros n m [Hn1 Hn2] (Hlen & H0 & Hrec). unfold m_step.
    rewrite arr_get_at by lia. simpl.
    rewrite (m_terms_Ok pmf p) by (try lia; intros; apply Hp; lia). simpl.
    rewrite arr_set_lt by lia.
    eexists; split; [done|].
    assert (Hsame : ∀ i, (i < n)%nat →
      m !! i = <[n:=fl_mul (fl_at m 0) (np_sum ((λ l, fl_mul (Fin (p l)) (fl_at m (n - l))) <$> seq 1 n))]> m !! i).
    { intros i Hi. rewrite list_lookup_insert_ne by lia. done. }
    rewrite length_insert. split; [done|]. split.
    + rewrite <- Hsame by lia. done.
    + intros j Hj. destruct (decide (j = n)) as [->|Hne].
      * rewrite list_lookup_insert_eq by lia. f_equal.
        apply (m_entry_ext p m); [lia | done].
      * rewrite <- Hsame by lia. rewrite Hrec by lia. f_equal.
        apply m_entry_ext; [lia|]. intros i Hi. apply Hsame. lia.
  - exists m. split; [done|]. split; [done|]. split; [done|].
    intros j Hj. apply Hrec. lia.
Qed.

Lemma calc_M_Ok (K : nat) (m : list fl) :
  length m = K →
  ∃ M, calc_M (Z.of_nat K) m = Ok M ∧ is_renewal_function K m M.
Proof.
  intros Hm. unfold calc_M, np_zeros.
  rewrite bool_decide_eq_false_2 by lia. simpl.
  replace (Z.to_nat (Z.of_nat K + 1)) with (S K) by lia.
  rewrite arr_set_lt by (simpl; lia). simpl.
  rewrite py_range_seq.
  replace (Z.to_nat (Z.of_nat K + 1) - 1)%nat with K by lia.
  destruct (res_foldM_seq_inv
    (λ n M, length M = S K ∧ M !! 0%nat = Some (Fin 0) ∧
            ∀ j, (1 ≤ j < n)%nat →
                 M !! j = Some (fl_add (fl_at M (j - 1)) (fl_at m (j - 1))))
    (λ M j, a ← arr_get M (j - 1); b ← arr_get m (j - 1); arr_set M j (fl_add a b))
    K 1%nat (Fin 0 :: replicate K (Fin 0))) as (M & HM & Hlen & H0 & Hrec).
  - simpl. rewrite length_replicate. split; [done|]. split; [done|]. intros; lia.
  - intros n M [Hn1 Hn2] (Hlen & H0 & Hrec).
    rewrite !arr_get_at by lia. simpl. rewrite arr_set_lt by lia.
    eexists; split; [done|].
    assert (Hsame : ∀ i, (i < n)%nat →
      <[n:=fl_add (fl_at M (n - 1)) (fl_at m (n - 1))]> M !! i = M !! i).
    { intros i Hi. by rewrite list_lookup_insert_ne by lia. }
    assert (Hat : ∀ i, (i < n)%nat →
      fl_at (<[n:=fl_add (fl_at M (n - 1)) (fl_at m (n - 1))]> M) i = fl_at M i).
    { intros i Hi. unfold fl_at at 1 3. by rewrite Hsame. }
    rewrite length_insert. split; [done|]. split; [by rewrite Hsame by lia|].
    intros j Hj. rewrite Hat by lia. destruct (decide (j = n)) as [->|Hne].
    + by rewrite list_lookup_insert_eq by lia.
    + rewrite Hsame by lia. by apply Hrec; lia.
  - exists M. split; [done|]. split; [done|]. split; [done|].
    intros j Hj. apply Hrec. lia.
Qed.

(** With a finite first entry every entry of [m] and [M] is finite, and the
    recurrences hold among the rationals. *)
Lemma Fin_fl_val (a : list fl) :
  (∀ i x, a !! i = Some x → is_finite x = true) → a = Fin <$> (fl_val <$> a).
Proof.
  intros H. apply list_eq. intros i. rewrite !list_lookup_fmap.
  destruct (a !! i) as [x|] eqn:E; [|done]. simpl.
  specialize (H i x E). by destruct x.
Qed.

Lemma fl_at_Fin (aq : list Qc) (i : nat) :
  (i < length aq)%nat → fl_at (Fin <$> aq) i = Fin (Qc_at aq i).
Proof.
  intros Hi. unfold fl_at, Qc_at. rewrite list_lookup_fmap.
  by destruct (lookup_lt_is_Some_2 aq i Hi) as [x ->].
Qed.

Lemma m_entry_Fin (p : nat → Qc) (mq : list Qc) (j : nat) :
  (j < length mq)%nat →
  m_entry p (Fin <$> mq) j =
  Fin (Qc_at mq 0 * Qc_sum ((λ l, p l * Qc_at mq (j - l)) <$> seq 1 j))%Qc.
Proof.
  intros Hj. unfold m_entry. rewrite fl_at_Fin by lia.
  replace ((λ l, fl_mul (Fin (p l)) (fl_at (Fin <$> mq) (j - l))) <$> seq 1 j)
    with (Fin <$> ((λ l, p l * Qc_at mq (j - l))%Qc <$> seq 1 j)).
  - by rewrite np_sum_Fin.
  - rewrite <- list_fmap_compose. apply list_fmap_ext.
    intros i l Hl. apply lookup_seq in Hl as [-> Hi]. simpl.
    by rewrite fl_at_Fin by lia.
Qed.

Lemma renewal_density_finite (p : nat → Qc) (q : Qc) (K : nat) (m : list fl) :
  is_renewal_density p (Fin q) K m →
  ∃ mq, m = Fin <$> mq ∧ length mq = K ∧ mq !! 0%nat = Some q ∧
    ∀ j, (1 ≤ j < K)%nat →
      mq !! j = Some (q * Qc_sum ((λ l, p l * Qc_at mq (j - l)) <$> seq 1 j))%Qc.
Proof.
  intros (Hlen & H0 & Hrec).
  assert (Hfin : ∀ j x, m !! j = Some x → is_finite x = true).
  { intros j. induction j as [j IH] using lt_wf_ind. intros x Hx.
    destruct (decide (j = 0%nat)) as [->|Hne]; [by rewrite H0 in Hx; injection Hx as <-|].
    assert (j < K)%nat as HjK by (apply lookup_lt_Some in Hx; lia).
    rewrite Hrec in Hx by lia. injection Hx as <-.
    unfold m_entry.
    assert (fl_at m 0 = Fin q) as -> by (unfold fl_at; by rewrite H0).
    assert (∃ ts, (λ l, fl_mul (Fin (p l)) (fl_at m (j - l))) <$> seq 1 j = Fin <$> ts)
      as [ts ->]; [|by rewrite np_sum_Fin].
    exists ((λ l, p l * fl_val (fl_at m (j - l)))%Qc <$> seq 1 j).
    rewrite <- list_fmap_compose. apply list_fmap_ext.
    intros i l Hl. apply lookup_seq in Hl as [-> Hi]. simpl.
    assert (j - (1 + i) < j)%nat as Hlt by lia.
    assert (j - (1 + i) < length m)%nat as Hlen' by lia.
    specialize (IH _ Hlt _ (lookup_fl_at m _ Hlen')).
    change (1 + i)%nat with (S i) in *.
    by destruct (fl_at m (j - S i)). }
  apply Fin_fl_val in Hfin. set (mq := fl_val <$> m) in *.
  assert (length mq = K) as Hlq by (subst mq; by rewrite length_fmap).
  exists mq. split; [done|]. split; [done|].
  rewrite Hfin in H0, Hrec.
  assert (mq !! 0%nat = Some q) as H0q.
  { rewrite list_lookup_fmap in H0. destruct (mq !! 0%nat); [|done].
    by injection H0 as ->. }
  split; [done|].
  intros j Hj. specialize (Hrec j Hj).
  rewrite m_entry_Fin, list_lookup_fmap in Hrec by lia.
  destruct (mq !! j) as [x|] eqn:E; [|done]. simpl in Hrec.
  injection Hrec as ->. unfold Qc_at at 1. by rewrite H0q.
Qed.

Lemma renewal_function_finite (K : nat) (mq : list Qc) (M : list fl) :
  length mq = K →
  is_renewal_function K (Fin <$> mq) M →
  ∃ Mq, M = Fin <$> Mq ∧ length Mq = S K ∧ Mq !! 0%nat = Some 0%Qc ∧
    ∀ j, (1 ≤ j ≤ K)%nat →
      Mq !! j = Some (Qc_at Mq (j - 1) + Qc_at mq (j - 1))%Qc.
Proof.
  intros Hmq (Hlen & H0 & Hrec).
  assert (Hfin : ∀ j x, M !! j = Some x → is_finite x = true).
  { intros j. induction j as [|j IH]; intros x Hx.
    - rewrite H0 in Hx. by injection Hx as <-.
    - assert (S j < length M)%nat as HjK by (by apply lookup_lt_Some in Hx).
      rewrite Hrec in Hx by lia. injection Hx as <-.
      rewrite fl_at_Fin by lia. rewrite ?Nat.sub_0_r.
      assert (j < length M)%nat as Hj by lia.
      specialize (IH _ (lookup_fl_at M j Hj)). by destruct (fl_at M j). }
  apply Fin_fl_val in Hfin. set (Mq := fl_val <$> M) in *.
  assert (length Mq = S K) as Hlq by (subst Mq; by rewrite length_fmap).
  exists Mq. split; [done|]. split; [done|].
  rewrite Hfin in H0, Hrec. split.
  - rewrite list_lookup_fmap in H0. destruct (Mq !! 0%nat); [|done].
    by injection H0 as ->.
  - intros j Hj. specialize (Hrec j Hj).
    rewrite !fl_at_Fin, list_lookup_fmap in Hrec by lia.
    destruct (Mq !! j) as [x|] eqn:E; [|done]. simpl in Hrec.
    by injection Hrec as ->.
Qed.

Lemma Qc_one_minus_nonzero (p0 : Qc) : (p0 < 1)%Qc → (1 - p0)%Qc ≠ 0%Qc.
Proof.
  intros Hlt Hz. apply (Qclt_not_eq _ _ Hlt).
  replace p0 with (1 - (1 - p0))%Qc by ring. rewrite Hz. ring.
Qed.

Lemma recip_one_minus_lt (pmf : pmf_val) (p0 : Qc) :
  (1 - p0)%Qc ≠ 0%Qc →
  recip_one_minus pmf p0 = Ok (Fin (1 / (1 - p0))).
Proof.
  intros Hne. apply Qc_eqb_neq in Hne.
  unfold recip_one_minus, np_div. rewrite Hne. by destruct pmf.
Qed.

Lemma pmf_get_list (pmf : pmf_val) (l : list Qc) (i : nat) :
  pmf = PmfArray l ∨ pmf = PmfList l → (i < length l)%nat →
  pmf_get pmf i = Ok (Qc_at l i).
Proof.
  intros Hpmf Hi. unfold Qc_at.
  destruct (lookup_lt_is_Some_2 l i Hi) as [x Hx].
  destruct Hpmf as [-> | ->]; simpl; by rewrite Hx.
Qed.

(** The arrays of lines 116-128 on a pmf with [pmf[0] < 1]. *)
Lemma renewal_arrays_finite (K : nat) (pmf : list Qc) (pmfv : pmf_val) :
  (1 ≤ K)%nat → length pmf = K →
  (Qc_at pmf 0 < 1)%Qc →
  pmfv = PmfArray pmf ∨ pmfv = PmfList pmf →
  ∃ mq Mq : list Qc,
    calc_m (Z.of_nat K) pmfv = Ok (Fin <$> mq) ∧
    calc_M (Z.of_nat K) (Fin <$> mq) = Ok (Fin <$> Mq) ∧
    length mq = K ∧ length Mq = S K ∧
    mq !! 0%nat = Some (1 / (1 - Qc_at pmf 0))%Qc ∧
    (∀ j, (1 ≤ j ≤ K - 1)%nat →
       mq !! j = Some (Qc_at mq 0 *
         Qc_sum ((λ l, Qc_at pmf l * Qc_at mq (j - l)) <$> seq 1 j))%Qc) ∧
    Mq !! 0%nat = Some 0%Qc ∧
    (∀ j, (1 ≤ j ≤ K)%nat →
       (Qc_at Mq j - Qc_at Mq (j - 1) = Qc_at mq (j - 1))%Qc) ∧
    (K = 1%nat →
       mq = [Qc_at mq 0] ∧ Mq = [0%Qc; Qc_at mq 0]).
Proof.
  intros HK Hlen Hp0 Hpmfv.
  destruct (calc_m_Ok K pmfv (Qc_at pmf) (Fin (1 / (1 - Qc_at pmf 0)))) as (m & Hm & Hdens);
    [done | | |].
  { intros i Hi. apply pmf_get_list; [done | lia]. }
  { apply recip_one_minus_lt. by apply Qc_one_minus_nonzero. }
  destruct (renewal_density_finite _ _ _ _ Hdens) as (mq & -> & Hlq & Hq0 & Hqrec).
  destruct (calc_M_Ok K (Fin <$> mq)) as (M & HM & Hfun); [by rewrite length_fmap|].
  destruct (renewal_function_finite _ _ _ Hlq Hfun) as (Mq & -> & HlM & HM0 & HMrec).
  assert (Qc_at mq 0 = (1 / (1 - Qc_at pmf 0))%Qc) as Hat0
    by (unfold Qc_at at 1; by rewrite Hq0).
  exists mq, Mq. split_and!; try done.
  - intros j Hj. rewrite Hat0. apply Hqrec. lia.
  - intros j Hj. unfold Qc_at at 1. rewrite HMrec by done. simpl. ring.
  - intros ->. split.
    + by destruct mq as [|x [|??]].
    + destruct Mq as [|x [|y [|??]]]; try done.
      simpl in HM0. injection HM0 as ->.
      specialize (HMrec 1%nat ltac:(lia)). simpl in HMrec. injection HMrec as ->.
      unfold Qc_at. simpl. f_equal. f_equal. ring.
Qed.

(** C3. For a pmf sequence of length [K ≥ 1] with [pmf[0] < 1], whether a
    NumPy array or a Python list, the arrays built by lines 116-128 of
    [s_s_cost_discrete] are finite and satisfy
    [m[0] = 1/(1 − pmf[0])], [m[j] = m[0] · Σ_{l=1..j} pmf[l] · m[j−l]] for
    [1 ≤ j ≤ K−1], [M[0] = 0] and [M[j] − M[j−1] = m[j−1]] for [1 ≤ j ≤ K];
    for [K = 1], [m] has one entry and [M = [0, m[0]]]. *)
Theorem renewal_arrays_recurrence (K : nat) (pmf : list Qc) (pmfv : pmf_val) :
  (1 ≤ K)%nat → length pmf = K →
  (Qc_at pmf 0 < 1)%Qc →
  pmfv = PmfArray pmf ∨ pmfv = PmfList pmf →
  ∃ mq Mq : list Qc,
    calc_m (Z.of_nat K) pmfv = Ok (Fin <$> mq) ∧
    calc_M (Z.of_nat K) (Fin <$> mq) = Ok (Fin <$> Mq) ∧
    length mq = K ∧ length Mq = S K ∧
    mq !! 0%nat = Some (1 / (1 - Qc_at pmf 0))%Qc ∧
    (∀ j, (1 ≤ j ≤ K - 1)%nat →
       mq !! j = Some (Qc_at mq 0 *
         Qc_sum ((λ l, Qc_at pmf l * Qc_at mq (j - l)) <$> seq 1 j))%Qc) ∧
    Mq !! 0%nat = Some 0%Qc ∧
    (∀ j, (1 ≤ j ≤ K)%nat →
       (Qc_at Mq j - Qc_at Mq (j - 1) = Qc_at mq (j - 1))%Qc) ∧
    (K = 1%nat →
       mq = [Qc_at mq 0] ∧ Mq = [0%Qc; Qc_at mq 0]).
Proof. apply renewal_arrays_finite. Qed.

(** The recurrences determine the density. *)
Lemma renewal_density_unique (p : nat → Qc) (v : fl) (K : nat) (m m' : list fl) :
  is_renewal_density p v K m → is_renewal_density p v K m' → m = m'.
Proof.
  intros (Hlen & H0 & Hrec) (Hlen' & H0' & Hrec').
  apply list_eq. intros i. induction i as [i IH] using lt_wf_ind.
  destruct (decide (i < K)%nat) as [Hi|Hi].
  - destruct (decide (i = 0%nat)) as [->|Hne]; [congruence|].
    rewrite Hrec, Hrec' by lia. f_equal. apply m_entry_ext; [lia|].
    intros k Hk. by apply IH.
  - rewrite !(proj2 (lookup_ge_None _ _)) by lia. done.
Qed.

(** The density over the horizon [K] reads the first [K] pmf values only. *)
Lemma calc_m_take (K : nat) (l : list Qc) :
  (1 ≤ K ≤ length l)%nat → (1 - Qc_at l 0)%Qc ≠ 0%Qc →
  calc_m (Z.of_nat K) (PmfList l) = calc_m (Z.of_nat K) (PmfList (take K l)).
Proof.
  intros HK Hne.
  destruct (calc_m_Ok K (PmfList l) (Qc_at l) (Fin (1 / (1 - Qc_at l 0))))
    as (m & Hm & Hdens); [lia | | by apply recip_one_minus_lt |].
  { intros i Hi. apply pmf_get_list; [by right | lia]. }
  destruct (calc_m_Ok K (PmfList (take K l)) (Qc_at l) (Fin (1 / (1 - Qc_at l 0))))
    as (m' & Hm' & Hdens'); [lia | | by apply recip_one_minus_lt |].
  { intros i Hi. unfold pmf_get, Qc_at. rewrite lookup_take_lt by lia.
    by destruct (lookup_lt_is_Some_2 l i ltac:(lia)) as [x ->]. }
  rewrite Hm, Hm'. f_equal. by eapply renewal_density_unique.
Qed.

Lemma check_costs_Ok (holding_cost stockout_cost fixed_cost : Qc) :
  (0 < holding_cost)%Qc → (0 < stockout_cost)%Qc → (0 < fixed_cost)%Qc →
  check_costs holding_cost stockout_cost fixed_cost = Ok tt.
Proof.
  intros Hh Hp Hk. unfold check_costs.
  by rewrite !(proj2 (Qc_ltb_lt _ _)).
Qed.

(** ** The cost evaluator *)

Section Properties.

Variable poisson_pmf : Qc → nat → Qc.
Variable newsvendor_poisson : Qc → Qc → option Qc → res (Z * fl).
Variable newsvendor_poisson_cost : Z → Qc → Qc → option Qc → res fl.
Variable newsvendor_discrete :
  Qc → Qc → option (gmap Z Qc) → option Z → res (Z * fl).

Local Abbreviation cost_discrete :=
  (s_s_cost_discrete poisson_pmf newsvendor_poisson_cost newsvendor_discrete).
Local Abbreviation newsvendor_cost :=
  (loop_cost newsvendor_poisson_cost newsvendor_discrete).
Local Abbreviation discrete_exact :=
  (s_s_discrete_exact poisson_pmf newsvendor_poisson newsvendor_poisson_cost
     newsvendor_discrete).

(** The accumulation of lines 131-144, once every call returns. *)
Lemma cost_loop_Ok (K : nat) (m : list fl) (fixed_cost : Qc) (f : nat → res fl)
    (g : nat → fl) :
  length m = K →
  (∀ d, (d < K)%nat → f d = Ok (g d)) →
  res_foldM (λ cost d, md ← arr_get m d; gd ← f d; Ok (fl_add cost (fl_mul md gd)))
    (Fin fixed_cost) (seq 0 K)
  = Ok (fl_add (Fin fixed_cost) (np_sum ((λ d, fl_mul (fl_at m d) (g d)) <$> seq 0 K))).
Proof.
  intros Hm Hf.
  destruct (res_foldM_seq_inv
    (λ d cost, cost = foldl fl_add (Fin fixed_cost)
                        ((λ d, fl_mul (fl_at m d) (g d)) <$> seq 0 d))
    (λ cost d, md ← arr_get m d; gd ← f d; Ok (fl_add cost (fl_mul md gd)))
    K 0%nat (Fin fixed_cost)) as (c & Hc & ->); [done | |].
  - intros d c [_ Hd] ->. rewrite arr_get_at, Hf by lia.
    eexists; split; [reflexivity|]. by rewrite seq_S, fmap_app, foldl_app.
  - rewrite Hc. simpl. by rewrite foldl_fl_add.
Qed.

(** What [s_s_cost_discrete] returns on a demand model that answers. *)
Lemma cost_discrete_spec (s S : Z) (holding_cost stockout_cost fixed_cost : Qc)
    (use_poisson : bool) (demand_mean : option Qc) (demand_hi : pyarg)
    (demand_pmf : option (list Qc)) (pmfK : pmf_val) (g : nat → fl) :
  s < S →
  (0 < holding_cost)%Qc → (0 < stockout_cost)%Qc → (0 < fixed_cost)%Qc →
  check_demand demand_mean demand_hi demand_pmf = Ok tt →
  spec_demand_pmf poisson_pmf use_poisson demand_mean demand_pmf (Z.to_nat (S - s))
    = Some pmfK →
  (use_poisson = false → pmf_get pmfK 0 ≠ Ok 1%Qc) →
  (∀ d, (d < Z.to_nat (S - s))%nat →
     newsvendor_cost (S - Z.of_nat d) holding_cost stockout_cost use_poisson
       demand_mean demand_hi demand_pmf = Ok (g d)) →
  ∃ m M,
    calc_m (S - s) pmfK = Ok m ∧ calc_M (S - s) m = Ok M ∧
    cost_discrete s S holding_cost stockout_cost fixed_cost use_poisson
      demand_mean demand_hi demand_pmf
    = Ok (spec_policy_cost fixed_cost (Z.to_nat (S - s)) m M g).
Proof.
  intros HsS Hh Hp Hk Hdem Hpmf Hp0 Hg.
  unfold s_s_cost_discrete. rewrite check_costs_Ok, Hdem by done. simpl.
  set (K := Z.to_nat (S - s)) in *.
  assert (S - s = Z.of_nat K) as HK by lia. rewrite !HK.
  assert (1 ≤ K)%nat as HK1 by lia.
  assert (∃ (p : nat → Qc) (v : fl) (m : list fl),
    calc_m (Z.of_nat K) pmfK = Ok m ∧ is_renewal_density p v K m ∧
    ((if use_poisson then poisson_pmf_range poisson_pmf (Z.of_nat K) demand_mean
      else Ok (match demand_pmf with Some l => PmfList l | None => PmfNone end))
     ≫= calc_m (Z.of_nat K)) = Ok m) as (p & v & m & Hm & Hdens & Hcode).
  { unfold spec_demand_pmf in Hpmf. destruct use_poisson.
    - destruct demand_mean as [mu|]; [|done]. injection Hpmf as <-.
      destruct (calc_m_Ok K (PmfArray (poisson_pmf mu <$> seq 0 K))
        (Qc_at (poisson_pmf mu <$> seq 0 K))
        (np_div (Fin 1) (Fin (1 - Qc_at (poisson_pmf mu <$> seq 0 K) 0))))
        as (m & Hm & Hdens); [done | | done |].
      { intros i Hi. apply pmf_get_list; [by left|].
        rewrite length_fmap, length_seq. lia. }
      eexists _, _, m. split; [done|]. split; [exact Hdens|].
      simpl. rewrite py_range_seq, Nat2Z.id, Nat.sub_0_r. done.
    - destruct demand_pmf as [l|]; [|done]. simpl in Hpmf.
      case_bool_decide as Hlen; [|done]. injection Hpmf as <-.
      assert ((1 - Qc_at l 0)%Qc ≠ 0%Qc) as Hne.
      { intros Hz. apply Hp0; [done|]. simpl.
        rewrite lookup_take_lt by lia. unfold Qc_at in Hz.
        destruct (l !! 0%nat) as [x|] eqn:E; [|apply lookup_ge_None in E; lia].
        simpl in Hz. f_equal. replace x with (1 - (1 - x))%Qc by ring.
        rewrite Hz. ring. }
      destruct (calc_m_Ok K (PmfList l) (Qc_at l) (Fin (1 / (1 - Qc_at l 0))))
        as (m & Hm & Hdens); [lia | | by apply recip_one_minus_lt |].
      { intros i Hi. apply pmf_get_list; [by right | lia]. }
      eexists _, _, m. rewrite <- calc_m_take by (done || lia).
      split; [done|]. split; [exact Hdens | done]. }
  destruct Hdens as (Hlen & Hdens).
  destruct (calc_M_Ok K m Hlen) as (M & HM & HlM & _).
  exists m, M. split; [done|]. split; [done|].
  destruct (if use_poisson then _ else _) as [pmf|]; try done.
  change (calc_m (Z.of_nat K) pmf = Ok m) in Hcode.
  rewrite (bind_Ok (Ok pmf) _ pmf eq_refl), Hcode.
  rewrite (bind_Ok (Ok m) _ m eq_refl), HM.
  rewrite (bind_Ok (Ok M) _ M eq_refl).
  rewrite py_range_seq, Nat2Z.id, Nat.sub_0_r.
  rewrite (cost_loop_Ok K m fixed_cost _ g Hlen).
  - rewrite (bind_Ok (Ok _) _ _ eq_refl), arr_get_at by lia. done.
  - intros d Hd. by apply Hg.
Qed.

(** *** Rejected and failing inputs *)

Lemma check_costs_cases (holding_cost stockout_cost fixed_cost : Qc) :
  ((0 < holding_cost)%Qc ∧ (0 < stockout_cost)%Qc ∧ (0 < fixed_cost)%Qc ∧
   check_costs holding_cost stockout_cost fixed_cost = Ok tt) ∨
  (¬ ((0 < holding_cost)%Qc ∧ (0 < stockout_cost)%Qc ∧ (0 < fixed_cost)%Qc) ∧
   ∃ msg, check_costs holding_cost stockout_cost fixed_cost = Raise (AssertionError msg)).
Proof.
  unfold check_costs.
  destruct (Qc_ltb 0 holding_cost) eqn:Hh; simpl.
  - destruct (Qc_ltb 0 stockout_cost) eqn:Hp; simpl.
    + destruct (Qc_ltb 0 fixed_cost) eqn:Hk; simpl.
      * left. by rewrite <- !Qc_ltb_lt.
      * right. split; [|by eexists]. intros (_ & _ & H%Qc_ltb_lt). congruence.
    + right. split; [|by eexists]. intros (_ & H%Qc_ltb_lt & _). congruence.
  - right. split; [|by eexists]. intros (H%Qc_ltb_lt & _). congruence.
Qed.

Lemma check_demand_cases (demand_mean : option Qc) (demand_hi : pyarg)
    (demand_pmf : option (list Qc)) :
  check_demand demand_mean demand_hi demand_pmf = Ok tt ∨
  ∃ e, check_demand demand_mean demand_hi demand_pmf = Raise e.
Proof.
  unfold check_demand, check_demand_mean, check_demand_hi, check_demand_pmf, py_assert.
  repeat (case_match; simpl; eauto).
Qed.

(** Without a positive horizon the density cannot be built: [np.zeros]
    refuses a negative size, and an array of size 0 has no entry [m[0]]. *)
Lemma calc_m_nonpos (K : Z) (pmf : pmf_val) :
  K ≤ 0 →
  ∃ e, calc_m K pmf = Raise e ∧
       (K < 0 → e = ValueError) ∧
       (K = 0 → e = IndexError ∨ e = ZeroDivisionError ∨ e = TypeError).
Proof.
  clear. intros HK. unfold calc_m, np_zeros. case_bool_decide as Hneg; simpl.
  - eexists; split; [done|]. split; [done | lia].
  - assert (K = 0) as -> by lia. simpl.
    destruct (pmf_get pmf 0) as [p0|e] eqn:Hget; simpl.
    + destruct (recip_one_minus pmf p0) as [v|e] eqn:Hv; simpl.
      * eexists; split; [done|]. split; [lia | by left].
      * eexists; split; [done|]. split; [lia|]. intros _.
        unfold recip_one_minus in Hv.
        destruct pmf; try done; case_match; naive_solver.
    + eexists; split; [done|]. split; [lia|]. intros _.
      unfold pmf_get in Hget. destruct pmf; try case_match; naive_solver.
Qed.

(** C4 (as amended). A non-positive [holding_cost], [stockout_cost] or
    [fixed_cost] is rejected by the parameter check, with an
    [AssertionError], whatever the other arguments and the collaborators
    are.  There is no check of [s < S]: with [s ≥ S] the call does not
    return a cost either, but when the parameter checks pass it fails
    later, in the array code: [ValueError] from [np.zeros] for [s > S]
    (or scipy's [TypeError] for a Poisson mean of [None]), and
    [IndexError], [ZeroDivisionError] or [TypeError] at [m[0] = ...] for
    [s = S]. *)
Theorem s_s_cost_discrete_invalid (s S : Z) (holding_cost stockout_cost fixed_cost : Qc)
    (use_poisson : bool) (demand_mean : option Qc) (demand_hi : pyarg)
    (demand_pmf : option (list Qc)) :
  let r := cost_discrete s S holding_cost stockout_cost fixed_cost use_poisson
             demand_mean demand_hi demand_pmf in
  (¬ ((0 < holding_cost)%Qc ∧ (0 < stockout_cost)%Qc ∧ (0 < fixed_cost)%Qc) →
     ∃ msg, r = Raise (AssertionError msg)) ∧
  (S ≤ s → raises r) ∧
  (S ≤ s →
   check_costs holding_cost stockout_cost fixed_cost = Ok tt →
   check_demand demand_mean demand_hi demand_pmf = Ok tt →
   ∃ e, r = Raise e ∧
     (S < s → e = ValueError ∨ e = TypeError) ∧
     (S = s → e = IndexError ∨ e = ZeroDivisionError ∨ e = TypeError)).
Proof.
  intros r.
  assert (S ≤ s →
    check_costs holding_cost stockout_cost fixed_cost = Ok tt →
    check_demand demand_mean demand_hi demand_pmf = Ok tt →
    ∃ e, r = Raise e ∧
      (S < s → e = ValueError ∨ e = TypeError) ∧
      (S = s → e = IndexError ∨ e = ZeroDivisionError ∨ e = TypeError)) as Hlate.
  { intros HsS Hc Hd. subst r. unfold s_s_cost_discrete. rewrite Hc, Hd. simpl.
    destruct use_poisson; [destruct demand_mean as [mu|]|]; simpl.
    - destruct (calc_m_nonpos (S - s) (PmfArray (poisson_pmf mu <$> py_range 0 (S - s))))
        as (e & -> & Hneg & Hz); [lia|].
      exists e. split; [done|]. split; intros ?; [left; apply Hneg; lia | apply Hz; lia].
    - exists TypeError. split; [done|]. split; intros _; [by right | by right; right].
    - destruct (calc_m_nonpos (S - s)
        (match demand_pmf with Some l => PmfList l | None => PmfNone end))
        as (e & -> & Hneg & Hz); [lia|].
      exists e. split; [done|]. split; intros ?; [left; apply Hneg; lia | apply Hz; lia]. }
  split_and!.
  - intros Hbad. subst r. unfold s_s_cost_discrete.
    destruct (check_costs_cases holding_cost stockout_cost fixed_cost)
      as [(? & ? & ? & _) | (_ & msg & ->)]; [by destruct Hbad|].
    by exists msg.
  - intros HsS.
    destruct (check_costs_cases holding_cost stockout_cost fixed_cost)
      as [(_ & _ & _ & Hc) | (_ & msg & Hc)].
    + destruct (check_demand_cases demand_mean demand_hi demand_pmf) as [Hd | (e & Hd)].
      * destruct (Hlate HsS Hc Hd) as (e & -> & _). by exists e.
      * subst r. unfold s_s_cost_discrete. rewrite Hc, Hd. by exists e.
    + subst r. unfold s_s_cost_discrete. rewrite Hc. by eexists.
  - done.
Qed.

Lemma Qc_at_1_lookup (l : list Qc) : Qc_at l 0 = 1%Qc → l !! 0%nat = Some 1%Qc.
Proof. unfold Qc_at. destruct (l !! 0%nat); simpl; [by intros ->|done]. Qed.

Lemma Qc_recip_one_minus_neg (p0 : Qc) : (1 < p0)%Qc → (1 / (1 - p0) < 0)%Qc.
Proof.
  intros Hlt. assert (0 < p0 - 1)%Qc as Hpos by (by apply Qclt_minus_iff in Hlt).
  assert ((p0 - 1)%Qc ≠ 0%Qc) as Hne by (intros Hz; rewrite Hz in Hpos; done).
  replace (1 / (1 - p0))%Qc with (- / (p0 - 1))%Qc.
  - apply Qclt_minus_iff. rewrite Qcplus_0_l, Qcopp_involutive.
    by apply Qcinv_pos.
  - field. split; [|exact Hne]. intros Hz. apply Hne.
    transitivity (- (1 - p0))%Qc; [ring|]. change (1 - p0 = 0)%Qc in Hz.
    rewrite Hz. ring.
Qed.

Lemma calc_m_mass_one (K : Z) (l : list Qc) :
  0 < K → Qc_at l 0 = 1%Qc → calc_m K (PmfList l) = Raise ZeroDivisionError.
Proof.
  intros HK H1%Qc_at_1_lookup. unfold calc_m, np_zeros.
  rewrite bool_decide_eq_false_2 by lia. simpl. by rewrite H1.
Qed.

(** C5 (as amended). A mass [pmf[0] ≥ 1] is not checked.  A supplied
    (Python list) pmf with [pmf[0] = 1] exactly makes the division
    [1.0 / (1 - pmf[0])] raise [ZeroDivisionError], in the array code and so
    in [s_s_cost_discrete] for every [s < S] that passes the parameter
    checks.  With [pmf[0] > 1] nothing fails: [m[0] = 1/(1 − pmf[0])] is a
    negative number and the density is built.  A NumPy pmf array (the
    Poisson variant) with [pmf[0] = 1] raises nothing either: [m[0]] is
    [inf] and the density is returned. *)
Theorem renewal_arrays_mass_at_zero (K : nat) (l : list Qc) :
  (1 ≤ K)%nat →
  (Qc_at l 0 = 1%Qc →
     calc_m (Z.of_nat K) (PmfList l) = Raise ZeroDivisionError ∧
     ∀ s S holding_cost stockout_cost fixed_cost demand_mean demand_hi,
       s < S →
       check_costs holding_cost stockout_cost fixed_cost = Ok tt →
       check_demand demand_mean demand_hi (Some l) = Ok tt →
       cost_discrete s S holding_cost stockout_cost fixed_cost false
         demand_mean demand_hi (Some l) = Raise ZeroDivisionError) ∧
  ((1 < Qc_at l 0)%Qc → (K ≤ length l)%nat →
     (1 / (1 - Qc_at l 0) < 0)%Qc ∧
     ∃ m, calc_m (Z.of_nat K) (PmfList l) = Ok m ∧ length m = K ∧
          m !! 0%nat = Some (Fin (1 / (1 - Qc_at l 0)))) ∧
  (Qc_at l 0 = 1%Qc → (K ≤ length l)%nat →
     ∃ m, calc_m (Z.of_nat K) (PmfArray l) = Ok m ∧ length m = K ∧
          m !! 0%nat = Some (Inf false)).
Proof.
  intros HK.
  split_and!.
  - intros H1. split; [apply calc_m_mass_one; [lia | done]|].
    intros s S h p k mean hi HsS Hc Hd. unfold s_s_cost_discrete.
    rewrite Hc, Hd. simpl. rewrite calc_m_mass_one by (lia || done). done.
  - intros Hgt Hlen. split; [by apply Qc_recip_one_minus_neg|].
    destruct (calc_m_Ok K (PmfList l) (Qc_at l) (Fin (1 / (1 - Qc_at l 0))))
      as (m & Hm & Hl & H0 & _); [done | | |by exists m].
    + intros i Hi. apply pmf_get_list; [by right | lia].
    + apply recip_one_minus_lt. intros Hz.
      apply (Qclt_not_eq _ _ Hgt). replace (Qc_at l 0) with (1 - (1 - Qc_at l 0))%Qc by ring.
      rewrite Hz. ring.
  - intros H1 Hlen.
    destruct (calc_m_Ok K (PmfArray l) (Qc_at l) (Inf false))
      as (m & Hm & Hl & H0 & _); [done | | |by exists m].
    + intros i Hi. apply pmf_get_list; [by left | lia].
    + simpl. by rewrite H1.
Qed.

(** *** The horizon and the supplied pmf *)

Lemma res_foldM_app {A B} (f : B → A → res B) (acc : B) (xs ys : list A) :
  res_foldM f acc (xs ++ ys) = res_foldM f acc xs ≫= λ b, res_foldM f b ys.
Proof.
  revert acc. induction xs as [|x xs IH]; intros acc; simpl; [done|].
  destruct (f acc x); simpl; [apply IH | done].
Qed.

Lemma res_mapM_snoc_Raise {A B} (f : A → res B) (g : A → B) (xs : list A)
    (y : A) (e : exn) :
  (∀ x, x ∈ xs → f x = Ok (g x)) → f y = Raise e →
  res_mapM f (xs ++ [y]) = Raise e.
Proof.
  intros Hxs Hy. induction xs as [|x xs IH]; simpl.
  - by rewrite Hy.
  - rewrite (Hxs x) by left. simpl. rewrite IH; [done|].
    intros z Hz. apply Hxs. by right.
Qed.

Lemma m_loop_prefix (K n : nat) (pmf : pmf_val) (p : nat → Qc) (m1 : list fl) :
  length m1 = K → (1 ≤ n ≤ K)%nat →
  (∀ i, (i < n)%nat → pmf_get pmf i = Ok (p i)) →
  ∃ m, res_foldM (m_step pmf) m1 (seq 1 (n - 1)) = Ok m ∧ length m = K.
Proof.
  intros Hlen Hn Hp.
  destruct (res_foldM_seq_inv (λ _ m, length m = K) (m_step pmf) (n - 1) 1%nat m1)
    as (m & Hm & Hl); [done | | by exists m].
  intros j m [Hj1 Hj2] Hl. unfold m_step.
  rewrite arr_get_at by lia. simpl.
  rewrite (m_terms_Ok pmf p) by (try lia; intros; apply Hp; lia). simpl.
  rewrite arr_set_lt by lia. eexists; split; [done|]. by rewrite length_insert.
Qed.

(** At [j = len(pmf)] the comprehension reads [pmf[j]]. *)
Lemma m_step_short (l : list Qc) (m : list fl) :
  (1 ≤ length l < length m)%nat →
  m_step (PmfList l) m (length l) = Raise IndexError.
Proof.
  intros Hlen. unfold m_step. rewrite arr_get_at by lia. simpl.
  unfold m_terms.
  replace (seq 1 (length l)) with (seq 1 (length l - 1) ++ [length l]).
  - erewrite (res_mapM_snoc_Raise _
      (λ i, fl_mul (Fin (Qc_at l i)) (fl_at m (length l - i)))); [done | |].
    + intros i Hi%elem_of_seq.
      rewrite (pmf_get_list (PmfList l) l) by (by right || lia). simpl.
      rewrite arr_get_at by lia. done.
    + simpl. by rewrite (proj2 (lookup_ge_None l (length l))) by lia.
  - replace (length l) with (S (length l - 1)) at 3 by lia.
    rewrite seq_S. do 2 f_equal. lia.
Qed.

(** A horizon beyond the supplied list runs into [pmf[len(pmf)]]. *)
Lemma calc_m_short (K : nat) (l : list Qc) :
  (length l < K)%nat → (1 - Qc_at l 0)%Qc ≠ 0%Qc →
  calc_m (Z.of_nat K) (PmfList l) = Raise IndexError.
Proof.
  intros HK Hne. unfold calc_m, np_zeros.
  rewrite bool_decide_eq_false_2 by lia. simpl.
  destruct (l !! 0%nat) as [p0|] eqn:E0; [|done]. simpl.
  assert (1 ≤ length l)%nat as Hlen by (apply lookup_lt_Some in E0; lia).
  assert (Qc_at l 0 = p0) as Hp0 by (unfold Qc_at; by rewrite E0).
  rewrite <- Hp0.
  change (if Qc_eqb (1 - Qc_at l 0) 0 then Raise ZeroDivisionError
          else Ok (Fin (1 / (1 - Qc_at l 0))))
    with (recip_one_minus (PmfList l) (Qc_at l 0)).
  rewrite recip_one_minus_lt by done. simpl.
  rewrite Nat2Z.id, arr_set_lt by (rewrite length_replicate; lia). simpl.
  rewrite py_range_seq, Nat2Z.id.
  replace (K - 1)%nat with ((length l - 1) + (K - length l))%nat by lia.
  rewrite seq_app, res_foldM_app.
  destruct (m_loop_prefix K (length l) (PmfList l) (Qc_at l)
    (<[0%nat:=Fin (1 / (1 - Qc_at l 0))]> (replicate K (Fin 0))))
    as (m & -> & Hm); [by rewrite length_insert, length_replicate | lia | |].
  { intros i Hi. apply pmf_get_list; [by right | done]. }
  destruct (K - length l)%nat as [|k] eqn:Ek; [lia|].
  replace (1 + (length l - 1))%nat with (length l) by lia. simpl.
  by rewrite m_step_short by lia.
Qed.

(** In any case the density reads only [pmf[0 .. K-1]]. *)
Lemma calc_m_take_any (K : nat) (l : list Qc) :
  (1 ≤ K ≤ length l)%nat →
  calc_m (Z.of_nat K) (PmfList l) = calc_m (Z.of_nat K) (PmfList (take K l)).
Proof.
  intros HK. destruct (decide ((1 - Qc_at l 0)%Qc = 0%Qc)) as [Hz|Hne].
  - unfold calc_m. destruct (np_zeros (Z.of_nat K)); simpl; try done.
    rewrite lookup_take_lt by lia.
    destruct (l !! 0%nat) as [p0|] eqn:E0; [|done]. simpl.
    unfold Qc_at in Hz. rewrite E0 in Hz. simpl in Hz.
    by rewrite (proj2 (Qc_eqb_eq _ _) Hz).
  - by apply calc_m_take.
Qed.


(** Within the supplied list the density has [K] entries and is the one the
    recurrences determine from [pmf[0 .. K-1]]. *)
Lemma calc_m_first_entries (K : nat) (l : list Qc) :
  (1 ≤ K ≤ length l)%nat → Qc_at l 0 ≠ 1%Qc →
  ∃ m, calc_m (Z.of_nat K) (PmfList l) = Ok m ∧
       is_renewal_density (Qc_at (take K l))
         (Fin (1 / (1 - Qc_at (take K l) 0))) K m.
Proof.
  intros HK Hne.
  assert (∀ i, (i < K)%nat → Qc_at (take K l) i = Qc_at l i) as Htake.
  { intros i Hi. unfold Qc_at. by rewrite lookup_take_lt. }
  apply (calc_m_Ok K (PmfList l)); [lia | |].
  - intros i Hi. rewrite Htake by done. apply pmf_get_list; [by right | lia].
  - rewrite Htake by lia. apply recip_one_minus_lt.
    intros Hz. apply Hne. replace (Qc_at l 0) with (1 - (1 - Qc_at l 0))%Qc by ring.
    rewrite Hz. ring.
Qed.

(** C6. In the explicit-pmf variant the pmf is the supplied list itself.
    For a horizon [K = S − s] within the list and [pmf[0] ≠ 1] the renewal
    density has [K] entries and is the one determined by the first [K]
    supplied entries alone ([m[0] = 1/(1 − pmf[0])],
    [m[j] = m[0] · Σ_{l=1..j} pmf[l] · m[j−l]] over [pmf[0 .. K−1]]), so
    that every list with the same first [K] entries gives the same density.
    Whenever [K] exceeds the length of the supplied list the call fails:
    with [IndexError] (list index out of range) when [pmf[0] ≠ 1], and with
    [ZeroDivisionError], raised by [m[0]] before any entry out of range is
    read, when [pmf[0] = 1]. *)
Theorem explicit_pmf_horizon (s S : Z) (holding_cost stockout_cost fixed_cost : Qc)
    (demand_mean : option Qc) (demand_hi : pyarg) (l : list Qc) :
  s < S →
  check_costs holding_cost stockout_cost fixed_cost = Ok tt →
  check_demand demand_mean demand_hi (Some l) = Ok tt →
  let K := Z.to_nat (S - s) in
  let r := cost_discrete s S holding_cost stockout_cost fixed_cost false
             demand_mean demand_hi (Some l) in
  ((K ≤ length l)%nat → Qc_at l 0 ≠ 1%Qc →
     ∃ m, calc_m (S - s) (PmfList l) = Ok m ∧
          is_renewal_density (Qc_at (take K l))
            (Fin (1 / (1 - Qc_at (take K l) 0))) K m ∧
          ∀ l', take K l' = take K l → (K ≤ length l')%nat →
                calc_m (S - s) (PmfList l') = Ok m) ∧
  ((length l < K)%nat →
     (Qc_at l 0 ≠ 1%Qc → r = Raise IndexError) ∧
     (Qc_at l 0 = 1%Qc → r = Raise ZeroDivisionError)).
Proof.
  intros HsS Hc Hd K r.
  assert (S - s = Z.of_nat K) as HK by lia.
  split.
  - intros Hlen Hne. rewrite HK.
    destruct (calc_m_first_entries K l) as (m & Hm & Hdens); [lia | done |].
    exists m. split; [done|]. split; [done|].
    intros l' Htake Hlen'.
    destruct (calc_m_first_entries K l') as (m' & Hm' & Hdens'); [lia | |].
    { unfold Qc_at. rewrite <- (lookup_take_lt l' K 0), Htake by lia.
      by rewrite lookup_take_lt by lia. }
    rewrite Htake in Hdens'. rewrite Hm'. f_equal.
    by eapply renewal_density_unique.
  - intros Hlen. subst r. unfold s_s_cost_discrete. rewrite Hc, Hd, HK. simpl.
    split.
    + intros Hne. rewrite calc_m_short; [done | lia |].
      intros Hz. apply Hne. replace (Qc_at l 0) with (1 - (1 - Qc_at l 0))%Qc by ring.
      rewrite Hz. ring.
    + intros H1. by rewrite calc_m_mass_one by (lia || done).
Qed.

(** *** The dictionary handed to the discrete newsvendor cost *)

Lemma res_foldM_ext {A B} (f f' : B → A → res B) (acc : B) (xs : list A) :
  (∀ b x, x ∈ xs → f b x = f' b x) → res_foldM f acc xs = res_foldM f' acc xs.
Proof.
  revert acc. induction xs as [|x xs IH]; intros acc H; simpl; [done|].
  rewrite H by left. destruct (f' acc x); simpl; try done.
  apply IH. intros b y Hy. apply H. by right.
Qed.

Lemma bind_ext_res {A B} (r : res A) (k k' : A → res B) :
  (∀ a, k a = k' a) → (r ≫= k) = (r ≫= k').
Proof. intros H. destruct r; simpl; [apply H | done]. Qed.

(** [{n: demand_pmf[n] for n in range(k)}] has the keys [0 .. k-1]. *)
Lemma pmf_dict_Ok (l : list Qc) (k : Z) :
  k ≤ Z.of_nat (length l) →
  ∃ d : gmap Z Qc, pmf_dict (Some l) k = Ok d ∧
    ∀ z, d !! z = if bool_decide (0 ≤ z < k) then l !! Z.to_nat z else None.
Proof.
  intros Hk. unfold pmf_dict. rewrite py_range_seq, Nat.sub_0_r.
  destruct (res_foldM_seq_inv
    (λ n (d : gmap Z Qc), ∀ z,
       d !! z = if bool_decide (0 ≤ z < Z.of_nat n) then l !! Z.to_nat z else None)
    (λ (d : gmap Z Qc) n,
       match l !! n with
       | Some x => Ok (<[Z.of_nat n := x]> d)
       | None => Raise IndexError
       end)
    (Z.to_nat k) 0%nat ∅) as (d & Hd & Hlook).
  - intros z. rewrite lookup_empty. by rewrite bool_decide_eq_false_2 by lia.
  - intros n d [_ Hn] Hlook.
    destruct (lookup_lt_is_Some_2 l n ltac:(lia)) as [x Hx]. rewrite Hx.
    eexists; split; [done|]. intros z.
    destruct (decide (z = Z.of_nat n)) as [->|Hne].
    + rewrite lookup_insert_eq, bool_decide_eq_true_2 by lia. by rewrite Nat2Z.id.
    + rewrite lookup_insert_ne, Hlook by done.
      repeat case_bool_decide; (done || lia).
  - exists d. split; [done|]. intros z. rewrite Hlook.
    repeat case_bool_decide; (done || lia).
Qed.

(** C9. In the explicit-pmf variant every call of the single-period cost
    made by [s_s_cost_discrete], whatever the offset [d], passes the one
    dictionary [{n: demand_pmf[n] for n in range(demand_hi)}]: its keys
    are [0 .. demand_hi−1], it has no entry for [demand_hi], and the result
    of [s_s_cost_discrete] depends on the collaborator only through its
    values at that dictionary, so the supplied mass at [demand_hi] is never
    forwarded. *)
Theorem explicit_cost_drops_last_mass (s S : Z)
    (holding_cost stockout_cost fixed_cost : Qc) (demand_mean : option Qc)
    (hi : Z) (l : list Qc) :
  0 ≤ hi → Z.of_nat (length l) = hi + 1 →
  ∃ d : gmap Z Qc,
    truncated_pmf_dict (PyInt hi) (Some l) 0 = Ok d ∧
    (∀ z, d !! z = if bool_decide (0 ≤ z < hi) then l !! Z.to_nat z else None) ∧
    d !! hi = None ∧
    is_Some (l !! Z.to_nat hi) ∧
    (∀ y, newsvendor_cost y holding_cost stockout_cost false demand_mean
            (PyInt hi) (Some l)
          = snd <$> newsvendor_discrete holding_cost stockout_cost (Some d) (Some y)) ∧
    (∀ nd' : Qc → Qc → option (gmap Z Qc) → option Z → res (Z * fl),
       (∀ y, nd' holding_cost stockout_cost (Some d) (Some y)
             = newsvendor_discrete holding_cost stockout_cost (Some d) (Some y)) →
       s_s_cost_discrete poisson_pmf newsvendor_poisson_cost nd' s S holding_cost
         stockout_cost fixed_cost false demand_mean (PyInt hi) (Some l)
       = cost_discrete s S holding_cost stockout_cost fixed_cost false
           demand_mean (PyInt hi) (Some l)).
Proof.
  intros Hhi Hlen.
  destruct (pmf_dict_Ok l (hi + 0)) as (d & Hd & Hlook); [lia|].
  exists d. split; [done|]. split_and!.
  - intros z. rewrite Hlook. repeat case_bool_decide; (done || lia).
  - rewrite Hlook. by rewrite bool_decide_eq_false_2 by lia.
  - apply lookup_lt_is_Some_2. lia.
  - intros y. unfold loop_cost, truncated_pmf_dict. by rewrite Hd.
  - intros nd' Hagree. unfold s_s_cost_discrete.
    destruct (check_costs _ _ _); simpl; try done.
    destruct (check_demand _ _ _); simpl; try done.
    destruct (calc_m _ _) as [m|]; simpl; try done.
    destruct (calc_M _ _) as [M|]; simpl; try done.
    f_equal. apply res_foldM_ext.
    intros c n _. apply bind_ext_res. intros md.
    unfold loop_cost, truncated_pmf_dict. rewrite Hd. simpl. by rewrite Hagree.
Qed.

(** ** The search *)

Lemma run_bind_Ok_inv {A B} (r : run A) (k : A → run B) (b : B) :
  (r ≫= k) = Done (Ok b) → ∃ a, r = Done (Ok a) ∧ k a = Done (Ok b).
Proof. destruct r as [[a|e]|]; [by exists a | done | done]. Qed.

Lemma check_demand_Ok_mean (demand_mean : option Qc) (demand_hi : pyarg)
    (demand_pmf : option (list Qc)) :
  check_demand demand_mean demand_hi demand_pmf = Ok tt →
  check_demand_mean demand_mean = Ok tt.
Proof.
  unfold check_demand. destruct (check_demand_mean demand_mean) as [[]|]; done.
Qed.

(** In the Poisson variant [demand_hi] and [demand_pmf] are only checked. *)
Lemma cost_discrete_poisson_args (s S : Z) (holding_cost stockout_cost fixed_cost : Qc)
    (demand_mean : option Qc) (demand_hi : pyarg) (demand_pmf : option (list Qc)) :
  check_demand demand_mean demand_hi demand_pmf = Ok tt →
  cost_discrete s S holding_cost stockout_cost fixed_cost true demand_mean
    PyNone None
  = cost_discrete s S holding_cost stockout_cost fixed_cost true demand_mean
      demand_hi demand_pmf.
Proof.
  intros Hd. unfold s_s_cost_discrete. rewrite Hd.
  unfold check_demand at 1. simpl.
  by rewrite (check_demand_Ok_mean _ _ _ Hd).
Qed.

Section SearchProperties.

Variables (holding_cost stockout_cost fixed_cost : Qc) (use_poisson : bool)
  (demand_mean : option Qc) (demand_hi : pyarg) (demand_pmf : option (list Qc)).
Variable demand_pmf_dict : option (gmap Z Qc).

Local Abbreviation pcost :=
  (policy_cost poisson_pmf newsvendor_poisson_cost newsvendor_discrete
     holding_cost stockout_cost fixed_cost use_poisson demand_mean demand_hi
     demand_pmf).
Local Abbreviation scost :=
  (search_cost newsvendor_poisson_cost newsvendor_discrete holding_cost
     stockout_cost use_poisson demand_mean demand_pmf_dict).
Local Abbreviation find_s0' :=
  (find_s0 poisson_pmf newsvendor_poisson_cost newsvendor_discrete
     holding_cost stockout_cost fixed_cost use_poisson demand_mean demand_hi
     demand_pmf demand_pmf_dict).
Local Abbreviation raise_s' :=
  (raise_s poisson_pmf newsvendor_poisson_cost newsvendor_discrete
     holding_cost stockout_cost fixed_cost use_poisson demand_mean demand_hi
     demand_pmf demand_pmf_dict).
Local Abbreviation improve' :=
  (improve poisson_pmf newsvendor_poisson_cost newsvendor_discrete
     holding_cost stockout_cost fixed_cost use_poisson demand_mean demand_hi
     demand_pmf demand_pmf_dict).
Local Abbreviation expand_S' :=
  (expand_S poisson_pmf newsvendor_poisson_cost newsvendor_discrete
     holding_cost stockout_cost fixed_cost use_poisson demand_mean demand_hi
     demand_pmf demand_pmf_dict).

(** The loop keeps the incumbent cost equal to the cost of the incumbent
    pair. *)
Lemma improve_incumbent (inner : nat) (st st' : search_state) :
  pcost (st_s_hat st) (st_S_hat st) = Ok (st_g_hat st) →
  improve' inner st = Done (Ok st') →
  pcost (st_s_hat st') (st_S_hat st') = Ok (st_g_hat st') ∧ st_S st' = st_S st.
Proof.
  intros Hinv. unfold improve.
  intros (c & Hc & H)%run_bind_Ok_inv.
  destruct (fl_ltb c (st_g_hat st)).
  - apply run_bind_Ok_inv in H as (gs & _ & H).
    apply run_bind_Ok_inv in H as (s & _ & H).
    apply run_bind_Ok_inv in H as (g_hat & Hg & H).
    injection H as <-. injection Hg as Hg. by split.
  - injection H as <-. by split.
Qed.

Lemma expand_S_incumbent (inner fuel : nat) (st : search_state) (s S : Z) (g : fl) :
  pcost (st_s_hat st) (st_S_hat st) = Ok (st_g_hat st) →
  expand_S' inner fuel st = Done (Ok (s, S, g)) →
  pcost s S = Ok g.
Proof.
  revert st. induction fuel as [|fuel IH]; intros st Hinv; simpl; [done|].
  destruct (fl_leb (st_gS st) (st_g_hat st)).
  - intros (st' & Himp & H)%run_bind_Ok_inv.
    destruct (scost (st_S st' + 1)) as [gS|]; [|done].
    apply (improve_incumbent _ _ _ Hinv) in Himp as [Hinv' _].
    by apply IH in H.
  - by intros [= <- <- <-].
Qed.

End SearchProperties.

(** C8. Whenever [s_s_discrete_exact] returns a triple [(s, S, g)],
    [s_s_cost_discrete] called with that [s], that [S] and the same cost
    parameters and demand model returns exactly [g]. *)
Theorem search_cost_consistency (fuel : nat) (holding_cost stockout_cost fixed_cost : Qc)
    (use_poisson : bool) (demand_mean : option Qc) (demand_hi : pyarg)
    (demand_pmf : option (list Qc)) (s S : Z) (g : fl) :
  discrete_exact fuel holding_cost stockout_cost fixed_cost use_poisson
    demand_mean demand_hi demand_pmf = Done (Ok (s, S, g)) →
  cost_discrete s S holding_cost stockout_cost fixed_cost use_poisson
    demand_mean demand_hi demand_pmf = Ok g.
Proof.
  unfold s_s_discrete_exact.
  intros ([] & Hc & H)%run_bind_Ok_inv.
  apply run_bind_Ok_inv in H as ([] & Hd & H).
  apply run_bind_Ok_inv in H as ([dict y_star] & Hinit & H).
  apply run_bind_Ok_inv in H as (s0 & _ & H).
  apply run_bind_Ok_inv in H as (g_hat & Hg & H).
  apply run_bind_Ok_inv in H as (gS & _ & H).
  injection Hd as Hd. injection Hg as Hg. injection Hinit as Hinit.
  simpl in *.
  eapply expand_S_incumbent; [|exact H].
  unfold policy_cost. simpl. rewrite <- Hg.
  destruct use_poisson.
  - apply bind_Ok_inv in Hinit as (r & _ & [= <- _]).
    symmetry. by apply cost_discrete_poisson_args.
  - apply bind_Ok_inv in Hinit as (d & _ & Hinit).
    apply bind_Ok_inv in Hinit as (r & _ & [= <- _]).
    unfold s_s_cost_discrete in Hg.
    destruct (check_costs _ _ _) as [[]|]; [|done]. simpl in Hg.
    unfold check_demand in Hg.
    destruct (check_demand_mean demand_mean) as [[]|]; done.
Qed.

(** *** The search on an explicit pmf *)

(** The call that initialises the incumbent puts a dictionary where
    [demand_hi] is expected: the check [demand_hi >= 0] raises. *)
Lemma cost_discrete_dict_arg (s S : Z) (holding_cost stockout_cost fixed_cost : Qc)
    (use_poisson : bool) (demand_mean : option Qc) (d : gmap Z Qc)
    (demand_pmf : option (list Qc)) :
  ∃ e, cost_discrete s S holding_cost stockout_cost fixed_cost use_poisson
         demand_mean (PyDict d) demand_pmf = Raise e ∧
       (check_costs holding_cost stockout_cost fixed_cost = Ok tt →
        check_demand_mean demand_mean = Ok tt → e = TypeError).
Proof.
  unfold s_s_cost_discrete.
  destruct (check_costs _ _ _) as [[]|e]; simpl; [|by exists e].
  unfold check_demand.
  destruct (check_demand_mean _) as [[]|e]; simpl; [|by exists e].
  by exists TypeError.
Qed.




(** *** The loops have no bound *)

Lemma Qc_sum_nonneg (xs : list Qc) :
  (∀ x, x ∈ xs → (0 ≤ x)%Qc) → (0 ≤ Qc_sum xs)%Qc.
Proof.
  induction xs as [|x xs IH]; intros H; simpl; [done|].
  apply Qcplus_nonneg_nonneg; [apply H; by left|].
  apply IH. intros y Hy. apply H. by right.
Qed.

Lemma Qc_sum_zero {A} (f : A → Qc) (xs : list A) :
  (∀ x, x ∈ xs → f x = 0%Qc) → Qc_sum (f <$> xs) = 0%Qc.
Proof.
  induction xs as [|x xs IH]; intros H; [done|].
  rewrite fmap_cons. change (f x + Qc_sum (f <$> xs) = 0)%Qc.
  rewrite H by left. rewrite IH; [ring|]. intros y Hy. apply H. by right.
Qed.

Lemma Qc_at_nonneg_lookup (a : list Qc) :
  (∀ i x, a !! i = Some x → (0 ≤ x)%Qc) → ∀ i, (0 ≤ Qc_at a i)%Qc.
Proof. intros H i. unfold Qc_at. destruct (a !! i) eqn:E; [by eapply H | done]. Qed.

(** With non-negative masses and [pmf[0] < 1] the density is non-negative
    and the renewal function is positive from index 1 on. *)
Lemma renewal_arrays_positive (K : nat) (pmf mq Mq : list Qc) :
  (∀ i, (0 ≤ Qc_at pmf i)%Qc) → (Qc_at pmf 0 < 1)%Qc →
  length mq = K → length Mq = S K →
  mq !! 0%nat = Some (1 / (1 - Qc_at pmf 0))%Qc →
  (∀ j, (1 ≤ j ≤ K - 1)%nat →
     mq !! j = Some (Qc_at mq 0 *
       Qc_sum ((λ l, Qc_at pmf l * Qc_at mq (j - l)) <$> seq 1 j))%Qc) →
  Mq !! 0%nat = Some 0%Qc →
  (∀ j, (1 ≤ j ≤ K)%nat → (Qc_at Mq j - Qc_at Mq (j - 1) = Qc_at mq (j - 1))%Qc) →
  (∀ j, (0 ≤ Qc_at mq j)%Qc) ∧ (∀ j, (1 ≤ j ≤ K)%nat → (0 < Qc_at Mq j)%Qc).
Proof.
  intros Hpmf Hp0 Hlm HlM Hm0 Hmrec HM0 HMrec.
  assert (0 < Qc_at mq 0)%Qc as Hpos0.
  { unfold Qc_at at 1. rewrite Hm0. simpl.
    unfold Qcdiv. rewrite Qcmult_1_l. apply Qcinv_pos.
    by apply Qclt_minus_iff in Hp0. }
  assert (∀ j, (0 ≤ Qc_at mq j)%Qc) as Hnonneg.
  { intros j. induction j as [j IH] using lt_wf_ind.
    destruct (decide (j = 0%nat)) as [->|Hne]; [by apply Qclt_le_weak|].
    destruct (decide (j < K)%nat) as [Hj|Hj].
    - unfold Qc_at at 1. rewrite Hmrec by lia. simpl.
      apply Qcmult_nonneg_nonneg; [by apply Qclt_le_weak|].
      apply Qc_sum_nonneg. intros x (l & -> & Hl%elem_of_seq)%list_elem_of_fmap.
      apply Qcmult_nonneg_nonneg; [done|]. apply IH. lia.
    - unfold Qc_at. by rewrite (proj2 (lookup_ge_None mq j)) by lia. }
  split; [done|].
  intros j [Hj1 Hj2]. induction j as [|j IH]; [lia|].
  assert (Qc_at Mq (S j) = Qc_at Mq j + Qc_at mq j)%Qc as ->.
  { specialize (HMrec (S j) ltac:(lia)). simpl in HMrec.
    rewrite Nat.sub_0_r in HMrec. rewrite <- HMrec. ring. }
  destruct (decide (j = 0%nat)) as [->|Hne].
  - unfold Qc_at at 1. rewrite HM0. simpl. by rewrite Qcplus_0_l.
  - apply Qcplus_pos_nonneg; [apply IH; lia | done].
Qed.

(** A Poisson-variant call whose single-period costs are all [0] returns
    [fixed_cost / M[K]], a positive number. *)
Lemma cost_discrete_zero_costs (s S : Z) (holding_cost stockout_cost fixed_cost mu : Qc)
    (demand_hi : pyarg) (demand_pmf : option (list Qc)) :
  s < S →
  (0 < holding_cost)%Qc → (0 < stockout_cost)%Qc → (0 < fixed_cost)%Qc →
  check_demand (Some mu) demand_hi demand_pmf = Ok tt →
  (∀ k, (0 ≤ poisson_pmf mu k)%Qc) → (poisson_pmf mu 0 < 1)%Qc →
  (∀ y, y ≤ S →
     newsvendor_poisson_cost y holding_cost stockout_cost (Some mu) = Ok (Fin 0)) →
  ∃ c, cost_discrete s S holding_cost stockout_cost fixed_cost true (Some mu)
         demand_hi demand_pmf = Ok (Fin c) ∧ (0 < c)%Qc.
Proof.
  intros HsS Hh Hp Hk Hd Hnn Hp0 Hg.
  set (K := Z.to_nat (S - s)).
  set (pmf := poisson_pmf mu <$> seq 0 K).
  assert (1 ≤ K)%nat as HK by lia.
  assert (length pmf = K) as Hlen by (subst pmf; by rewrite length_fmap, length_seq).
  assert (∀ i, (i < K)%nat → Qc_at pmf i = poisson_pmf mu i) as Hat.
  { intros i Hi. unfold Qc_at. subst pmf.
    by rewrite list_lookup_fmap, lookup_seq_lt by lia. }
  destruct (cost_discrete_spec s S holding_cost stockout_cost fixed_cost true
    (Some mu) demand_hi demand_pmf (PmfArray pmf) (λ _, Fin 0))
    as (m & M & Hm & HM & ->); try done.
  { intros d Hd'. simpl. apply Hg. lia. }
  destruct (renewal_arrays_finite K pmf (PmfArray pmf))
    as (mq & Mq & Hm' & HM' & Hlm & HlM & Hm0 & Hmrec & HM0 & HMrec & _);
    [done | done | by rewrite Hat by lia | by left |].
  assert (S - s = Z.of_nat K) as HKz by lia. rewrite HKz in Hm, HM.
  rewrite Hm' in Hm. injection Hm as <-. rewrite HM' in HM. injection HM as <-.
  destruct (renewal_arrays_positive K pmf mq Mq) as [_ HMpos]; try done.
  { intros i. destruct (decide (i < K)%nat) as [Hi|Hi]; [by rewrite Hat|].
    unfold Qc_at. by rewrite (proj2 (lookup_ge_None pmf i)) by lia. }
  { by rewrite Hat by lia. }
  specialize (HMpos K ltac:(lia)).
  unfold spec_policy_cost. fold K.
  replace ((λ d, fl_mul (fl_at (Fin <$> mq) d) (Fin 0)) <$> seq 0 K)
    with (Fin <$> ((λ d, Qc_at mq d * 0)%Qc <$> seq 0 K)).
  2:{ rewrite <- list_fmap_compose. apply list_fmap_ext.
      intros i d Hd'. apply lookup_seq in Hd' as [-> Hi]. simpl.
      by rewrite fl_at_Fin by lia. }
  rewrite np_sum_Fin, fl_at_Fin by lia.
  rewrite Qc_sum_zero by (intros; ring). simpl.
  rewrite (proj2 (Qc_eqb_neq _ _)).
  2:{ intros Hz. rewrite Hz in HMpos. done. }
  eexists; split; [done|]. rewrite Qcplus_0_r.
  apply Qcmult_pos_pos; [done | by apply Qcinv_pos].
Qed.

Lemma find_s0_never_stops (holding_cost stockout_cost fixed_cost : Qc)
    (use_poisson : bool) (demand_mean : option Qc) (demand_hi : pyarg)
    (demand_pmf : option (list Qc)) (dict : option (gmap Z Qc)) (S0 : Z) :
  (∀ s, s < S0 → ∃ gs c,
      search_cost newsvendor_poisson_cost newsvendor_discrete holding_cost
        stockout_cost use_poisson demand_mean dict s = Ok gs ∧
      cost_discrete s S0 holding_cost stockout_cost fixed_cost use_poisson
        demand_mean demand_hi demand_pmf = Ok c ∧
      fl_leb c gs = false) →
  ∀ (fuel : nat) (s : Z), s ≤ S0 →
    find_s0 poisson_pmf newsvendor_poisson_cost newsvendor_discrete holding_cost
      stockout_cost fixed_cost use_poisson demand_mean demand_hi demand_pmf dict
      fuel S0 s = OutOfFuel.
Proof.
  intros Htest. induction fuel as [|fuel IH]; intros s Hs; [done|].
  cbn [find_s0]. destruct (Htest (s - 1)) as (gs & c & -> & Hc & Hle); [lia|].
  unfold policy_cost. rewrite Hc. simpl. rewrite Hle. apply IH. lia.
Qed.

(** C7 (as amended). [s_s_discrete_exact] has no bound on its search
    iterations and no error for exceeding one: whenever the bracket test
    [policy_cost(s, S0) ≤ g(s)] is false at every [s] below [S0 = y*] (as a
    demand model that breaks the assumed structure can make it), the
    [while not done] loop is still running after any number of
    iterations: nothing is returned and nothing is raised. *)
Theorem search_has_no_iteration_bound (holding_cost stockout_cost fixed_cost : Qc)
    (demand_mean : option Qc) (demand_hi : pyarg) (demand_pmf : option (list Qc))
    (y_star : Z) (c0 : fl) :
  check_costs holding_cost stockout_cost fixed_cost = Ok tt →
  check_demand demand_mean demand_hi demand_pmf = Ok tt →
  newsvendor_poisson holding_cost stockout_cost demand_mean = Ok (y_star, c0) →
  (∀ s, s < y_star → ∃ gs c,
      newsvendor_poisson_cost s holding_cost stockout_cost demand_mean = Ok gs ∧
      cost_discrete s y_star holding_cost stockout_cost fixed_cost true
        demand_mean demand_hi demand_pmf = Ok c ∧
      fl_leb c gs = false) →
  ∀ fuel, discrete_exact fuel holding_cost stockout_cost fixed_cost true
            demand_mean demand_hi demand_pmf = OutOfFuel.
Proof.
  intros Hc Hd Hnv Htest fuel. unfold s_s_discrete_exact.
  rewrite Hc, Hd, Hnv. simpl.
  rewrite find_s0_never_stops; [done | | lia].
  intros s Hs. destruct (Htest s Hs) as (gs & c & Hgs & Hcost & Hle).
  by exists gs, c.
Qed.

End Properties.

(** * Evaluation on concrete demand models *)

(** Equalities between computed outcomes are decided by evaluation. *)
Ltac by_evaluation := apply (bool_decide_unpack _); vm_compute; exact I.

(** Witness of C3: the arrays of the pmf [1/4, 1/2, 1/4] over [K = 3]. *)
Lemma renewal_arrays_recurrence_witness :
  ∃ mq Mq : list Qc,
    calc_m 3 (PmfList tri_pmf) = Ok (Fin <$> mq) ∧
    calc_M 3 (Fin <$> mq) = Ok (Fin <$> Mq) ∧
    length mq = 3%nat ∧ length Mq = 4%nat ∧
    mq !! 0%nat = Some (1 / (1 - Qc_at tri_pmf 0))%Qc ∧
    (∀ j, (1 ≤ j ≤ 3 - 1)%nat →
       mq !! j = Some (Qc_at mq 0 *
         Qc_sum ((λ l, Qc_at tri_pmf l * Qc_at mq (j - l)) <$> seq 1 j))%Qc) ∧
    Mq !! 0%nat = Some 0%Qc ∧
    (∀ j, (1 ≤ j ≤ 3)%nat →
       (Qc_at Mq j - Qc_at Mq (j - 1) = Qc_at mq (j - 1))%Qc) ∧
    (3%nat = 1%nat → mq = [Qc_at mq 0] ∧ Mq = [0%Qc; Qc_at mq 0]).
Proof.
  apply (renewal_arrays_recurrence 3 tri_pmf (PmfList tri_pmf));
    [lia | reflexivity | reflexivity | by right].
Defined.

Local Abbreviation tri_cost_discrete :=
  (s_s_cost_discrete tri_mass tri_newsvendor_poisson_cost dict_newsvendor_discrete).
Local Abbreviation tri_discrete_exact :=
  (s_s_discrete_exact tri_mass tri_newsvendor_poisson tri_newsvendor_poisson_cost
     dict_newsvendor_discrete).
Local Abbreviation bumpy_discrete_exact :=
  (s_s_discrete_exact tri_mass bumpy_newsvendor_poisson
     bumpy_newsvendor_poisson_cost dict_newsvendor_discrete).

(** C1. The claim: for [s < S] and positive costs [s_s_cost_discrete]
    returns [(fixed_cost + Σ_{d<K} m[d] · single_period_cost(S − d)) / M[K]],
    with [m], [M] built from the first [K] pmf values of the demand model.
    On the supplied pmf [1/4, 1/2, 1/4] ([demand_hi = 2]) with [h = 1],
    [p = 4], fixed cost 5 and the policy [(0, 2)], the arrays are
    [m = [4/3, 8/9]] and [M = [0, 4/3, 20/9]], the single-period cost of the
    supplied demand, which the collaborator returns on the dictionary of all
    three masses (the one line 226 builds), is [g(2) = 1] and [g(1) = 5/4],
    and the formula gives 67/20.  The explicit variant returns 59/20: line
    143 hands the collaborator the dictionary over [range(demand_hi)], which
    lacks the mass at [demand_hi], so the cost entering the sum at [S − 1]
    is 1/4.  The Poisson variant on the same masses returns the 67/20 of
    the formula. *)
Theorem explicit_cost_off_by_one :
  let h := 1%Qc in
  let p := Qc_frac 4 1 in
  let fixed_cost := Qc_frac 5 1 in
  let m := [Fin (Qc_frac 4 3); Fin (Qc_frac 8 9)] in
  let M := [Fin 0; Fin (Qc_frac 4 3); Fin (Qc_frac 20 9)] in
  let g (y : Z) : res fl :=
    d ← truncated_pmf_dict (PyInt 2) (Some tri_pmf) 1;
    snd <$> dict_newsvendor_discrete h p (Some d) (Some y) in
  let g_code (y : Z) : res fl :=
    loop_cost tri_newsvendor_poisson_cost dict_newsvendor_discrete y h p false
      None (PyInt 2) (Some tri_pmf) in
  calc_m (2 - 0) (PmfList tri_pmf) = Ok m ∧
  calc_M (2 - 0) m = Ok M ∧
  g 2 = Ok (Fin 1) ∧ g 1 = Ok (Fin (Qc_frac 5 4)) ∧
  spec_policy_cost fixed_cost 2 m M
    (λ d, match d with O => Fin 1 | _ => Fin (Qc_frac 5 4) end)
  = Fin (Qc_frac 67 20) ∧
  g_code 2 = Ok (Fin 1) ∧ g_code 1 = Ok (Fin (Qc_frac 1 4)) ∧
  tri_cost_discrete 0 2 h p fixed_cost false None (PyInt 2) (Some tri_pmf)
  = Ok (Fin (Qc_frac 59 20)) ∧
  tri_cost_discrete 0 2 h p fixed_cost true (Some 1%Qc) PyNone None
  = Ok (Fin (Qc_frac 67 20)).
Proof. cbv zeta. split_and!; by_evaluation. Qed.

Example s_s_cost_discrete_example :
  tri_cost_discrete 0 2 1%Qc (Qc_frac 4 1) (Qc_frac 5 1) true (Some 1%Qc) PyNone None
  = Ok (Fin (Qc_frac 67 20)).
Proof. by_evaluation. Qed.

(** Counterexample to C4: with [s = S] and valid parameters the failure is
    an [IndexError] of the array code, reached after the pmf was computed,
    and with [s > S] a [ValueError]; neither is an assertion of the
    parameter check. *)
Lemma s_s_cost_discrete_no_order_check :
  tri_cost_discrete 0 0 1%Qc (Qc_frac 4 1) (Qc_frac 5 1) true (Some 1%Qc) PyNone None
    = Raise IndexError ∧
  tri_cost_discrete 3 1 1%Qc (Qc_frac 4 1) (Qc_frac 5 1) true (Some 1%Qc) PyNone None
    = Raise ValueError ∧
  check_costs 1%Qc (Qc_frac 4 1) (Qc_frac 5 1) = Ok tt ∧
  check_demand (Some 1%Qc) PyNone None = Ok tt.
Proof. split_and!; by_evaluation. Qed.

(** Witness of C4. *)
Lemma s_s_cost_discrete_invalid_witness :
  let r := tri_cost_discrete 2 1 0%Qc (Qc_frac 4 1) (Qc_frac 5 1) true (Some 1%Qc)
             PyNone None in
  (¬ ((0 < 0)%Qc ∧ (0 < Qc_frac 4 1)%Qc ∧ (0 < Qc_frac 5 1)%Qc) →
     ∃ msg, r = Raise (AssertionError msg)) ∧
  (1 ≤ 2 → raises r) ∧
  (1 ≤ 2 →
   check_costs 0%Qc (Qc_frac 4 1) (Qc_frac 5 1) = Ok tt →
   check_demand (Some 1%Qc) PyNone None = Ok tt →
   ∃ e, r = Raise e ∧
     (1 < 2 → e = ValueError ∨ e = TypeError) ∧
     (1 = 2 → e = IndexError ∨ e = ZeroDivisionError ∨ e = TypeError)).
Proof.
  exact (s_s_cost_discrete_invalid tri_mass tri_newsvendor_poisson_cost
           dict_newsvendor_discrete 2 1 0%Qc (Qc_frac 4 1) (Qc_frac 5 1) true
           (Some 1%Qc) PyNone None).
Defined.

(** Counterexample to C5: the supplied pmf [[2]] has [pmf[0] ≥ 1], yet the
    density is built ([m[0] = -1]) and [s_s_cost_discrete] returns a finite
    number; no error is raised. *)
Lemma mass_above_one_not_rejected :
  calc_m 1 (PmfList [Qc_frac 2 1]) = Ok [Fin (Qc_frac (-1) 1)] ∧
  tri_cost_discrete 0 1 1%Qc (Qc_frac 4 1) (Qc_frac 5 1) false None (PyInt 0)
    (Some [Qc_frac 2 1]) = Ok (Fin (Qc_frac (-5) 1)).
Proof. split; by_evaluation. Qed.

(** Witness of C5, on the pmf [[1; 0]] (all the mass at 0). *)
Lemma renewal_arrays_mass_at_zero_witness :
  calc_m 2 (PmfList [1%Qc; 0%Qc]) = Raise ZeroDivisionError ∧
  ∃ m, calc_m 2 (PmfArray [1%Qc; 0%Qc]) = Ok m ∧ length m = 2%nat ∧
       m !! 0%nat = Some (Inf false).
Proof.
  destruct (renewal_arrays_mass_at_zero tri_mass tri_newsvendor_poisson_cost
              dict_newsvendor_discrete 2 [1%Qc; 0%Qc] ltac:(lia))
    as (Hlist & _ & Harray).
  split.
  - exact (proj1 (Hlist eq_refl)).
  - apply Harray; [reflexivity | simpl; lia].
Defined.

(** Counterexample to C6: the supplied pmf [[1, 0]] passes the parameter
    checks with [demand_hi = 1], the horizon [K = 3] exceeds its length, and
    the call fails with [ZeroDivisionError], not with the error of a
    sequence that is too short. *)
Lemma short_pmf_zero_division :
  check_costs 1%Qc (Qc_frac 4 1) (Qc_frac 5 1) = Ok tt ∧
  check_demand None (PyInt 1) (Some [1%Qc; 0%Qc]) = Ok tt ∧
  (length [1%Qc; 0%Qc] < Z.to_nat (3 - 0))%nat ∧
  tri_cost_discrete 0 3 1%Qc (Qc_frac 4 1) (Qc_frac 5 1) false None (PyInt 1)
    (Some [1%Qc; 0%Qc]) = Raise ZeroDivisionError ∧
  tri_cost_discrete 0 3 1%Qc (Qc_frac 4 1) (Qc_frac 5 1) false None (PyInt 1)
    (Some [1%Qc; 0%Qc]) ≠ Raise IndexError.
Proof. split_and!; by_evaluation. Qed.

(** Witness of C6: the three supplied masses against the horizons
    [K = 2] (within the list) and [K = 4] (beyond it). *)
Lemma explicit_pmf_horizon_witness :
  (∃ m, calc_m (2 - 0) (PmfList tri_pmf) = Ok m ∧
        is_renewal_density (Qc_at (take 2 tri_pmf))
          (Fin (1 / (1 - Qc_at (take 2 tri_pmf) 0))) 2 m ∧
        ∀ l', take 2 l' = take 2 tri_pmf → (2 ≤ length l')%nat →
              calc_m (2 - 0) (PmfList l') = Ok m) ∧
  tri_cost_discrete 0 4 1%Qc (Qc_frac 4 1) (Qc_frac 5 1) false None (PyInt 2)
    (Some tri_pmf) = Raise IndexError.
Proof.
  split.
  - apply (explicit_pmf_horizon tri_mass tri_newsvendor_poisson_cost
             dict_newsvendor_discrete 0 2 1%Qc (Qc_frac 4 1) (Qc_frac 5 1) None
             (PyInt 2) tri_pmf);
      [lia | reflexivity | reflexivity | simpl; lia | by_evaluation].
  - apply (explicit_pmf_horizon tri_mass tri_newsvendor_poisson_cost
             dict_newsvendor_discrete 0 4 1%Qc (Qc_frac 4 1) (Qc_frac 5 1) None
             (PyInt 2) tri_pmf);
      [lia | reflexivity | reflexivity | simpl; lia | by_evaluation].
Defined.

(** The call as a whole is not a function of the first [K] entries: the
    entries up to [demand_hi − 1] reach the single-period cost. *)
Example explicit_cost_reads_beyond_horizon :
  take 1 [Qc_frac 1 4; Qc_frac 1 4; Qc_frac 1 2] = take 1 tri_pmf ∧
  tri_cost_discrete 1 2 1%Qc (Qc_frac 4 1) (Qc_frac 5 1) false None (PyInt 2)
    (Some [Qc_frac 1 4; Qc_frac 1 4; Qc_frac 1 2])
  ≠ tri_cost_discrete 1 2 1%Qc (Qc_frac 4 1) (Qc_frac 5 1) false None (PyInt 2)
      (Some tri_pmf).
Proof. split; by_evaluation. Qed.

Example explicit_pmf_horizon_example :
  tri_cost_discrete 0 4 1%Qc (Qc_frac 4 1) (Qc_frac 5 1) false None (PyInt 2)
    (Some tri_pmf) = Raise IndexError ∧
  tri_cost_discrete 0 3 1%Qc (Qc_frac 4 1) (Qc_frac 5 1) false None (PyInt 2)
    (Some tri_pmf) = Ok (Fin (Qc_frac 229 88)).
Proof. split; by_evaluation. Qed.

(** Witness of C9: the dictionary built from [1/4, 1/2, 1/4] with
    [demand_hi = 2] has the keys 0 and 1. *)
Lemma explicit_cost_drops_last_mass_witness :
  ∃ d : gmap Z Qc,
    truncated_pmf_dict (PyInt 2) (Some tri_pmf) 0 = Ok d ∧
    (∀ z, d !! z = if bool_decide (0 ≤ z < 2) then tri_pmf !! Z.to_nat z else None) ∧
    d !! 2 = None ∧
    is_Some (tri_pmf !! Z.to_nat 2) ∧
    (∀ y, loop_cost tri_newsvendor_poisson_cost dict_newsvendor_discrete y 1%Qc
            (Qc_frac 4 1) false None (PyInt 2) (Some tri_pmf)
          = snd <$> dict_newsvendor_discrete 1%Qc (Qc_frac 4 1) (Some d) (Some y)) ∧
    (∀ nd' : Qc → Qc → option (gmap Z Qc) → option Z → res (Z * fl),
       (∀ y, nd' 1%Qc (Qc_frac 4 1) (Some d) (Some y)
             = dict_newsvendor_discrete 1%Qc (Qc_frac 4 1) (Some d) (Some y)) →
       s_s_cost_discrete tri_mass tri_newsvendor_poisson_cost nd' 0 2 1%Qc
         (Qc_frac 4 1) (Qc_frac 5 1) false None (PyInt 2) (Some tri_pmf)
       = tri_cost_discrete 0 2 1%Qc (Qc_frac 4 1) (Qc_frac 5 1) false None
           (PyInt 2) (Some tri_pmf)).
Proof.
  apply (explicit_cost_drops_last_mass tri_mass tri_newsvendor_poisson_cost
           dict_newsvendor_discrete 0 2 1%Qc (Qc_frac 4 1) (Qc_frac 5 1) None 2
           tri_pmf); [lia | reflexivity].
Defined.

(** The same pair costs 67/20 under the full three-point demand (see
    [s_s_cost_discrete_example]) and 59/20 through the explicit variant,
    which hands the newsvendor cost the masses of 0 and 1 only. *)
Example explicit_cost_example :
  tri_cost_discrete 0 2 1%Qc (Qc_frac 4 1) (Qc_frac 5 1) false None (PyInt 2)
    (Some tri_pmf) = Ok (Fin (Qc_frac 59 20)).
Proof. by_evaluation. Qed.

(** Witness of C8: the search on the three-point demand returns
    [(0, 3, 133/44)], and that is the cost of the pair [(0, 3)]. *)
Lemma search_cost_consistency_witness :
  tri_cost_discrete 0 3 1%Qc (Qc_frac 4 1) (Qc_frac 5 1) true (Some 1%Qc) PyNone None
  = Ok (Fin (Qc_frac 133 44)).
Proof.
  apply (search_cost_consistency tri_mass tri_newsvendor_poisson
           tri_newsvendor_poisson_cost dict_newsvendor_discrete 20 1%Qc
           (Qc_frac 4 1) (Qc_frac 5 1) true (Some 1%Qc) PyNone None 0 3
           (Fin (Qc_frac 133 44))).
  apply (bool_decide_unpack _). vm_compute. exact I.
Defined.


(** C2, at its failing input: with positive costs and the explicit pmf
    [1/4, 1/2, 1/4] (whose single-period cost is convex) the search
    brackets [s0 = 0] below [S0 = y* = 2] and then raises [TypeError]
    instead of returning a minimising triple; the Poisson-variant run on
    the same demand returns [(0, 3, 133/44)]. *)
Theorem explicit_search_raises :
  dict_newsvendor_discrete 1%Qc (Qc_frac 4 1)
    (Some (list_to_map [(0, Qc_frac 1 4); (1, Qc_frac 1 2); (2, Qc_frac 1 4)])) None
    = Ok (2, Fin 1%Qc) ∧
  tri_discrete_exact 10 1%Qc (Qc_frac 4 1) (Qc_frac 5 1) false None (PyInt 2)
    (Some tri_pmf) = Done (Raise TypeError) ∧
  tri_discrete_exact 10 1%Qc (Qc_frac 4 1) (Qc_frac 5 1) true (Some 1%Qc) PyNone None
    = Done (Ok (0, 3, Fin (Qc_frac 133 44))).
Proof. split_and!; by_evaluation. Qed.

(** The bracket test on the bumpy single-period cost: below [y* = 0] the
    cost of [(s, 0)] is [fixed_cost / M[K] > 0 = g(s)]. *)
Lemma tri_mass_nonneg (mu : Qc) (k : nat) : (0 ≤ tri_mass mu k)%Qc.
Proof. by destruct k as [|[|[|k]]]. Qed.

Lemma bumpy_bracket_test (s : Z) :
  s < 0 →
  ∃ gs c,
    bumpy_newsvendor_poisson_cost s 1%Qc (Qc_frac 4 1) (Some 1%Qc) = Ok gs ∧
    s_s_cost_discrete tri_mass bumpy_newsvendor_poisson_cost dict_newsvendor_discrete
      s 0 1%Qc (Qc_frac 4 1) (Qc_frac 5 1) true (Some 1%Qc) PyNone None = Ok c ∧
    fl_leb c gs = false.
Proof.
  intros Hs.
  destruct (cost_discrete_zero_costs tri_mass bumpy_newsvendor_poisson_cost
    dict_newsvendor_discrete s 0 1%Qc (Qc_frac 4 1) (Qc_frac 5 1) 1%Qc PyNone None)
    as (c & Hc & Hpos); try done.
  { apply tri_mass_nonneg. }
  { intros y Hy. unfold bumpy_newsvendor_poisson_cost, bumpy_cost.
    by rewrite bool_decide_eq_false_2 by lia. }
  exists (Fin 0), (Fin c). split; [|split; [done|]].
  - unfold bumpy_newsvendor_poisson_cost, bumpy_cost.
    by rewrite bool_decide_eq_false_2 by lia.
  - simpl. unfold Qc_leb. apply bool_decide_eq_false_2. by apply Qclt_not_le.
Qed.

(** Counterexample to C7: a single-period cost that is not quasi-convex
    ([g(1)] exceeds both [g(0)] and [g(2)]) on which the search neither
    returns nor raises: it is still in its first loop after any number of
    iterations. *)
Lemma bumpy_search_runs_forever :
  (bumpy_cost 0 < bumpy_cost 1)%Qc ∧ (bumpy_cost 2 < bumpy_cost 1)%Qc ∧
  runs_forever (λ fuel,
    bumpy_discrete_exact fuel 1%Qc (Qc_frac 4 1) (Qc_frac 5 1) true (Some 1%Qc)
      PyNone None).
Proof.
  split; [done|]. split; [done|]. intros fuel.
  unfold s_s_discrete_exact. simpl.
  rewrite find_s0_never_stops; [done | | lia].
  intros s Hs. destruct (bumpy_bracket_test s Hs) as (gs & c & Hgs & Hc & Hle).
  by exists gs, c.
Qed.

(** Witness of C7, on the same demand model. *)
Lemma search_has_no_iteration_bound_witness :
  runs_forever (λ fuel,
    bumpy_discrete_exact fuel 1%Qc (Qc_frac 4 1) (Qc_frac 5 1) true (Some 1%Qc)
      PyNone None).
Proof.
  exact (search_has_no_iteration_bound tri_mass bumpy_newsvendor_poisson
           bumpy_newsvendor_poisson_cost dict_newsvendor_discrete 1%Qc
           (Qc_frac 4 1) (Qc_frac 5 1) (Some 1%Qc) PyNone None 0 (Fin (bumpy_cost 0))
           eq_refl eq_refl eq_refl bumpy_bracket_test).
Defined.

(** * Further properties of the renewal arrays and the cost evaluator *)

Lemma np_sum_snoc (xs : list fl) (x : fl) : np_sum (xs ++ [x]) = fl_add (np_sum xs) x.
Proof. unfold np_sum. by rewrite foldl_snoc. Qed.

Lemma Qc_sum_snoc (xs : list Qc) (x : Qc) : Qc_sum (xs ++ [x]) = (Qc_sum xs + x)%Qc.
Proof.
  induction xs as [|y ys IH]; simpl; [ring|].
  change (y + Qc_sum (ys ++ [x]) = y + Qc_sum ys + x)%Qc. rewrite IH. ring.
Qed.

Lemma calc_M_running_sum (K : nat) (m M : list fl) :
  length m = K → calc_M (Z.of_nat K) m = Ok M →
  length M = S K ∧ ∀ j, (j ≤ K)%nat → M !! j = Some (np_sum (take j m)).
Proof.
  intros Hm HM.
  destruct (calc_M_Ok K m Hm) as (M' & HM' & Hlen & H0 & Hrec).
  rewrite HM in HM'. injection HM' as <-. split; [done|].
  intros j. induction j as [|j IH]; intros Hj; [done|].
  rewrite Hrec by lia. f_equal. simpl. rewrite Nat.sub_0_r.
  destruct (lookup_lt_is_Some_2 m j ltac:(lia)) as [x Hx].
  rewrite (take_S_r m j x Hx), np_sum_snoc.
  unfold fl_at. by rewrite IH, Hx by lia.
Qed.

(** X1. [M] is the running sum of [m]: after the loop of lines 124-128,
    [M[j] = m[0] + ... + m[j-1]] for every [j] up to the horizon, in the
    arithmetic of the code (so also when entries are [inf] or [nan]). *)
Theorem calc_M_partial_sums (m : list fl) :
  ∃ M, calc_M (Z.of_nat (length m)) m = Ok M ∧ length M = S (length m) ∧
       ∀ j, (j ≤ length m)%nat → M !! j = Some (np_sum (take j m)).
Proof.
  destruct (calc_M_Ok (length m) m eq_refl) as (M & HM & _).
  exists M. split; [done|]. by apply calc_M_running_sum.
Qed.

(** X2. The density computed by lines 116-120 solves the renewal equation
    that the commented-out "old method" states implicitly:
    [m[0] = 1 + pmf[0]·m[0]] and [m[j] = Σ_{l=0..j} pmf[l]·m[j−l]] for
    [1 ≤ j < K], for a pmf with [pmf[0] < 1]. *)
Theorem renewal_density_equation (K : nat) (pmf : list Qc) (pmfv : pmf_val) :
  (1 ≤ K)%nat → length pmf = K → (Qc_at pmf 0 < 1)%Qc →
  pmfv = PmfArray pmf ∨ pmfv = PmfList pmf →
  ∃ mq : list Qc,
    calc_m (Z.of_nat K) pmfv = Ok (Fin <$> mq) ∧ length mq = K ∧
    (Qc_at mq 0 = 1 + Qc_at pmf 0 * Qc_at mq 0)%Qc ∧
    ∀ j, (1 ≤ j < K)%nat →
      Qc_at mq j = Qc_sum ((λ l, Qc_at pmf l * Qc_at mq (j - l))%Qc <$> seq 0 (S j)).
Proof.
  intros HK Hlen Hp0 Hpmfv.
  destruct (renewal_arrays_finite K pmf pmfv HK Hlen Hp0 Hpmfv)
    as (mq & Mq & Hm & _ & Hlm & _ & Hm0 & Hmrec & _).
  pose proof (Qc_one_minus_nonzero _ Hp0) as Hne.
  assert (Qc_at mq 0 = (1 / (1 - Qc_at pmf 0))%Qc) as H0
    by (unfold Qc_at at 1; by rewrite Hm0).
  exists mq. split; [done|]. split; [done|]. split.
  - rewrite H0. by field.
  - intros j Hj.
    change (seq 0 (S j)) with (0%nat :: seq 1 j). rewrite fmap_cons.
    change (Qc_sum (?x :: ?xs)) with (x + Qc_sum xs)%Qc.
    rewrite Nat.sub_0_r. unfold Qc_at at 1. rewrite Hmrec by lia. simpl.
    set (T := Qc_sum _). rewrite H0.
    unfold Qc_at at 3. rewrite Hmrec by lia. simpl. fold T. rewrite H0.
    by field.
Qed.



(** The rational form of the running sum: [M[j] = Σ_{d<j} m[d]]. *)
Lemma renewal_function_sum (K : nat) (mq Mq : list Qc) :
  Mq !! 0%nat = Some 0%Qc →
  (∀ j, (1 ≤ j ≤ K)%nat → (Qc_at Mq j - Qc_at Mq (j - 1) = Qc_at mq (j - 1))%Qc) →
  ∀ j, (j ≤ K)%nat → Qc_at Mq j = Qc_sum (Qc_at mq <$> seq 0 j).
Proof.
  intros H0 Hrec j. induction j as [|j IH]; intros Hj.
  - unfold Qc_at. by rewrite H0.
  - rewrite seq_S, fmap_app.
    change (Qc_at mq <$> [(0 + j)%nat]) with [Qc_at mq j].
    rewrite Qc_sum_snoc, <- IH by lia.
    specialize (Hrec (S j) ltac:(lia)). simpl in Hrec. rewrite Nat.sub_0_r in Hrec.
    rewrite <- Hrec. ring.
Qed.

Section MoreProperties.

Variable poisson_pmf : Qc → nat → Qc.
Variable newsvendor_poisson : Qc → Qc → option Qc → res (Z * fl).
Variable newsvendor_poisson_cost : Z → Qc → Qc → option Qc → res fl.
Variable newsvendor_discrete :
  Qc → Qc → option (gmap Z Qc) → option Z → res (Z * fl).

Local Abbreviation cost_discrete :=
  (s_s_cost_discrete poisson_pmf newsvendor_poisson_cost newsvendor_discrete).
Local Abbreviation newsvendor_cost :=
  (loop_cost newsvendor_poisson_cost newsvendor_discrete).
Local Abbreviation discrete_exact :=
  (s_s_discrete_exact poisson_pmf newsvendor_poisson newsvendor_poisson_cost
     newsvendor_discrete).

Lemma spec_demand_pmf_values (use_poisson : bool) (demand_mean : option Qc)
    (demand_pmf : option (list Qc)) (K : nat) (pmfK : pmf_val) :
  spec_demand_pmf poisson_pmf use_poisson demand_mean demand_pmf K = Some pmfK →
  length (pmf_values pmfK) = K ∧
  (pmfK = PmfArray (pmf_values pmfK) ∨ pmfK = PmfList (pmf_values pmfK)) ∧
  (use_poisson = true → ∃ mu, demand_mean = Some mu ∧
                              pmf_values pmfK = poisson_pmf mu <$> seq 0 K) ∧
  (use_poisson = false → ∃ l, demand_pmf = Some l ∧ (K ≤ length l)%nat ∧
                              pmf_values pmfK = take K l).
Proof.
  unfold spec_demand_pmf. destruct use_poisson.
  - destruct demand_mean as [mu|]; [|done]. intros [= <-]. simpl.
    rewrite length_fmap, length_seq. split_and!; [done | by left | | done].
    intros _. by exists mu.
  - destruct demand_pmf as [l|]; [|done]. simpl.
    case_bool_decide as Hlen; [|done]. intros [= <-]. simpl.
    rewrite length_take. split_and!; [lia | by right | done |].
    intros _. by exists l.
Qed.

(** On a pmf with [pmf[0] < 1] and finite single-period costs the cost is
    the quotient of two finite numbers. *)
Lemma cost_discrete_quotient (s S : Z) (holding_cost stockout_cost fixed_cost : Qc)
    (use_poisson : bool) (demand_mean : option Qc) (demand_hi : pyarg)
    (demand_pmf : option (list Qc)) (pmfK : pmf_val) (g : nat → Qc) :
  s < S →
  (0 < holding_cost)%Qc → (0 < stockout_cost)%Qc → (0 < fixed_cost)%Qc →
  check_demand demand_mean demand_hi demand_pmf = Ok tt →
  spec_demand_pmf poisson_pmf use_poisson demand_mean demand_pmf (Z.to_nat (S - s))
    = Some pmfK →
  (Qc_at (pmf_values pmfK) 0 < 1)%Qc →
  (∀ d, (d < Z.to_nat (S - s))%nat →
     newsvendor_cost (S - Z.of_nat d) holding_cost stockout_cost use_poisson
       demand_mean demand_hi demand_pmf = Ok (Fin (g d))) →
  let K := Z.to_nat (S - s) in
  let pmf := pmf_values pmfK in
  ∃ mq Mq : list Qc,
    calc_m (Z.of_nat K) pmfK = Ok (Fin <$> mq) ∧
    calc_M (Z.of_nat K) (Fin <$> mq) = Ok (Fin <$> Mq) ∧
    length mq = K ∧ length Mq = Datatypes.S K ∧
    mq !! 0%nat = Some (1 / (1 - Qc_at pmf 0))%Qc ∧
    (∀ j, (1 ≤ j ≤ K - 1)%nat →
       mq !! j = Some (Qc_at mq 0 *
         Qc_sum ((λ l, Qc_at pmf l * Qc_at mq (j - l)) <$> seq 1 j))%Qc) ∧
    Mq !! 0%nat = Some 0%Qc ∧
    (∀ j, (1 ≤ j ≤ K)%nat →
       (Qc_at Mq j - Qc_at Mq (j - 1) = Qc_at mq (j - 1))%Qc) ∧
    cost_discrete s S holding_cost stockout_cost fixed_cost use_poisson
      demand_mean demand_hi demand_pmf
    = Ok (np_div
            (Fin (fixed_cost + Qc_sum ((λ d, Qc_at mq d * g d)%Qc <$> seq 0 K)))
            (Fin (Qc_at Mq K))).
Proof.
  intros HsS Hh Hp Hk Hd Hpmf Hp0 Hg K pmf.
  destruct (spec_demand_pmf_values _ _ _ _ _ Hpmf) as (Hlen & Hkind & _ & Hexp).
  destruct (renewal_arrays_finite K pmf pmfK)
    as (mq & Mq & Hm & HM & Hlm & HlM & Hm0 & Hmrec & HM0 & HMrec & _);
    [lia | done | done | done |].
  destruct (cost_discrete_spec poisson_pmf newsvendor_poisson_cost newsvendor_discrete
    s S holding_cost stockout_cost fixed_cost use_poisson demand_mean demand_hi
    demand_pmf pmfK (λ d, Fin (g d))) as (m & M & Hm' & HM' & ->); try done.
  { intros ->. destruct (Hexp eq_refl) as (l & _ & HK & Hl).
    destruct Hkind as [Hk'|Hk']; rewrite Hk'; simpl; fold pmf.
    all: unfold Qc_at in Hp0; fold pmf in Hp0.
    all: destruct (pmf !! 0%nat) as [x|]; [|done]; simpl in Hp0.
    all: intros [= ->]; by apply Qclt_not_eq in Hp0. }
  assert (S - s = Z.of_nat K) as HKz by lia. rewrite HKz in Hm', HM'.
  rewrite Hm in Hm'. injection Hm' as <-. rewrite HM in HM'. injection HM' as <-.
  exists mq, Mq. split_and!; try done.
  unfold spec_policy_cost. fold K. do 2 f_equal.
  replace ((λ d, fl_mul (fl_at (Fin <$> mq) d) (Fin (g d))) <$> seq 0 K)
    with (Fin <$> ((λ d, Qc_at mq d * g d)%Qc <$> seq 0 K)).
  - by rewrite np_sum_Fin.
  - rewrite <- list_fmap_compose. apply list_fmap_ext.
    intros i d Hd'. apply lookup_seq in Hd' as [-> Hi]. simpl.
    by rewrite fl_at_Fin by lia.
  - rewrite fl_at_Fin by lia. done.
Qed.


(** X4. For adjacent levels [s = S − 1] the horizon is 1 and the cost has
    the closed form [fixed_cost · (1 − pmf[0]) + g(S)]. *)
Theorem adjacent_policy_cost (S : Z) (holding_cost stockout_cost fixed_cost : Qc)
    (use_poisson : bool) (demand_mean : option Qc) (demand_hi : pyarg)
    (demand_pmf : option (list Qc)) (pmfK : pmf_val) (g : Qc) :
  (0 < holding_cost)%Qc → (0 < stockout_cost)%Qc → (0 < fixed_cost)%Qc →
  check_demand demand_mean demand_hi demand_pmf = Ok tt →
  spec_demand_pmf poisson_pmf use_poisson demand_mean demand_pmf 1 = Some pmfK →
  (Qc_at (pmf_values pmfK) 0 < 1)%Qc →
  newsvendor_cost S holding_cost stockout_cost use_poisson demand_mean demand_hi
    demand_pmf = Ok (Fin g) →
  cost_discrete (S - 1) S holding_cost stockout_cost fixed_cost use_poisson
    demand_mean demand_hi demand_pmf
  = Ok (Fin (fixed_cost * (1 - Qc_at (pmf_values pmfK) 0) + g)).
Proof.
  intros Hh Hp Hk Hd Hpmf Hp0 Hg.
  assert (Z.to_nat (S - (S - 1)) = 1%nat) as HK by lia.
  destruct (cost_discrete_quotient (S - 1) S holding_cost stockout_cost fixed_cost
    use_poisson demand_mean demand_hi demand_pmf pmfK (λ _, g))
    as (mq & Mq & _ & _ & Hlm & HlM & Hm0 & _ & HM0 & HMrec & ->);
    rewrite ?HK; try done; try lia.
  { intros d Hd'. replace (S - Z.of_nat d) with S by lia. done. }
  set (p0 := Qc_at (pmf_values pmfK) 0) in *.
  pose proof (Qc_one_minus_nonzero _ Hp0) as Hne.
  assert (Qc_at mq 0 = (1 / (1 - p0))%Qc) as H0 by (unfold Qc_at; by rewrite Hm0).
  assert (Qc_at Mq 1 = (1 / (1 - p0))%Qc) as H1.
  { specialize (HMrec 1%nat ltac:(lia)). simpl in HMrec.
    unfold Qc_at at 2 in HMrec. rewrite HM0 in HMrec. simpl in HMrec.
    rewrite <- H0, <- HMrec. ring. }
  assert ((1 / (1 - p0))%Qc ≠ 0%Qc) as Hinv.
  { intros Hz. pose proof (Qcmult_div_r 1 (1 - p0) Hne) as Hone.
    rewrite Hz, Qcmult_0_r in Hone. done. }
  change (seq 0 1) with [0%nat]. simpl. rewrite H0, H1.
  rewrite (proj2 (Qc_eqb_neq _ _) Hinv). do 2 f_equal.
  change (Qc_sum [?x]) with (x + 0)%Qc. by field.
Qed.

(** *** A mass of 1 at zero in the Poisson variant *)

Lemma fl_add_nonfinite_l (x y : fl) : is_finite x = false → is_finite (fl_add x y) = false.
Proof. destruct x as [a|s|], y as [b|t|]; try done. simpl. by destruct (Bool.eqb s t). Qed.

Lemma fl_add_nonfinite_r (x y : fl) : is_finite y = false → is_finite (fl_add x y) = false.
Proof. rewrite fl_add_comm. apply fl_add_nonfinite_l. Qed.

Lemma fl_mul_nonfinite_l (x y : fl) : is_finite x = false → is_finite (fl_mul x y) = false.
Proof.
  destruct x as [a|s|], y as [b|t|]; try done. simpl. by destruct (Qc_eqb b 0).
Qed.

Lemma np_div_nonfinite (x y : fl) :
  is_finite x = false → is_finite y = false → np_div x y = NaN.
Proof. by destruct x as [a|s|], y as [b|t|]. Qed.

Lemma np_sum_cons (x : fl) (xs : list fl) : np_sum (x :: xs) = fl_add x (np_sum xs).
Proof.
  change (np_sum (x :: xs)) with (foldl fl_add (fl_add (Fin 0) x) xs).
  by rewrite fl_add_0_l, foldl_fl_add.
Qed.

Lemma np_sum_nonfinite (xs : list fl) (x : fl) :
  x ∈ xs → is_finite x = false → is_finite (np_sum xs) = false.
Proof.
  intros Hin Hx. induction Hin as [x xs|x y xs Hin IH]; rewrite np_sum_cons.
  - by apply fl_add_nonfinite_l.
  - by apply fl_add_nonfinite_r, IH.
Qed.

Lemma cost_discrete_mass_one (s S : Z) (holding_cost stockout_cost fixed_cost mu : Qc)
    (demand_hi : pyarg) (demand_pmf : option (list Qc)) (g : nat → fl) :
  s < S →
  (0 < holding_cost)%Qc → (0 < stockout_cost)%Qc → (0 < fixed_cost)%Qc →
  check_demand (Some mu) demand_hi demand_pmf = Ok tt →
  poisson_pmf mu 0%nat = 1%Qc →
  (∀ d, (d < Z.to_nat (S - s))%nat →
     newsvendor_poisson_cost (S - Z.of_nat d) holding_cost stockout_cost (Some mu)
     = Ok (g d)) →
  cost_discrete s S holding_cost stockout_cost fixed_cost true (Some mu)
    demand_hi demand_pmf = Ok NaN.
Proof.
  intros HsS Hh Hp Hk Hd Hp0 Hg.
  set (K := Z.to_nat (S - s)) in *.
  set (pmf := poisson_pmf mu <$> seq 0 K).
  assert (S - s = Z.of_nat K) as HKz by lia.
  destruct (cost_discrete_spec poisson_pmf newsvendor_poisson_cost newsvendor_discrete
    s S holding_cost stockout_cost fixed_cost true (Some mu) demand_hi demand_pmf
    (PmfArray pmf) g) as (m & M & Hm & HM & ->); try done.
  destruct (calc_m_Ok K (PmfArray pmf) (Qc_at pmf) (Inf false))
    as (m' & Hm' & Hlen & H0 & _); [lia | | |].
  { intros i Hi. apply pmf_get_list; [by left|].
    subst pmf. rewrite length_fmap, length_seq. lia. }
  { assert (Qc_at pmf 0 = 1%Qc) as ->; [|done].
    unfold Qc_at. subst pmf. rewrite list_lookup_fmap, lookup_seq_lt by lia. by simpl. }
  rewrite HKz in Hm, HM. rewrite Hm in Hm'. injection Hm' as <-.
  destruct (calc_M_running_sum K m M Hlen HM) as [HlM Hsum].
  unfold spec_policy_cost. fold K. apply f_equal. apply np_div_nonfinite.
  - apply fl_add_nonfinite_r.
    apply (np_sum_nonfinite _ (fl_mul (fl_at m 0) (g 0%nat))).
    + apply list_elem_of_fmap. exists 0%nat. split; [done|]. apply elem_of_seq. lia.
    + apply fl_mul_nonfinite_l. unfold fl_at. by rewrite H0.
  - unfold fl_at. rewrite Hsum by lia. simpl.
    apply (np_sum_nonfinite _ (Inf false)); [|done].
    apply list_elem_of_lookup. exists 0%nat. by rewrite lookup_take_lt by lia.
Qed.

(** X5. In the Poisson variant a pmf with [pmf[0] = 1] (a mean of 0,
    which the parameter check admits) raises nothing: NumPy's division
    gives [m[0] = inf], and [s_s_cost_discrete] returns [nan] for every
    [s < S] on which the single-period costs return. *)
Theorem poisson_mass_one_cost_is_nan (s S : Z) (holding_cost stockout_cost fixed_cost mu : Qc)
    (demand_hi : pyarg) (demand_pmf : option (list Qc)) :
  s < S →
  (0 < holding_cost)%Qc → (0 < stockout_cost)%Qc → (0 < fixed_cost)%Qc →
  check_demand (Some mu) demand_hi demand_pmf = Ok tt →
  poisson_pmf mu 0%nat = 1%Qc →
  (∀ y, s < y ≤ S →
     returns (newsvendor_poisson_cost y holding_cost stockout_cost (Some mu))) →
  cost_discrete s S holding_cost stockout_cost fixed_cost true (Some mu)
    demand_hi demand_pmf = Ok NaN.
Proof.
  intros HsS Hh Hp Hk Hd Hp0 Hret.
  apply (cost_discrete_mass_one s S holding_cost stockout_cost fixed_cost mu
    demand_hi demand_pmf
    (λ d, match newsvendor_poisson_cost (S - Z.of_nat d) holding_cost stockout_cost
                  (Some mu) with Ok x => x | Raise _ => NaN end)); try done.
  intros d Hd'. destruct (Hret (S - Z.of_nat d)) as [x ->]; [lia | done].
Qed.

(** X6. Hence the search does not terminate on such a demand: when the
    newsvendor routines return, every bracket test compares [nan] and is
    false, and [s_s_discrete_exact] is still in its first loop after any
    number of iterations. *)
Theorem poisson_mass_one_search_runs_forever
    (holding_cost stockout_cost fixed_cost mu : Qc) (demand_hi : pyarg)
    (demand_pmf : option (list Qc)) (y_star : Z) (c0 : fl) :
  (0 < holding_cost)%Qc → (0 < stockout_cost)%Qc → (0 < fixed_cost)%Qc →
  check_demand (Some mu) demand_hi demand_pmf = Ok tt →
  poisson_pmf mu 0%nat = 1%Qc →
  newsvendor_poisson holding_cost stockout_cost (Some mu) = Ok (y_star, c0) →
  (∀ y, y ≤ y_star →
     returns (newsvendor_poisson_cost y holding_cost stockout_cost (Some mu))) →
  runs_forever (λ fuel, discrete_exact fuel holding_cost stockout_cost fixed_cost
                          true (Some mu) demand_hi demand_pmf).
Proof.
  intros Hh Hp Hk Hd Hp0 Hnv Hret fuel. unfold s_s_discrete_exact.
  rewrite check_costs_Ok, Hd, Hnv by done. simpl.
  rewrite find_s0_never_stops; [done | | lia].
  intros s Hs. destruct (Hret s ltac:(lia)) as [gs Hgs].
  exists gs, NaN. split; [done|]. split; [|done].
  apply (cost_discrete_mass_one s y_star holding_cost stockout_cost fixed_cost mu
    demand_hi demand_pmf
    (λ d, match newsvendor_poisson_cost (y_star - Z.of_nat d) holding_cost
                  stockout_cost (Some mu) with Ok x => x | Raise _ => NaN end));
    try done.
  intros d Hd'. destruct (Hret (y_star - Z.of_nat d)) as [x ->]; [lia | done].
Qed.

(** *** What a returned triple satisfies *)

(** A cost is only ever returned for [s < S]. *)
Lemma cost_discrete_Ok_lt (s S : Z) (holding_cost stockout_cost fixed_cost : Qc)
    (use_poisson : bool) (demand_mean : option Qc) (demand_hi : pyarg)
    (demand_pmf : option (list Qc)) (c : fl) :
  cost_discrete s S holding_cost stockout_cost fixed_cost use_poisson demand_mean
    demand_hi demand_pmf = Ok c →
  s < S.
Proof.
  intros H. destruct (decide (s < S)) as [|Hge]; [done|]. exfalso.
  unfold s_s_cost_discrete in H.
  destruct (check_costs _ _ _) as [[]|]; [|done].
  destruct (check_demand _ _ _) as [[]|]; [|done]. simpl in H.
  destruct use_poisson; [destruct demand_mean as [mu|]; [|done]|]; simpl in H.
  - destruct (calc_m_nonpos (S - s) (PmfArray (poisson_pmf mu <$> py_range 0 (S - s))))
      as (e & He & _); [lia|]. by rewrite He in H.
  - destruct (calc_m_nonpos (S - s)
      (match demand_pmf with Some l => PmfList l | None => PmfNone end))
      as (e & He & _); [lia|]. by rewrite He in H.
Qed.

Section Loops.

Variables (holding_cost stockout_cost fixed_cost : Qc) (use_poisson : bool)
  (demand_mean : option Qc) (demand_hi : pyarg) (demand_pmf : option (list Qc)).
Variable demand_pmf_dict : option (gmap Z Qc).

Local Abbreviation pcost :=
  (policy_cost poisson_pmf newsvendor_poisson_cost newsvendor_discrete
     holding_cost stockout_cost fixed_cost use_poisson demand_mean demand_hi
     demand_pmf).
Local Abbreviation scost :=
  (search_cost newsvendor_poisson_cost newsvendor_discrete holding_cost
     stockout_cost use_poisson demand_mean demand_pmf_dict).
Local Abbreviation find_s0' :=
  (find_s0 poisson_pmf newsvendor_poisson_cost newsvendor_discrete
     holding_cost stockout_cost fixed_cost use_poisson demand_mean demand_hi
     demand_pmf demand_pmf_dict).
Local Abbreviation raise_s' :=
  (raise_s poisson_pmf newsvendor_poisson_cost newsvendor_discrete
     holding_cost stockout_cost fixed_cost use_poisson demand_mean demand_hi
     demand_pmf demand_pmf_dict).
Local Abbreviation improve' :=
  (improve poisson_pmf newsvendor_poisson_cost newsvendor_discrete
     holding_cost stockout_cost fixed_cost use_poisson demand_mean demand_hi
     demand_pmf demand_pmf_dict).
Local Abbreviation expand_S' :=
  (expand_S poisson_pmf newsvendor_poisson_cost newsvendor_discrete
     holding_cost stockout_cost fixed_cost use_poisson demand_mean demand_hi
     demand_pmf demand_pmf_dict).


Lemma improve_S_hat (inner : nat) (st st' : search_state) :
  improve' inner st = Done (Ok st') →
  st_S st' = st_S st ∧
  (st_S_hat st' = st_S_hat st ∨ st_S_hat st' = st_S st).
Proof.
  unfold improve. intros (c & _ & H)%run_bind_Ok_inv.
  destruct (fl_ltb c (st_g_hat st)).
  - apply run_bind_Ok_inv in H as (gs & _ & H).
    apply run_bind_Ok_inv in H as (s & _ & H).
    apply run_bind_Ok_inv in H as (g_hat & _ & H).
    injection H as <-. split; [done | by right].
  - injection H as <-. split; [done | by left].
Qed.

Lemma expand_S_above (inner fuel : nat) (st : search_state) (s S : Z) (g : fl) :
  st_S_hat st < st_S st →
  expand_S' inner fuel st = Done (Ok (s, S, g)) →
  st_S_hat st ≤ S.
Proof.
  revert st. induction fuel as [|fuel IH]; intros st Hinv; simpl; [done|].
  destruct (fl_leb (st_gS st) (st_g_hat st)).
  - intros (st' & Himp & H)%run_bind_Ok_inv.
    destruct (scost (st_S st' + 1)) as [gS|]; [|done].
    apply improve_S_hat in Himp as [HS Hhat].
    apply IH in H; simpl in *; destruct Hhat as [Hhat|Hhat]; rewrite ?Hhat in *; lia.
  - intros [= <- <- <-]. lia.
Qed.

End Loops.

Lemma search_cost_consistent_run (fuel : nat)
    (holding_cost stockout_cost fixed_cost : Qc) (use_poisson : bool)
    (demand_mean : option Qc) (demand_hi : pyarg) (demand_pmf : option (list Qc))
    (s S : Z) (g : fl) :
  discrete_exact fuel holding_cost stockout_cost fixed_cost use_poisson
    demand_mean demand_hi demand_pmf = Done (Ok (s, S, g)) →
  cost_discrete s S holding_cost stockout_cost fixed_cost use_poisson
    demand_mean demand_hi demand_pmf = Ok g.
Proof.
  unfold s_s_discrete_exact.
  intros ([] & Hc & H)%run_bind_Ok_inv.
  apply run_bind_Ok_inv in H as ([] & Hd & H).
  apply run_bind_Ok_inv in H as ([dict y_star] & Hinit & H).
  apply run_bind_Ok_inv in H as (s0 & _ & H).
  apply run_bind_Ok_inv in H as (g_hat & Hg & H).
  apply run_bind_Ok_inv in H as (gS & _ & H).
  injection Hd as Hd. injection Hg as Hg. injection Hinit as Hinit.
  simpl in *.
  eapply expand_S_incumbent; [|exact H].
  unfold policy_cost. simpl. rewrite <- Hg.
  destruct use_poisson.
  - apply bind_Ok_inv in Hinit as (r & _ & [= <- _]).
    symmetry. by apply cost_discrete_poisson_args.
  - apply bind_Ok_inv in Hinit as (d & _ & Hinit).
    apply bind_Ok_inv in Hinit as (r & _ & [= <- _]).
    unfold s_s_cost_discrete in Hg.
    destruct (check_costs _ _ _) as [[]|]; [|done]. simpl in Hg.
    unfold check_demand in Hg.
    destruct (check_demand_mean demand_mean) as [[]|]; done.
Qed.

(** X7. Whenever [s_s_discrete_exact] returns a triple [(s, S, g)], the
    run was a Poisson-variant one, [s < S], and [S] is at least the
    newsvendor level [y*] the search started from. *)
Theorem returned_triple_is_a_policy (fuel : nat)
    (holding_cost stockout_cost fixed_cost : Qc) (use_poisson : bool)
    (demand_mean : option Qc) (demand_hi : pyarg) (demand_pmf : option (list Qc))
    (s S : Z) (g : fl) :
  discrete_exact fuel holding_cost stockout_cost fixed_cost use_poisson
    demand_mean demand_hi demand_pmf = Done (Ok (s, S, g)) →
  use_poisson = true ∧ s < S ∧
  ∃ y_star c0,
    newsvendor_poisson holding_cost stockout_cost demand_mean = Ok (y_star, c0) ∧
    y_star ≤ S.
Proof.
  intros Hrun.
  assert (s < S) as HsS.
  { eapply cost_discrete_Ok_lt.
    exact (search_cost_consistent_run _ _ _ _ _ _ _ _ _ _ _ Hrun). }
  revert Hrun. unfold s_s_discrete_exact.
  intros ([] & Hc & H)%run_bind_Ok_inv.
  apply run_bind_Ok_inv in H as ([] & Hd & H).
  apply run_bind_Ok_inv in H as ([dict y_star] & Hinit & H).
  apply run_bind_Ok_inv in H as (s0 & _ & H).
  apply run_bind_Ok_inv in H as (g_hat & Hg & H).
  apply run_bind_Ok_inv in H as (gS & _ & H).
  injection Hinit as Hinit. injection Hg as Hg. simpl in *.
  apply expand_S_above in H; [|simpl; lia]. simpl in H.
  destruct use_poisson.
  - apply bind_Ok_inv in Hinit as ([y c0] & Hnv & [= <- <-]).
    split; [done|]. split; [done|]. by exists y, c0.
  - exfalso. apply bind_Ok_inv in Hinit as (d & _ & Hinit).
    apply bind_Ok_inv in Hinit as (r & _ & [= <- _]).
    destruct (cost_discrete_dict_arg poisson_pmf newsvendor_poisson_cost
      newsvendor_discrete s0 y_star holding_cost stockout_cost fixed_cost false
      demand_mean d None) as (e & He & _). congruence.
Qed.

(** *** Arguments of the other variant *)

Section PoissonArgs.

Variables (holding_cost stockout_cost fixed_cost : Qc) (demand_mean : option Qc).
Variables (demand_hi demand_hi' : pyarg) (demand_pmf demand_pmf' : option (list Qc)).
Variable demand_pmf_dict : option (gmap Z Qc).
Hypothesis Hcheck : check_demand demand_mean demand_hi demand_pmf = Ok tt.
Hypothesis Hcheck' : check_demand demand_mean demand_hi' demand_pmf' = Ok tt.

Lemma policy_cost_poisson_args (s S : Z) :
  policy_cost poisson_pmf newsvendor_poisson_cost newsvendor_discrete holding_cost
    stockout_cost fixed_cost true demand_mean demand_hi demand_pmf s S
  = policy_cost poisson_pmf newsvendor_poisson_cost newsvendor_discrete holding_cost
      stockout_cost fixed_cost true demand_mean demand_hi' demand_pmf' s S.
Proof.
  unfold policy_cost.
  rewrite <- (cost_discrete_poisson_args _ _ _ _ _ _ _ _ _ _ _ Hcheck).
  by rewrite <- (cost_discrete_poisson_args _ _ _ _ _ _ _ _ _ _ _ Hcheck').
Qed.

Lemma find_s0_poisson_args (fuel : nat) (S0 s : Z) :
  find_s0 poisson_pmf newsvendor_poisson_cost newsvendor_discrete holding_cost
    stockout_cost fixed_cost true demand_mean demand_hi demand_pmf demand_pmf_dict
    fuel S0 s
  = find_s0 poisson_pmf newsvendor_poisson_cost newsvendor_discrete holding_cost
      stockout_cost fixed_cost true demand_mean demand_hi' demand_pmf'
      demand_pmf_dict fuel S0 s.
Proof.
  revert s. induction fuel as [|fuel IH]; intros s; [done|].
  cbn [find_s0]. rewrite policy_cost_poisson_args.
  destruct (search_cost _ _ _ _ _ _ _ _) as [gs|]; [|done]. cbn.
  destruct (policy_cost _ _ _ _ _ _ _ _ _ _ _ _) as [c|]; [|done]. cbn.
  destruct (fl_leb c gs); [done | apply IH].
Qed.

Lemma raise_s_poisson_args (fuel : nat) (S_hat s : Z) (gs : fl) :
  raise_s poisson_pmf newsvendor_poisson_cost newsvendor_discrete holding_cost
    stockout_cost fixed_cost true demand_mean demand_hi demand_pmf demand_pmf_dict
    fuel S_hat s gs
  = raise_s poisson_pmf newsvendor_poisson_cost newsvendor_discrete holding_cost
      stockout_cost fixed_cost true demand_mean demand_hi' demand_pmf'
      demand_pmf_dict fuel S_hat s gs.
Proof.
  revert s gs. induction fuel as [|fuel IH]; intros s gs; [done|].
  cbn [raise_s]. rewrite policy_cost_poisson_args.
  destruct (policy_cost _ _ _ _ _ _ _ _ _ _ _ _) as [c|]; [|done]. cbn.
  destruct (fl_leb c gs); [|done].
  destruct (newsvendor_poisson_cost _ _ _ _) as [gs'|]; [|done]. cbn. apply IH.
Qed.

Lemma improve_poisson_args (inner : nat) (st : search_state) :
  improve poisson_pmf newsvendor_poisson_cost newsvendor_discrete holding_cost
    stockout_cost fixed_cost true demand_mean demand_hi demand_pmf demand_pmf_dict
    inner st
  = improve poisson_pmf newsvendor_poisson_cost newsvendor_discrete holding_cost
      stockout_cost fixed_cost true demand_mean demand_hi' demand_pmf'
      demand_pmf_dict inner st.
Proof.
  unfold improve. rewrite policy_cost_poisson_args.
  destruct (policy_cost _ _ _ _ _ _ _ _ _ _ _ _) as [c|]; [|done]. cbn.
  destruct (fl_ltb c (st_g_hat st)); [|done].
  destruct (newsvendor_poisson_cost _ _ _ _) as [gs|]; [|done]. cbn.
  rewrite raise_s_poisson_args.
  destruct (raise_s _ _ _ _ _ _ _ _ _ _ _ _ _ _ _) as [[s|]|]; [|done|done]. cbn.
  by rewrite policy_cost_poisson_args.
Qed.

Lemma expand_S_poisson_args (inner fuel : nat) (st : search_state) :
  expand_S poisson_pmf newsvendor_poisson_cost newsvendor_discrete holding_cost
    stockout_cost fixed_cost true demand_mean demand_hi demand_pmf demand_pmf_dict
    inner fuel st
  = expand_S poisson_pmf newsvendor_poisson_cost newsvendor_discrete holding_cost
      stockout_cost fixed_cost true demand_mean demand_hi' demand_pmf'
      demand_pmf_dict inner fuel st.
Proof.
  revert st. induction fuel as [|fuel IH]; intros st; [done|].
  cbn [expand_S]. destruct (fl_leb (st_gS st) (st_g_hat st)); [|done].
  rewrite improve_poisson_args.
  destruct (improve _ _ _ _ _ _ _ _ _ _ _ _ _) as [[st'|]|]; [|done|done]. cbn.
  destruct (newsvendor_poisson_cost _ _ _ _) as [gS|]; [|done]. cbn. apply IH.
Qed.

End PoissonArgs.

(** X8. In the Poisson variant [demand_hi] and [demand_pmf] are checked
    (an inconsistent pair is rejected although the docstring calls them
    ignored) and, once the check passes, unused: both functions give the
    same outcome for any two admissible choices of them. *)
Theorem poisson_variant_ignores_explicit_args (fuel : nat) (s S : Z)
    (holding_cost stockout_cost fixed_cost : Qc) (demand_mean : option Qc)
    (demand_hi demand_hi' : pyarg) (demand_pmf demand_pmf' : option (list Qc)) :
  (check_costs holding_cost stockout_cost fixed_cost = Ok tt →
   ∀ e, check_demand demand_mean demand_hi demand_pmf = Raise e →
     cost_discrete s S holding_cost stockout_cost fixed_cost true demand_mean
       demand_hi demand_pmf = Raise e ∧
     discrete_exact fuel holding_cost stockout_cost fixed_cost true demand_mean
       demand_hi demand_pmf = Done (Raise e)) ∧
  (check_demand demand_mean demand_hi demand_pmf = Ok tt →
   check_demand demand_mean demand_hi' demand_pmf' = Ok tt →
   cost_discrete s S holding_cost stockout_cost fixed_cost true demand_mean
     demand_hi demand_pmf
   = cost_discrete s S holding_cost stockout_cost fixed_cost true demand_mean
       demand_hi' demand_pmf' ∧
   discrete_exact fuel holding_cost stockout_cost fixed_cost true demand_mean
     demand_hi demand_pmf
   = discrete_exact fuel holding_cost stockout_cost fixed_cost true demand_mean
       demand_hi' demand_pmf').
Proof.
  split.
  - intros Hc e He. unfold s_s_cost_discrete, s_s_discrete_exact.
    by rewrite Hc, He.
  - intros Hd Hd'. split.
    + apply (policy_cost_poisson_args holding_cost stockout_cost fixed_cost
        demand_mean demand_hi demand_hi' demand_pmf demand_pmf' Hd Hd').
    + unfold s_s_discrete_exact. rewrite Hd, Hd'.
      destruct (check_costs _ _ _) as [[]|]; [|done]. cbn.
      destruct (newsvendor_poisson _ _ _) as [[y c0]|]; [|done]. cbn.
      rewrite (find_s0_poisson_args holding_cost stockout_cost fixed_cost
        demand_mean demand_hi demand_hi' demand_pmf demand_pmf' None Hd Hd').
      destruct (find_s0 _ _ _ _ _ _ _ _ _ _ _ _ _ _) as [[s0|]|]; [|done|done]. cbn.
      destruct (s_s_cost_discrete _ _ _ _ _ _ _ _ _ _ _ _) as [g_hat|]; [|done]. cbn.
      destruct (newsvendor_poisson_cost _ _ _ _) as [gS|]; [|done]. cbn.
      apply (expand_S_poisson_args holding_cost stockout_cost fixed_cost
        demand_mean demand_hi demand_hi' demand_pmf demand_pmf' None Hd Hd').
Qed.

(** X9. [s_s_discrete_exact] checks its parameters before anything else:
    a non-positive cost, or a negative mean with valid costs, ends the
    call with an [AssertionError] whatever the variant, the demand
    arguments and the collaborators, and without entering a loop. *)
Theorem search_rejects_invalid_parameters (fuel : nat)
    (holding_cost stockout_cost fixed_cost : Qc) (use_poisson : bool)
    (demand_mean : option Qc) (demand_hi : pyarg) (demand_pmf : option (list Qc)) :
  let r := discrete_exact fuel holding_cost stockout_cost fixed_cost use_poisson
             demand_mean demand_hi demand_pmf in
  (¬ ((0 < holding_cost)%Qc ∧ (0 < stockout_cost)%Qc ∧ (0 < fixed_cost)%Qc) →
     ∃ msg, r = Done (Raise (AssertionError msg))) ∧
  ((0 < holding_cost)%Qc → (0 < stockout_cost)%Qc → (0 < fixed_cost)%Qc →
   ∀ mu, demand_mean = Some mu → (mu < 0)%Qc →
     r = Done (Raise (AssertionError "demand_mean must be non-negative (or None)"))).
Proof.
  intros r. split.
  - intros Hbad. subst r. unfold s_s_discrete_exact.
    destruct (check_costs_cases holding_cost stockout_cost fixed_cost)
      as [(? & ? & ? & _) | (_ & msg & ->)]; [by destruct Hbad|].
    by exists msg.
  - intros Hh Hp Hk mu -> Hmu. subst r. unfold s_s_discrete_exact.
    rewrite check_costs_Ok by done. cbn.
    unfold check_demand, check_demand_mean, Qc_leb.
    rewrite bool_decide_eq_false_2; [done|]. by apply Qclt_not_le.
Qed.

(** *** One more unit of horizon *)

(** Two densities built on pmfs that agree below [K] agree below [K]. *)
Lemma renewal_density_agree (K K' : nat) (pmf pmf' mq mq' : list Qc) :
  (K ≤ K')%nat →
  (∀ l, (l < K)%nat → Qc_at pmf l = Qc_at pmf' l) →
  mq !! 0%nat = Some (1 / (1 - Qc_at pmf 0))%Qc →
  mq' !! 0%nat = Some (1 / (1 - Qc_at pmf' 0))%Qc →
  (∀ j, (1 ≤ j ≤ K - 1)%nat →
     mq !! j = Some (Qc_at mq 0 *
       Qc_sum ((λ l, Qc_at pmf l * Qc_at mq (j - l)) <$> seq 1 j))%Qc) →
  (∀ j, (1 ≤ j ≤ K' - 1)%nat →
     mq' !! j = Some (Qc_at mq' 0 *
       Qc_sum ((λ l, Qc_at pmf' l * Qc_at mq' (j - l)) <$> seq 1 j))%Qc) →
  ∀ j, (j < K)%nat → Qc_at mq j = Qc_at mq' j.
Proof.
  intros HK Hpmf H0 H0' Hrec Hrec' j.
  induction j as [j IH] using lt_wf_ind. intros Hj.
  assert (Qc_at mq 0 = Qc_at mq' 0) as Heq0.
  { unfold Qc_at at 1 2. rewrite H0, H0'. simpl. by rewrite Hpmf by lia. }
  destruct (decide (j = 0%nat)) as [->|Hne]; [done|].
  unfold Qc_at at 1 2. rewrite Hrec, Hrec' by lia. simpl. rewrite Heq0. f_equal.
  f_equal. apply list_fmap_ext. intros i l Hl. apply lookup_seq in Hl as [-> Hi].
  rewrite Hpmf by lia. f_equal. apply IH; lia.
Qed.

Section ValidPoisson.

(** A Poisson-variant demand model as the algorithm assumes it: valid
    parameters, non-negative masses with [pmf[0] < 1], and a single-period
    cost [G] that is finite everywhere. *)
Variables (holding_cost stockout_cost fixed_cost mu : Qc) (demand_hi : pyarg)
  (demand_pmf : option (list Qc)) (G : Z → Qc).
Hypothesis Hh : (0 < holding_cost)%Qc.
Hypothesis Hp : (0 < stockout_cost)%Qc.
Hypothesis Hk : (0 < fixed_cost)%Qc.
Hypothesis Hcheck : check_demand (Some mu) demand_hi demand_pmf = Ok tt.
Hypothesis Hnonneg : ∀ k, (0 ≤ poisson_pmf mu k)%Qc.
Hypothesis Hp0 : (poisson_pmf mu 0%nat < 1)%Qc.
Hypothesis HG :
  ∀ y, newsvendor_poisson_cost y holding_cost stockout_cost (Some mu) = Ok (Fin (G y)).

Lemma poisson_values_at (K i : nat) :
  (i < K)%nat → Qc_at (poisson_pmf mu <$> seq 0 K) i = poisson_pmf mu i.
Proof.
  intros Hi. unfold Qc_at. by rewrite list_lookup_fmap, lookup_seq_lt by lia.
Qed.

(** The cost of [(s, S)] as a quotient over the arrays of horizon
    [K = S − s], with their signs. *)
Lemma valid_cost_quotient (s S : Z) :
  s < S →
  let K := Z.to_nat (S - s) in
  let pmf := poisson_pmf mu <$> seq 0 K in
  ∃ mq Mq : list Qc,
    length mq = K ∧ length Mq = Datatypes.S K ∧
    mq !! 0%nat = Some (1 / (1 - Qc_at pmf 0))%Qc ∧
    (∀ j, (1 ≤ j ≤ K - 1)%nat →
       mq !! j = Some (Qc_at mq 0 *
         Qc_sum ((λ l, Qc_at pmf l * Qc_at mq (j - l)) <$> seq 1 j))%Qc) ∧
    (∀ j, (j ≤ K)%nat → Qc_at Mq j = Qc_sum (Qc_at mq <$> seq 0 j)) ∧
    (∀ j, (0 ≤ Qc_at mq j)%Qc) ∧
    (∀ j, (1 ≤ j ≤ K)%nat → (0 < Qc_at Mq j)%Qc) ∧
    cost_discrete s S holding_cost stockout_cost fixed_cost true (Some mu)
      demand_hi demand_pmf
    = Ok (Fin ((fixed_cost +
                Qc_sum ((λ d, Qc_at mq d * G (S - Z.of_nat d))%Qc <$> seq 0 K))
               / Qc_at Mq K)).
Proof.
  intros HsS K pmf.
  destruct (cost_discrete_quotient s S holding_cost stockout_cost fixed_cost true
    (Some mu) demand_hi demand_pmf (PmfArray pmf) (λ d, G (S - Z.of_nat d)))
    as (mq & Mq & _ & _ & Hlm & HlM & Hm0 & Hmrec & HM0 & HMrec & Hcost); try done.
  { simpl. unfold pmf. by rewrite poisson_values_at by lia. }
  { intros d _. apply HG. }
  fold K in Hlm, HlM, Hmrec, HMrec, Hcost. simpl in Hm0, Hmrec. fold K pmf in Hm0, Hmrec.
  destruct (renewal_arrays_positive K pmf mq Mq) as [Hmpos HMpos]; try done.
  { intros i. destruct (decide (i < K)%nat) as [Hi|Hi];
      [unfold pmf; by rewrite poisson_values_at|].
    unfold Qc_at. rewrite (proj2 (lookup_ge_None pmf i)); [done|].
    unfold pmf. rewrite length_fmap, length_seq. lia. }
  { unfold pmf. by rewrite poisson_values_at by lia. }
  exists mq, Mq. split_and!; try done.
  - by apply renewal_function_sum.
  - rewrite Hcost. simpl. rewrite (proj2 (Qc_eqb_neq _ _)); [done|].
    intros Hz. specialize (HMpos K ltac:(lia)). rewrite Hz in HMpos. done.
Qed.

(** X19. The cost formula in the Poisson variant: on a valid model the
    value returned for [s < S] is
    [(fixed_cost + Σ_{d<K} m[d] · G(S − d)) / M[K]], [K = S − s], where [G]
    is the single-period cost the collaborator returns for the demand mean,
    [m] is the sequence given by [m[0] = 1/(1 − pmf[0])] and
    [m[j] = m[0] · Σ_{l=1..j} pmf[l] · m[j−l]] on the Poisson masses, and
    [M[j] = m[0] + ... + m[j−1]]. *)
Theorem poisson_policy_cost_formula (s S : Z) :
  s < S →
  let K := Z.to_nat (S - s) in
  ∃ mq Mq : list Qc,
    length mq = K ∧ length Mq = Datatypes.S K ∧
    mq !! 0%nat = Some (1 / (1 - poisson_pmf mu 0%nat))%Qc ∧
    (∀ j, (1 ≤ j < K)%nat →
       mq !! j = Some (Qc_at mq 0 *
         Qc_sum ((λ l, poisson_pmf mu l * Qc_at mq (j - l)) <$> seq 1 j))%Qc) ∧
    (∀ j, (j ≤ K)%nat → Qc_at Mq j = Qc_sum (Qc_at mq <$> seq 0 j)) ∧
    cost_discrete s S holding_cost stockout_cost fixed_cost true (Some mu)
      demand_hi demand_pmf
    = Ok (Fin ((fixed_cost +
                Qc_sum ((λ d, Qc_at mq d * G (S - Z.of_nat d))%Qc <$> seq 0 K))
               / Qc_at Mq K)).
Proof.
  intros HsS K.
  destruct (valid_cost_quotient s S HsS)
    as (mq & Mq & Hlm & HlM & Hm0 & Hmrec & HMsum & _ & _ & Hcost).
  fold K in Hlm, HlM, Hm0, Hmrec, HMsum, Hcost.
  exists mq, Mq. split_and!; try done.
  - by rewrite poisson_values_at in Hm0 by lia.
  - intros j Hj. rewrite Hmrec by lia. do 3 f_equal.
    apply list_fmap_ext. intros i l [-> Hl]%lookup_seq.
    by rewrite poisson_values_at by lia.
Qed.

(** The step from [(s, S)] to [(s − 1, S)]: with [a = M[K] > 0] and
    [b = m[K] ≥ 0], [c(s−1, S) · (a + b) = c(s, S) · a + b · G(s)]. *)
Lemma valid_cost_step (s S : Z) :
  s < S →
  ∃ c c' a b : Qc,
    cost_discrete s S holding_cost stockout_cost fixed_cost true (Some mu)
      demand_hi demand_pmf = Ok (Fin c) ∧
    cost_discrete (s - 1) S holding_cost stockout_cost fixed_cost true (Some mu)
      demand_hi demand_pmf = Ok (Fin c') ∧
    (0 < a)%Qc ∧ (0 ≤ b)%Qc ∧
    (c' * (a + b) = c * a + b * G s)%Qc.
Proof.
  intros HsS.
  destruct (valid_cost_quotient s S HsS)
    as (mq & Mq & Hlm & HlM & Hm0 & Hmrec & HMsum & _ & HMpos & Hc).
  destruct (valid_cost_quotient (s - 1) S ltac:(lia))
    as (mq' & Mq' & Hlm' & HlM' & Hm0' & Hmrec' & HMsum' & Hmpos' & HMpos' & Hc').
  set (K := Z.to_nat (S - s)) in *.
  replace (Z.to_nat (S - (s - 1))) with (Datatypes.S K) in * by lia.
  assert (∀ j, (j < K)%nat → Qc_at mq j = Qc_at mq' j) as Hagree.
  { apply (renewal_density_agree K (Datatypes.S K)
      (poisson_pmf mu <$> seq 0 K) (poisson_pmf mu <$> seq 0 (Datatypes.S K)));
      try done; [lia|].
    intros l Hl. by rewrite !poisson_values_at by lia. }
  assert (Qc_at Mq K = Qc_at Mq' K) as HMK.
  { rewrite HMsum, HMsum' by lia. f_equal. apply list_fmap_ext.
    intros i d Hd. apply lookup_seq in Hd as [-> Hi]. by apply Hagree. }
  assert (Qc_at Mq' (Datatypes.S K) = Qc_at Mq' K + Qc_at mq' K)%Qc as HMS.
  { rewrite (HMsum' (Datatypes.S K)), (HMsum' K) by lia.
    rewrite seq_S, fmap_app. change (Qc_at mq' <$> [(0 + K)%nat]) with [Qc_at mq' K].
    by rewrite Qc_sum_snoc. }
  pose proof (HMpos' K ltac:(lia)) as Ha.
  pose proof (HMpos' (Datatypes.S K) ltac:(lia)) as Hab.
  eexists _, _, (Qc_at Mq' K), (Qc_at mq' K).
  split; [exact Hc|]. split; [exact Hc'|]. split; [done|]. split; [done|].
  rewrite <- HMS, HMK.
  assert (Qc_at Mq' K ≠ 0%Qc) as Hane by (intros Hz; rewrite Hz in Ha; done).
  assert (Qc_at Mq' (Datatypes.S K) ≠ 0%Qc) as Habne
    by (intros Hz; rewrite Hz in Hab; done).
  rewrite !(Qcmult_comm (_ / _)), !Qcmult_div_r by done.
  rewrite seq_S, fmap_app.
  change ((λ d, Qc_at mq' d * G (S - Z.of_nat d))%Qc <$> [(0 + K)%nat])
    with [(Qc_at mq' K * G (S - Z.of_nat K))%Qc].
  rewrite Qc_sum_snoc. replace (S - Z.of_nat K) with s by lia.
  replace (Qc_sum ((λ d, Qc_at mq' d * G (S - Z.of_nat d))%Qc <$> seq 0 K))
    with (Qc_sum ((λ d, Qc_at mq d * G (S - Z.of_nat d))%Qc <$> seq 0 K)); [ring|].
  f_equal. apply list_fmap_ext.
  intros i d Hd. apply lookup_seq in Hd as [-> Hi]. by rewrite Hagree.
Qed.

(** X10. On a valid Poisson-variant model, moving the reorder point one
    unit down mixes in the single-period cost at the old reorder point:
    [c(s−1, S) = α · c(s, S) + (1 − α) · G(s)] with a weight
    [0 < α ≤ 1] (namely [M[K] / M[K+1]], [K = S − s]). *)
Theorem policy_cost_convex_step (s S : Z) :
  s < S →
  ∃ c c' α : Qc,
    s_s_cost_discrete poisson_pmf newsvendor_poisson_cost newsvendor_discrete
      s S holding_cost stockout_cost fixed_cost true (Some mu)
      demand_hi demand_pmf = Ok (Fin c) ∧
    s_s_cost_discrete poisson_pmf newsvendor_poisson_cost newsvendor_discrete
      (s - 1) S holding_cost stockout_cost fixed_cost true (Some mu)
      demand_hi demand_pmf = Ok (Fin c') ∧
    (0 < α)%Qc ∧ (α ≤ 1)%Qc ∧
    (c' = α * c + (1 - α) * G s)%Qc.
Proof.
  intros HsS.
  destruct (valid_cost_step s S HsS) as (c & c' & a & b & Hc & Hc' & Ha & Hb & Hid).
  assert (0 < a + b)%Qc as Hab by (by apply Qcplus_pos_nonneg).
  assert ((a + b)%Qc ≠ 0%Qc) as Hne by (intros Hz; rewrite Hz in Hab; done).
  exists c, c', (a / (a + b))%Qc. split; [done|]. split; [done|]. split_and!.
  - apply Qcmult_pos_pos; [done | by apply Qcinv_pos].
  - apply (Qcmult_le_mono_pos_r _ _ (a + b) Hab).
    rewrite (Qcmult_comm (_ / _)), Qcmult_div_r, Qcmult_1_l by done.
    rewrite <- (Qcplus_0_r a) at 1. by apply Qcplus_le_mono_l.
  - transitivity ((c' * (a + b)) / (a + b))%Qc; [by field|].
    rewrite Hid. by field.
Qed.





End ValidPoisson.

End MoreProperties.

(** X12. The arrays of a shorter horizon are prefixes of those of a longer
    one: for a pmf [pmf'] with [pmf'[0] < 1] and [1 ≤ K ≤ K' = len(pmf')],
    the arrays built from its first [K] entries are the first [K] entries
    of [m] and the first [K + 1] entries of [M] built from all of it. *)
Theorem renewal_arrays_prefix (K K' : nat) (pmf' : list Qc) (array : bool) :
  (1 ≤ K ≤ K')%nat → length pmf' = K' → (Qc_at pmf' 0 < 1)%Qc →
  let kind := λ l, if array then PmfArray l else PmfList l in
  ∃ mq Mq mq' Mq' : list Qc,
    calc_m (Z.of_nat K) (kind (take K pmf')) = Ok (Fin <$> mq) ∧
    calc_M (Z.of_nat K) (Fin <$> mq) = Ok (Fin <$> Mq) ∧
    calc_m (Z.of_nat K') (kind pmf') = Ok (Fin <$> mq') ∧
    calc_M (Z.of_nat K') (Fin <$> mq') = Ok (Fin <$> Mq') ∧
    mq = take K mq' ∧ Mq = take (S K) Mq'.
Proof.
  intros HK Hlen Hp0 kind.
  assert (∀ l, (l < K)%nat → Qc_at (take K pmf') l = Qc_at pmf' l) as Htake.
  { intros l Hl. unfold Qc_at. by rewrite lookup_take_lt. }
  destruct (renewal_arrays_finite K (take K pmf') (kind (take K pmf')))
    as (mq & Mq & Hm & HM & Hlm & HlM & Hm0 & Hmrec & HM0 & HMrec & _);
    [lia | rewrite length_take; lia | by rewrite Htake by lia
    | unfold kind; destruct array; auto |].
  destruct (renewal_arrays_finite K' pmf' (kind pmf'))
    as (mq' & Mq' & Hm' & HM' & Hlm' & HlM' & Hm0' & Hmrec' & HM0' & HMrec' & _);
    [lia | done | done | unfold kind; destruct array; auto |].
  exists mq, Mq, mq', Mq'. split_and!; try done.
  - apply list_eq. intros j. destruct (decide (j < K)%nat) as [Hj|Hj].
    + rewrite lookup_take_lt by done.
      pose proof (renewal_density_agree K K' (take K pmf') pmf' mq mq'
        ltac:(lia) Htake Hm0 Hm0' Hmrec Hmrec' j Hj) as Heq.
      unfold Qc_at in Heq.
      destruct (lookup_lt_is_Some_2 mq j ltac:(lia)) as [x Hx].
      destruct (lookup_lt_is_Some_2 mq' j ltac:(lia)) as [y Hy].
      rewrite Hx, Hy in *. simpl in Heq. by rewrite Heq.
    + rewrite lookup_take_ge by lia. apply lookup_ge_None. lia.
  - apply list_eq. intros j. destruct (decide (j ≤ K)%nat) as [Hj|Hj].
    + rewrite lookup_take_lt by lia.
      assert (Qc_at Mq j = Qc_at Mq' j) as Heq.
      { rewrite (renewal_function_sum K mq Mq HM0 HMrec j Hj).
        rewrite (renewal_function_sum K' mq' Mq' HM0' HMrec' j) by lia.
        f_equal. apply list_fmap_ext. intros i d Hd.
        apply lookup_seq in Hd as [-> Hi].
        apply (renewal_density_agree K K' (take K pmf') pmf' mq mq'
          ltac:(lia) Htake Hm0 Hm0' Hmrec Hmrec'). lia. }
      unfold Qc_at in Heq.
      destruct (lookup_lt_is_Some_2 Mq j ltac:(lia)) as [x Hx].
      destruct (lookup_lt_is_Some_2 Mq' j ltac:(lia)) as [y Hy].
      rewrite Hx, Hy in *. simpl in Heq. by rewrite Heq.
    + rewrite lookup_take_ge by lia. apply lookup_ge_None. lia.
Qed.

(** * The discrete loss functions *)

Lemma sorted_keys_lookup (pmf : gmap Z Qc) (y : Z) :
  y ∈ sorted_keys pmf ↔ is_Some (pmf !! y).
Proof.
  unfold sorted_keys. rewrite merge_sort_Permutation, list_elem_of_fmap. split.
  - intros ([k v] & -> & Hkv%elem_of_map_to_list). by exists v.
  - intros [v Hv]. exists (y, v). split; [done|]. by apply elem_of_map_to_list.
Qed.

Lemma dict_get_at (pmf : gmap Z Qc) (y : Z) :
  y ∈ sorted_keys pmf → dict_get pmf y = Ok (dict_at pmf y).
Proof.
  intros [v Hv]%sorted_keys_lookup. unfold dict_get, dict_at. by rewrite Hv.
Qed.

(** What the pmf branch returns: the two sums of lines 456-457. *)
Lemma discrete_loss_pmf_value (x : Z) (pmf : gmap Z Qc) :
  discrete_loss x None (Some pmf)
  = Ok (Qc_sum ((λ y, Qc_of_Z (y - x) * dict_at pmf y)%Qc
                  <$> filter (λ y, x ≤ y) (sorted_keys pmf)),
        Qc_sum ((λ y, Qc_of_Z (x - y) * dict_at pmf y)%Qc
                  <$> filter (λ y, y ≤ x) (sorted_keys pmf))).
Proof.
  unfold discrete_loss. simpl.
  rewrite (res_mapM_Ok (λ y, dict_get pmf y ≫= λ v, Ok (Qc_of_Z (y - x) * v)%Qc)
             (λ y, Qc_of_Z (y - x) * dict_at pmf y)%Qc).
  2:{ intros y [_ Hy]%list_elem_of_filter. by rewrite dict_get_at. }
  simpl.
  rewrite (res_mapM_Ok (λ y, dict_get pmf y ≫= λ v, Ok (Qc_of_Z (x - y) * v)%Qc)
             (λ y, Qc_of_Z (x - y) * dict_at pmf y)%Qc).
  2:{ intros y [_ Hy]%list_elem_of_filter. by rewrite dict_get_at. }
  done.
Qed.

Lemma loss_sum_split (x : Z) (p : Z → Qc) (L : list Z) :
  (Qc_sum ((λ y, Qc_of_Z (y - x) * p y) <$> filter (λ y, (x ≤ y)%Z) L)
   - Qc_sum ((λ y, Qc_of_Z (x - y) * p y) <$> filter (λ y, (y ≤ x)%Z) L)
   = Qc_sum ((λ y, Qc_of_Z (y - x) * p y) <$> L))%Qc.
Proof.
  induction L as [|y L IH]; [simpl; ring|].
  rewrite !filter_cons, fmap_cons.
  change (Qc_sum (?a :: ?l)) with (a + Qc_sum l)%Qc. rewrite <- IH.
  assert (Qc_of_Z (x - y) = - Qc_of_Z (y - x))%Qc as Hopp.
  { rewrite <- Z2Qc_inj_opp. f_equal. lia. }
  destruct (decide (x ≤ y)), (decide (y ≤ x)); rewrite ?fmap_cons;
    repeat change (Qc_sum (?a :: ?l)) with (a + Qc_sum l)%Qc.
  - rewrite Hopp. assert (y - x = 0) as -> by lia. rewrite Z2Qc_inj_0. ring.
  - ring.
  - rewrite Hopp. ring.
  - lia.
Qed.

Lemma loss_sum_linear (x : Z) (p : Z → Qc) (L : list Z) :
  (Qc_sum ((λ y, Qc_of_Z (y - x) * p y) <$> L)
   = Qc_sum ((λ y, Qc_of_Z y * p y) <$> L) - Qc_of_Z x * Qc_sum (p <$> L))%Qc.
Proof.
  induction L as [|y L IH]; [simpl; ring|].
  rewrite !fmap_cons.
  repeat change (Qc_sum (?a :: ?l)) with (a + Qc_sum l)%Qc.
  rewrite IH, Z2Qc_inj_sub. ring.
Qed.

Lemma discrete_loss_pmf_identity_aux (x : Z) (pmf : gmap Z Qc) :
  ∃ n n_bar : Qc,
    discrete_loss x None (Some pmf) = Ok (n, n_bar) ∧
    (n_bar = n + Qc_of_Z x * dict_mass pmf - dict_mean pmf)%Qc.
Proof.
  rewrite discrete_loss_pmf_value. eexists _, _. split; [done|].
  pose proof (loss_sum_split x (dict_at pmf) (sorted_keys pmf)) as Hsplit.
  rewrite (loss_sum_linear x (dict_at pmf) (sorted_keys pmf)) in Hsplit.
  fold (dict_mean pmf) (dict_mass pmf) in Hsplit.
  set (n := Qc_sum (_ <$> filter (λ y, x ≤ y) _)) in *.
  set (n_bar := Qc_sum (_ <$> filter (λ y, y ≤ x) _)) in *.
  replace n_bar with (n - (n - n_bar))%Qc by ring. rewrite Hsplit. ring.
Qed.

(** X13. On a pmf dictionary the two values [discrete_loss] returns are
    tied by [n̄(x) = n(x) + x · mass − mean], where [mass] and [mean] are the
    total mass and the first moment of the dictionary; for a pmf that sums
    to one this is the identity [n̄(x) = x − E[X] + n(x)]. *)
Theorem discrete_loss_pmf_identity (x : Z) (pmf : gmap Z Qc) :
  ∃ n n_bar : Qc,
    discrete_loss x None (Some pmf) = Ok (n, n_bar) ∧
    (n_bar = n + Qc_of_Z x * dict_mass pmf - dict_mean pmf)%Qc ∧
    (dict_mass pmf = 1%Qc → n_bar = Qc_of_Z x - dict_mean pmf + n)%Qc.
Proof.
  destruct (discrete_loss_pmf_identity_aux x pmf) as (n & n_bar & Hv & Hid).
  exists n, n_bar. split; [done|]. split; [done|].
  intros H1. rewrite Hid, H1. ring.
Qed.

Lemma Qc_of_Z_nonneg (z : Z) : 0 ≤ z → (0 ≤ Qc_of_Z z)%Qc.
Proof. intros Hz. rewrite <- Z2Qc_inj_0. exact (proj1 (Z2Qc_inj_le 0 z) Hz). Qed.

(** X14. On a dictionary of non-negative masses both values are
    non-negative; at or below the least key the complementary loss [n̄] is
    0, and at or above the greatest key the loss [n] is 0. *)
Theorem discrete_loss_pmf_nonneg (x : Z) (pmf : gmap Z Qc) :
  map_Forall (λ _ v, (0 ≤ v)%Qc) pmf →
  ∃ n n_bar : Qc,
    discrete_loss x None (Some pmf) = Ok (n, n_bar) ∧
    (0 ≤ n)%Qc ∧ (0 ≤ n_bar)%Qc ∧
    ((∀ y, is_Some (pmf !! y) → x ≤ y) → n_bar = 0%Qc) ∧
    ((∀ y, is_Some (pmf !! y) → y ≤ x) → n = 0%Qc).
Proof.
  intros Hnn. rewrite discrete_loss_pmf_value. eexists _, _. split; [done|].
  assert (∀ y, (0 ≤ dict_at pmf y)%Qc) as Hat.
  { intros y. unfold dict_at. destruct (pmf !! y) eqn:E; [exact (Hnn y _ E) | done]. }
  split_and!.
  - apply Qc_sum_nonneg. intros q (y & -> & [Hy _]%list_elem_of_filter)%list_elem_of_fmap.
    apply Qcmult_nonneg_nonneg; [apply Qc_of_Z_nonneg; lia | done].
  - apply Qc_sum_nonneg. intros q (y & -> & [Hy _]%list_elem_of_filter)%list_elem_of_fmap.
    apply Qcmult_nonneg_nonneg; [apply Qc_of_Z_nonneg; lia | done].
  - intros Hlow. apply Qc_sum_zero.
    intros y [Hy Hin%sorted_keys_lookup]%list_elem_of_filter.
    assert (x - y = 0) as -> by (specialize (Hlow y Hin); lia).
    rewrite Z2Qc_inj_0. ring.
  - intros Hhigh. apply Qc_sum_zero.
    intros y [Hy Hin%sorted_keys_lookup]%list_elem_of_filter.
    assert (y - x = 0) as -> by (specialize (Hhigh y Hin); lia).
    rewrite Z2Qc_inj_0. ring.
Qed.

(** ** The distribution branch *)

Lemma cdf_sum_S (F : Z → Qc) (n : nat) :
  Qc_sum (F <$> (Z.of_nat <$> seq 0 (S n)))
  = (Qc_sum (F <$> (Z.of_nat <$> seq 0 n)) + F (Z.of_nat n))%Qc.
Proof.
  rewrite seq_S, !fmap_app.
  change (F <$> (Z.of_nat <$> [(0 + n)%nat])) with [F (Z.of_nat n)].
  apply Qc_sum_snoc.
Qed.

(** X15. With a distribution object [discrete_loss] never fails and ignores
    the pmf argument; it returns [n = n̄ − x + E[X]] with [n̄(x) = 0] for
    [x ≤ 0], and going from [x ≥ 0] to [x + 1] adds [F(x)] to [n̄] and
    takes [1 − F(x)] from [n]. With neither argument it fails with its
    assertion. *)
Theorem discrete_loss_distrib_differences
    (x : Z) (d : rv_discrete) (pmf : option (gmap Z Qc)) :
  discrete_loss x None None
  = Raise (AssertionError "must provide distrib or pmf") ∧
  discrete_loss x (Some d) pmf = discrete_loss x (Some d) None ∧
  ∃ n n_bar : Qc,
    discrete_loss x (Some d) pmf = Ok (n, n_bar) ∧
    (n = n_bar - Qc_of_Z x + rv_mean d)%Qc ∧
    (x ≤ 0 → n_bar = 0%Qc) ∧
    (0 ≤ x →
     discrete_loss (x + 1) (Some d) pmf
     = Ok (n - (1 - rv_cdf d x), n_bar + rv_cdf d x)%Qc).
Proof.
  split; [done|]. split; [by destruct pmf|].
  eexists _, _. split; [by destruct pmf|]. split; [done|]. split.
  - intros Hx. by replace (Z.to_nat x) with 0%nat by lia.
  - intros Hx. unfold discrete_loss.
    replace (Z.to_nat (x + 1)) with (S (Z.to_nat x)) by lia.
    rewrite cdf_sum_S, Z2Nat.id by done.
    rewrite Z2Qc_inj_add, Z2Qc_inj_1. destruct pmf; simpl; do 2 f_equal; ring.
Qed.

Lemma py_divide_Ok (a b : Qc) : b ≠ 0%Qc → py_divide a b = Ok (a / b)%Qc.
Proof. intros Hb. unfold py_divide. by rewrite (proj2 (Qc_eqb_neq b 0) Hb). Qed.

Lemma py_divide_zero (a b : Qc) :
  b = 0%Qc → py_divide a b = Raise ZeroDivisionError.
Proof. intros Hb. unfold py_divide. by rewrite (proj2 (Qc_eqb_eq b 0) Hb). Qed.

Lemma py_divide_cases (a b : Qc) :
  py_divide a b = Ok (a / b)%Qc ∨ py_divide a b = Raise ZeroDivisionError.
Proof. unfold py_divide. destruct (Qc_eqb b 0); auto. Qed.

(** X16. [negative_binomial_loss] fails with [ZeroDivisionError] exactly
    when [sd² = mean] or [sd = 0]; otherwise it is [discrete_loss] at the
    negative binomial distribution with parameters
    [r = mean² / (sd² − mean)] and [p = mean / sd²], the quotient [beta]
    being computed without failing and never used. *)
Theorem negative_binomial_loss_parameters
    (nbinom : Qc → Qc → rv_discrete) (x : Z) (mean sd : Qc) :
  ((sd * sd = mean ∨ sd = 0)%Qc →
   negative_binomial_loss nbinom x mean sd = Raise ZeroDivisionError) ∧
  ((sd * sd ≠ mean ∧ sd ≠ 0)%Qc →
   negative_binomial_loss nbinom x mean sd
   = discrete_loss x
       (Some (nbinom (mean * mean / (sd * sd - mean)) (mean / (sd * sd)))%Qc) None).
Proof.
  unfold negative_binomial_loss. split.
  - intros [Heq | H0].
    + rewrite (bind_Raise _ _ ZeroDivisionError); [done|].
      apply py_divide_zero. rewrite Heq. ring.
    + destruct (py_divide_cases (1 * (mean * mean)) (sd * sd - mean))
        as [-> | ->]; [|done].
      rewrite (bind_Ok _ _ _ eq_refl).
      rewrite (bind_Raise _ _ ZeroDivisionError); [done|].
      apply py_divide_zero. rewrite H0. ring.
  - intros [Hne H0].
    assert (sd * sd - mean ≠ 0)%Qc as Hd.
    { intros E. apply Hne. rewrite <- (Qcplus_0_l mean), <- E. ring. }
    assert (sd * sd ≠ 0)%Qc as Hs.
    { intros E. destruct (Qcmult_integral _ _ E); done. }
    assert (1 - (sd * sd - mean) / (sd * sd) = mean / (sd * sd))%Qc as Hp
      by (field; exact H0).
    assert (1 - (1 - (sd * sd - mean) / (sd * sd)) ≠ 0)%Qc as Hb.
    { replace (1 - (1 - (sd * sd - mean) / (sd * sd)))%Qc
        with ((sd * sd - mean) / (sd * sd))%Qc by ring.
      intros E. apply Hd.
      rewrite <- (Qcmult_div_r (sd * sd - mean) (sd * sd)) by exact Hs.
      rewrite E. ring. }
    rewrite (bind_Ok _ _ _ (py_divide_Ok _ _ Hd)).
    rewrite (bind_Ok _ _ _ (py_divide_Ok _ _ Hs)).
    rewrite (bind_Ok _ _ _ (py_divide_Ok _ _ Hb)).
    rewrite Hp. by rewrite Qcmult_1_l.
Qed.

(** X17. The two values of [poisson_loss] differ by [x − mean], whatever
    the distribution function and the mass function return. *)
Theorem poisson_loss_complement
    (poisson_cdf poisson_mass : Z → Qc → Qc) (x : Z) (mean : Qc) :
  ((poisson_loss poisson_cdf poisson_mass x mean).2
   = (poisson_loss poisson_cdf poisson_mass x mean).1 + (Qc_of_Z x - mean))%Qc.
Proof. unfold poisson_loss. simpl. ring. Qed.

(** ** The two branches compared *)

Lemma nbar_pmf_step (x : Z) (p : Z → Qc) (L : list Z) :
  (Qc_sum ((λ y, Qc_of_Z (x + 1 - y) * p y) <$> filter (λ y, (y ≤ x + 1)%Z) L)
   = Qc_sum ((λ y, Qc_of_Z (x - y) * p y) <$> filter (λ y, (y ≤ x)%Z) L)
     + Qc_sum (p <$> filter (λ y, (y ≤ x)%Z) L))%Qc.
Proof.
  induction L as [|y L IH]; [simpl; ring|].
  rewrite !filter_cons.
  destruct (decide (y ≤ x + 1)), (decide (y ≤ x)); rewrite ?fmap_cons;
    repeat change (Qc_sum (?a :: ?l)) with (a + Qc_sum l)%Qc; rewrite IH.
  - replace (x + 1 - y) with ((x - y) + 1) by lia.
    rewrite Z2Qc_inj_add, Z2Qc_inj_1. ring.
  - assert (x + 1 - y = 0) as -> by lia. rewrite Z2Qc_inj_0. ring.
  - lia.
  - done.
Qed.

Lemma nbar_distrib_pmf (d : rv_discrete) (pmf : gmap Z Qc) (n : nat) :
  Forall (λ y, 0 ≤ y) (sorted_keys pmf) →
  (∀ y, 0 ≤ y → rv_cdf d y = dict_cdf pmf y) →
  Qc_sum (rv_cdf d <$> (Z.of_nat <$> seq 0 n))
  = Qc_sum ((λ y, Qc_of_Z (Z.of_nat n - y) * dict_at pmf y)%Qc
              <$> filter (λ y, y ≤ Z.of_nat n) (sorted_keys pmf)).
Proof.
  intros Hkeys Hcdf. induction n as [|n IH].
  - symmetry. apply Qc_sum_zero.
    intros y [Hy Hin]%list_elem_of_filter.
    rewrite Forall_forall in Hkeys. specialize (Hkeys y Hin).
    assert (Z.of_nat 0 - y = 0) as -> by lia. rewrite Z2Qc_inj_0. ring.
  - rewrite cdf_sum_S, IH, Hcdf by lia.
    replace (Z.of_nat (S n)) with (Z.of_nat n + 1) by lia.
    by rewrite (nbar_pmf_step (Z.of_nat n) (dict_at pmf)).
Qed.

(** X18. The two branches of [discrete_loss] agree: for a pmf dictionary
    with non-negative keys and a distribution object whose distribution
    function on [y ≥ 0] and whose mean are those of the dictionary, the
    complementary loss [n̄] is the same on both branches, and so is the
    loss [n] when the dictionary has total mass one; in general the two
    losses differ by [x · (mass − 1)]. *)
Theorem discrete_loss_branches_agree
    (x : Z) (d : rv_discrete) (pmf : gmap Z Qc) :
  Forall (λ y, 0 ≤ y) (sorted_keys pmf) →
  (∀ y, 0 ≤ y → rv_cdf d y = dict_cdf pmf y) →
  rv_mean d = dict_mean pmf →
  ∃ n n' n_bar : Qc,
    discrete_loss x (Some d) None = Ok (n, n_bar) ∧
    discrete_loss x None (Some pmf) = Ok (n', n_bar) ∧
    (n' = n + Qc_of_Z x * (1 - dict_mass pmf))%Qc ∧
    (dict_mass pmf = 1%Qc → n' = n).
Proof.
  intros Hkeys Hcdf Hmean.
  destruct (discrete_loss_pmf_identity_aux x pmf) as (n' & n_bar & Hpmf & Hid).
  assert (Qc_sum (rv_cdf d <$> (Z.of_nat <$> seq 0 (Z.to_nat x))) = n_bar) as Hbar.
  { rewrite discrete_loss_pmf_value in Hpmf. injection Hpmf as _ <-.
    destruct (decide (0 ≤ x)) as [Hx|Hx].
    - rewrite (nbar_distrib_pmf d pmf) by done. by rewrite Z2Nat.id.
    - replace (Z.to_nat x) with 0%nat by lia. symmetry. apply Qc_sum_zero.
      intros y [Hy Hin]%list_elem_of_filter.
      rewrite Forall_forall in Hkeys. specialize (Hkeys y Hin). lia. }
  eexists _, n', n_bar. split; [|split; [exact Hpmf|]].
  - unfold discrete_loss. simpl. rewrite Hbar. reflexivity.
  - rewrite Hmean.
    assert (n' = n_bar - Qc_of_Z x + dict_mean pmf
                 + Qc_of_Z x * (1 - dict_mass pmf))%Qc as Hn by (rewrite Hid; ring).
    split; [done|]. intros H1. rewrite Hn at 1. rewrite H1. ring.
Qed.

(** * Evaluation of the further properties *)

(** Witness of X2: the density of the pmf [1/4, 1/2, 1/4]. *)
Lemma renewal_density_equation_witness :
  ∃ mq : list Qc,
    calc_m 3 (PmfList tri_pmf) = Ok (Fin <$> mq) ∧
    length mq = 3%nat ∧
    Qc_at mq 0 = (1 + Qc_at tri_pmf 0 * Qc_at mq 0)%Qc ∧
    ∀ j, (1 ≤ j < 3)%nat →
      Qc_at mq j
      = Qc_sum ((λ l, Qc_at tri_pmf l * Qc_at mq (j - l))%Qc <$> seq 0 (S j)).
Proof.
  apply (renewal_density_equation 3 tri_pmf (PmfList tri_pmf));
    [lia | reflexivity | by_evaluation | by right].
Defined.


(** Witness of X4: the policy [(1, 2)] on the three-point demand. *)
Lemma adjacent_policy_cost_witness :
  tri_cost_discrete (2 - 1) 2 1%Qc (Qc_frac 4 1) (Qc_frac 5 1) true (Some 1%Qc)
    PyNone None
  = Ok (Fin (Qc_frac 5 1 * (1 - Qc_at (pmf_values (PmfArray (tri_mass 1 <$> seq 0 1))) 0)
             + tri_cost 1 (Qc_frac 4 1) 2)).
Proof.
  apply (adjacent_policy_cost tri_mass tri_newsvendor_poisson_cost
           dict_newsvendor_discrete 2 1%Qc (Qc_frac 4 1) (Qc_frac 5 1) true
           (Some 1%Qc) PyNone None (PmfArray (tri_mass 1 <$> seq 0 1))
           (tri_cost 1 (Qc_frac 4 1) 2));
    [reflexivity | reflexivity | reflexivity | reflexivity | reflexivity
    | by_evaluation | reflexivity].
Defined.

Local Abbreviation zero_cost_discrete :=
  (s_s_cost_discrete zero_mass zero_newsvendor_poisson_cost dict_newsvendor_discrete).
Local Abbreviation zero_discrete_exact :=
  (s_s_discrete_exact zero_mass zero_newsvendor_poisson zero_newsvendor_poisson_cost
     dict_newsvendor_discrete).

(** Witness of X5: Poisson demand of mean 0. *)
Lemma poisson_mass_one_cost_is_nan_witness :
  zero_cost_discrete 0 2 1%Qc (Qc_frac 4 1) (Qc_frac 5 1) true (Some 0%Qc)
    PyNone None = Ok NaN.
Proof.
  apply (poisson_mass_one_cost_is_nan zero_mass zero_newsvendor_poisson_cost
           dict_newsvendor_discrete 0 2 1%Qc (Qc_frac 4 1) (Qc_frac 5 1) 0%Qc
           PyNone None);
    [lia | reflexivity | reflexivity | reflexivity | reflexivity | reflexivity|].
  intros y _. eexists. reflexivity.
Defined.

(** Witness of X6: the search on Poisson demand of mean 0. *)
Lemma poisson_mass_one_search_runs_forever_witness :
  runs_forever (λ fuel,
    zero_discrete_exact fuel 1%Qc (Qc_frac 4 1) (Qc_frac 5 1) true (Some 0%Qc)
      PyNone None).
Proof.
  apply (poisson_mass_one_search_runs_forever zero_mass zero_newsvendor_poisson
           zero_newsvendor_poisson_cost dict_newsvendor_discrete 1%Qc
           (Qc_frac 4 1) (Qc_frac 5 1) 0%Qc PyNone None 0
           (Fin (overage_underage 1 (Qc_frac 4 1) 0 0)));
    [reflexivity | reflexivity | reflexivity | reflexivity | reflexivity
    | reflexivity |].
  intros y _. eexists. reflexivity.
Defined.

Lemma tri_search_result :
  tri_discrete_exact 20 1%Qc (Qc_frac 4 1) (Qc_frac 5 1) true (Some 1%Qc)
    PyNone None = Done (Ok (0, 3, Fin (Qc_frac 133 44))).
Proof. by_evaluation. Qed.

(** Witness of X7: the triple returned on the three-point demand. *)
Lemma returned_triple_is_a_policy_witness :
  true = true ∧ 0 < 3 ∧
  ∃ (y_star : Z) (c0 : fl),
    tri_newsvendor_poisson 1%Qc (Qc_frac 4 1) (Some 1%Qc) = Ok (y_star, c0) ∧
    y_star ≤ 3.
Proof.
  exact (returned_triple_is_a_policy tri_mass tri_newsvendor_poisson
           tri_newsvendor_poisson_cost dict_newsvendor_discrete 20 1%Qc
           (Qc_frac 4 1) (Qc_frac 5 1) true (Some 1%Qc) PyNone None 0 3
           (Fin (Qc_frac 133 44)) tri_search_result).
Defined.

(** Witness of X10: the policies [(0, 2)] and [(-1, 2)] on the three-point
    demand. *)
Lemma policy_cost_convex_step_witness :
  ∃ c c' α : Qc,
    tri_cost_discrete 0 2 1%Qc (Qc_frac 4 1) (Qc_frac 5 1) true (Some 1%Qc)
      PyNone None = Ok (Fin c) ∧
    tri_cost_discrete (0 - 1) 2 1%Qc (Qc_frac 4 1) (Qc_frac 5 1) true (Some 1%Qc)
      PyNone None = Ok (Fin c') ∧
    (0 < α)%Qc ∧ (α ≤ 1)%Qc ∧
    c' = (α * c + (1 - α) * tri_cost 1 (Qc_frac 4 1) 0)%Qc.
Proof.
  apply (policy_cost_convex_step tri_mass tri_newsvendor_poisson_cost
           dict_newsvendor_discrete 1%Qc (Qc_frac 4 1) (Qc_frac 5 1) 1%Qc
           PyNone None (tri_cost 1 (Qc_frac 4 1)));
    [reflexivity | reflexivity | reflexivity | reflexivity
    | apply tri_mass_nonneg | by_evaluation | reflexivity | lia].
Defined.


(** Witness of X12: the horizons 2 and 3 on the pmf [1/4, 1/2, 1/4]. *)
Lemma renewal_arrays_prefix_witness :
  ∃ mq Mq mq' Mq' : list Qc,
    calc_m 2 (PmfList (take 2 tri_pmf)) = Ok (Fin <$> mq) ∧
    calc_M 2 (Fin <$> mq) = Ok (Fin <$> Mq) ∧
    calc_m 3 (PmfList tri_pmf) = Ok (Fin <$> mq') ∧
    calc_M 3 (Fin <$> mq') = Ok (Fin <$> Mq') ∧
    mq = take 2 mq' ∧ Mq = take 3 Mq'.
Proof.
  apply (renewal_arrays_prefix 2 3 tri_pmf false);
    [lia | reflexivity | by_evaluation].
Defined.

(** Witness of X14: the dictionary [{0: 1/4, 1: 1/2, 2: 1/4}] at [x = 1]. *)
Lemma discrete_loss_pmf_nonneg_witness :
  ∃ n n_bar : Qc,
    discrete_loss 1 None (Some tri_dict) = Ok (n, n_bar) ∧
    (0 ≤ n)%Qc ∧ (0 ≤ n_bar)%Qc ∧
    ((∀ y, is_Some (tri_dict !! y) → 1 ≤ y) → n_bar = 0%Qc) ∧
    ((∀ y, is_Some (tri_dict !! y) → y ≤ 1) → n = 0%Qc).
Proof.
  apply (discrete_loss_pmf_nonneg 1 tri_dict). by_evaluation.
Defined.

Example discrete_loss_example :
  discrete_loss 1 None (Some tri_dict) = Ok (Qc_frac 1 4, Qc_frac 1 4) ∧
  discrete_loss 1 (Some tri_distrib) None = Ok (Qc_frac 1 4, Qc_frac 1 4).
Proof. split; by_evaluation. Qed.

(** Witness of X18: the same dictionary against the distribution object
    built from its distribution function and mean. *)
Lemma discrete_loss_branches_agree_witness :
  ∃ n n' n_bar : Qc,
    discrete_loss 1 (Some tri_distrib) None = Ok (n, n_bar) ∧
    discrete_loss 1 None (Some tri_dict) = Ok (n', n_bar) ∧
    (n' = n + Qc_of_Z 1 * (1 - dict_mass tri_dict))%Qc ∧
    (dict_mass tri_dict = 1%Qc → n' = n).
Proof.
  apply (discrete_loss_branches_agree 1 tri_distrib tri_dict);
    [by_evaluation | intros y _; reflexivity | reflexivity].
Defined.

(** Witness of X19: the policy [(0, 2)] on the three-point demand. *)
Lemma poisson_policy_cost_formula_witness :
  ∃ mq Mq : list Qc,
    length mq = 2%nat ∧ length Mq = 3%nat ∧
    mq !! 0%nat = Some (1 / (1 - tri_mass 1 0%nat))%Qc ∧
    (∀ j, (1 ≤ j < 2)%nat →
       mq !! j = Some (Qc_at mq 0 *
         Qc_sum ((λ l, tri_mass 1 l * Qc_at mq (j - l)) <$> seq 1 j))%Qc) ∧
    (∀ j, (j ≤ 2)%nat → Qc_at Mq j = Qc_sum (Qc_at mq <$> seq 0 j)) ∧
    tri_cost_discrete 0 2 1%Qc (Qc_frac 4 1) (Qc_frac 5 1) true (Some 1%Qc)
      PyNone None
    = Ok (Fin ((Qc_frac 5 1 +
                Qc_sum ((λ d, Qc_at mq d * tri_cost 1 (Qc_frac 4 1) (2 - Z.of_nat d))%Qc
                          <$> seq 0 2))
               / Qc_at Mq 2)).
Proof.
  apply (poisson_policy_cost_formula tri_mass tri_newsvendor_poisson_cost
           dict_newsvendor_discrete 1%Qc (Qc_frac 4 1) (Qc_frac 5 1) 1%Qc
           PyNone None (tri_cost 1 (Qc_frac 4 1)))
    with (s := 0) (S := 2);
    [reflexivity | reflexivity | reflexivity | reflexivity
    | apply tri_mass_nonneg | by_evaluation | reflexivity | lia].
Defined.
